(** * Streamed progress events of the vector-loader front end

    A shallow embedding of the two server-sent-event consumers of the
    front end, the file-processing step ([processFiles], and the
    [startProcessing] of the component's other copy) and the ingestion step
    ([handleIngestion]), together with the counters the ingestion screen
    derives from the file list.

    Text is a list of UTF-16 code units, as JavaScript strings are.  React
    state is threaded explicitly.  The function of a
    [setFiles (fun prev => ...)] call runs when React renders, after the
    handler has gone on.  Where it cannot throw and no later call of the
    handler sets what it sets, it is applied to the state where the call
    is made, which gives the same state; where it throws
    ([renderThrows]), or sets the progress that the handler sets again
    ([FileProcessingReset]), when it runs is modelled. *)

From Stdlib Require Import String Ascii.
From Stdlib Require Import List Bool Arith NArith ZArith QArith Lia.
Import ListNotations.
Close Scope Q_scope.

Set Warnings "-register-all".

(* ===================================================================== *)
(** ** JavaScript strings *)
(* ===================================================================== *)

Module JS.

Definition codeunit := N.
Definition jsstring := list codeunit.

(** String literals of the source, as code units. *)
Definition js (s : string) : jsstring :=
  map N_of_ascii (list_ascii_of_string s).
Arguments js s%_string.

(** The same, with every apostrophe of [s] standing for a double quote. *)
Definition jsq (s : string) : jsstring :=
  map (fun c => if (c =? 39)%N then 34%N else c) (js s).
Arguments jsq s%_string.

Definition LF : codeunit := 10%N.

Fixpoint str_eqb (a b : jsstring) : bool :=
  match a, b with
  | [], [] => true
  | x :: a', y :: b' => (x =? y)%N && str_eqb a' b'
  | _, _ => false
  end.

(** [s.startsWith(p)] *)
Fixpoint startsWith (s p : jsstring) {struct p} : bool :=
  match p with
  | [] => true
  | c :: p' =>
      match s with
      | [] => false
      | d :: s' => (d =? c)%N && startsWith s' p'
      end
  end.

(** [s.indexOf(needle)]: the first position at which [needle] occurs, or
    [-1]. *)
Fixpoint indexOf_from (s needle : jsstring) (pos : Z) : Z :=
  if startsWith s needle then pos
  else match s with
       | [] => (-1)%Z
       | _ :: s' => indexOf_from s' needle (pos + 1)%Z
       end.

Definition indexOf (s needle : jsstring) : Z := indexOf_from s needle 0%Z.

(** Both arguments of [substring] are clamped to [0 .. length] and swapped
    when out of order. *)
Definition clamp (n : Z) (len : nat) : nat :=
  Z.to_nat (Z.min (Z.max n 0) (Z.of_nat len)).

Definition substring (s : jsstring) (a b : Z) : jsstring :=
  let a' := clamp a (length s) in
  let b' := clamp b (length s) in
  firstn (Nat.max a' b' - Nat.min a' b') (skipn (Nat.min a' b') s).

(** [s.substring(a)] *)
Definition substring_from (s : jsstring) (a : Z) : jsstring :=
  substring s a (Z.of_nat (length s)).

(** [s.slice(a)]: a negative start counts from the end. *)
Definition slice_from (s : jsstring) (a : Z) : jsstring :=
  let len := Z.of_nat (length s) in
  let k := if (a <? 0)%Z then Z.max (len + a) 0 else Z.min a len in
  skipn (Z.to_nat k) s.

(** White space and line terminators of ECMAScript: what [trim] strips and
    what [\s] matches. *)
Definition isWhiteSpace (c : codeunit) : bool :=
  ((9 <=? c) && (c <=? 13) || (c =? 32) || (c =? 160) || (c =? 5760)
   || (8192 <=? c) && (c <=? 8202)
   || (c =? 8232) || (c =? 8233) || (c =? 8239) || (c =? 8287)
   || (c =? 12288) || (c =? 65279))%N.

(** Line terminators: what [.] does not match. *)
Definition isLineTerminator (c : codeunit) : bool :=
  ((c =? 10) || (c =? 13) || (c =? 8232) || (c =? 8233))%N.

Fixpoint trimStart (s : jsstring) : jsstring :=
  match s with
  | c :: s' => if isWhiteSpace c then trimStart s' else s
  | [] => []
  end.

Definition trimEnd (s : jsstring) : jsstring := rev (trimStart (rev s)).

Definition trim (s : jsstring) : jsstring := trimEnd (trimStart s).

(* ------------------------------------------------------------------- *)
(** *** Values *)

(** Values that [JSON.parse] can produce, and [undefined].  Numbers are
    kept as exact rationals. *)
Inductive value : Type :=
| Undefined
| Null
| Bool (b : bool)
| Num (q : Q)
| Str (s : jsstring)
| Arr (elems : list value)
| Obj (fields : list (jsstring * value)).

(** A later duplicate of a key overrides an earlier one. *)
Fixpoint lookup (k : jsstring) (fields : list (jsstring * value))
  : option value :=
  match fields with
  | [] => None
  | (k', v) :: rest =>
      match lookup k rest with
      | Some w => Some w
      | None => if str_eqb k' k then Some v else None
      end
  end.

(** [v.k] for the property names the components read ([fileId],
    [file_id], [status], [error], [progress], [analysis], [json], ...);
    none of them is inherited or an index.  [None] is the [TypeError] of
    reading a property of [undefined] or [null]. *)
Definition getProp (v : value) (k : jsstring) : option value :=
  match v with
  | Undefined | Null => None
  | Obj fields =>
      Some (match lookup k fields with Some w => w | None => Undefined end)
  | _ => Some Undefined
  end.

(** [k in v], for an object or array [v]. *)
Definition hasProp (k : jsstring) (v : value) : bool :=
  match v with
  | Obj fields => match lookup k fields with Some _ => true | None => false end
  | _ => false
  end.

Definition truthy (v : value) : bool :=
  match v with
  | Undefined | Null => false
  | Bool b => b
  | Num q => negb (Qeq_bool q 0)
  | Str s => match s with [] => false | _ => true end
  | Arr _ | Obj _ => true
  end.

Definition nullish (v : value) : bool :=
  match v with Undefined | Null => true | _ => false end.

(** [a ?? b] *)
Definition coalesce (a b : value) : value := if nullish a then b else a.

(** [a || b] *)
Definition or_else (a b : value) : value := if truthy a then a else b.

(** [typeof v === "object"] *)
Definition typeof_object (v : value) : bool :=
  match v with Null | Arr _ | Obj _ => true | _ => false end.

(** [typeof v === "number"] *)
Definition typeof_number (v : value) : bool :=
  match v with Num _ => true | _ => false end.

(** [s === v] for a string [s]. *)
Definition strict_eq_str (s : jsstring) (v : value) : bool :=
  match v with Str t => str_eqb s t | _ => false end.

End JS.

(* ===================================================================== *)
(** ** [JSON.parse] *)
(* ===================================================================== *)

Module JSON.
Import JS.

Inductive presult (A : Type) : Type :=
| POk (a : A) (rest : jsstring)
| PSyntax
| PFuel.
Arguments POk {A} a rest.
Arguments PSyntax {A}.
Arguments PFuel {A}.

Definition isJsonWs (c : codeunit) : bool :=
  ((c =? 32) || (c =? 9) || (c =? 10) || (c =? 13))%N.

Fixpoint skip_ws (s : jsstring) : jsstring :=
  match s with
  | c :: s' => if isJsonWs c then skip_ws s' else s
  | [] => []
  end.

Definition isDigit (c : codeunit) : bool := ((48 <=? c) && (c <=? 57))%N.

Definition hexval (c : codeunit) : option N :=
  if isDigit c then Some (c - 48)%N
  else if ((65 <=? c) && (c <=? 70))%N then Some (c - 55)%N
  else if ((97 <=? c) && (c <=? 102))%N then Some (c - 87)%N
  else None.

Definition hex4 (a b c d : codeunit) : option codeunit :=
  match hexval a, hexval b, hexval c, hexval d with
  | Some x, Some y, Some z, Some w => Some (((x * 16 + y) * 16 + z) * 16 + w)%N
  | _, _, _, _ => None
  end.

(** The single-character escapes: quote, backslash, slash, b, f, n, r, t. *)
Definition escape (e : codeunit) : option codeunit :=
  if (e =? 34)%N then Some 34%N
  else if (e =? 92)%N then Some 92%N
  else if (e =? 47)%N then Some 47%N
  else if (e =? 98)%N then Some 8%N
  else if (e =? 102)%N then Some 12%N
  else if (e =? 110)%N then Some 10%N
  else if (e =? 114)%N then Some 13%N
  else if (e =? 116)%N then Some 9%N
  else None.

(** The characters of a string literal after its opening quote, up to and
    including the closing quote. *)
Fixpoint parse_string_body (s acc : jsstring) : option (jsstring * jsstring) :=
  match s with
  | [] => None
  | c :: s' =>
      if (c =? 34)%N then Some (rev acc, s')
      else if (c =? 92)%N then
        match s' with
        | [] => None
        | e :: s'' =>
            if (e =? 117)%N then
              match s'' with
              | h1 :: h2 :: h3 :: h4 :: s3 =>
                  match hex4 h1 h2 h3 h4 with
                  | Some u => parse_string_body s3 (u :: acc)
                  | None => None
                  end
              | _ => None
              end
            else
              match escape e with
              | Some u => parse_string_body s'' (u :: acc)
              | None => None
              end
        end
      else if (c <? 32)%N then None
      else parse_string_body s' (c :: acc)
  end.

(** A run of decimal digits: its value appended to [acc], how many there
    were, and what follows. *)
Fixpoint take_digits (s : jsstring) (acc : N) (count : nat)
  : N * nat * jsstring :=
  match s with
  | c :: s' =>
      if isDigit c then take_digits s' (acc * 10 + (c - 48))%N (S count)
      else (acc, count, s)
  | [] => (acc, count, [])
  end.

Definition decimalQ (neg : bool) (mant : N) (exp10 : Z) : Q :=
  let m := if neg then (- Z.of_N mant)%Z else Z.of_N mant in
  Qred (if (0 <=? exp10)%Z then (m * 10 ^ exp10)%Z # 1
        else m # Z.to_pos (10 ^ (- exp10))).

(** [-? int frac? exp?] *)
Definition parse_number (s : jsstring) : presult value :=
  let (neg, s0) :=
    match s with
    | c :: r => if (c =? 45)%N then (true, r) else (false, s)
    | [] => (false, s)
    end in
  match s0 with
  | [] => PSyntax
  | d :: r0 =>
      if negb (isDigit d) then PSyntax else
      let '(ip, _, s1) :=
        if (d =? 48)%N then (0%N, 1, r0) else take_digits s0 0%N 0 in
      let frac :=
        match s1 with
        | c :: r1 =>
            if (c =? 46)%N then
              let '(m, k, s2) := take_digits r1 ip 0 in
              match k with O => None | S _ => Some (m, k, s2) end
            else Some (ip, 0, s1)
        | [] => Some (ip, 0, s1)
        end in
      match frac with
      | None => PSyntax
      | Some (m, k, s2) =>
          match s2 with
          | c :: r2 =>
              if ((c =? 101) || (c =? 69))%N then
                let (eneg, r3) :=
                  match r2 with
                  | sg :: r' =>
                      if (sg =? 45)%N then (true, r')
                      else if (sg =? 43)%N then (false, r')
                      else (false, r2)
                  | [] => (false, r2)
                  end in
                let '(e, ek, s3) := take_digits r3 0%N 0 in
                match ek with
                | O => PSyntax
                | S _ =>
                    let ez := if eneg then (- Z.of_N e)%Z else Z.of_N e in
                    POk (Num (decimalQ neg m (ez - Z.of_nat k))) s3
                end
              else POk (Num (decimalQ neg m (- Z.of_nat k))) s2
          | [] => POk (Num (decimalQ neg m (- Z.of_nat k))) s2
          end
      end
  end.

(** [true], [false], [null] *)
Definition parse_literal (s : jsstring) : presult value :=
  if startsWith s (js "true") then POk (Bool true) (skipn 4 s)
  else if startsWith s (js "false") then POk (Bool false) (skipn 5 s)
  else if startsWith s (js "null") then POk Null (skipn 4 s)
  else parse_number s.

Fixpoint parse_value (fuel : nat) (s : jsstring) : presult value :=
  match fuel with
  | O => PFuel
  | S fuel' =>
      match skip_ws s with
      | [] => PSyntax
      | c :: r =>
          if (c =? 123)%N then
            match skip_ws r with
            | c' :: r' =>
                if (c' =? 125)%N then POk (Obj []) r'
                else match parse_members fuel' r [] with
                     | POk fs r'' => POk (Obj fs) r''
                     | PSyntax => PSyntax
                     | PFuel => PFuel
                     end
            | [] => PSyntax
            end
          else if (c =? 91)%N then
            match skip_ws r with
            | c' :: r' =>
                if (c' =? 93)%N then POk (Arr []) r'
                else match parse_elements fuel' r [] with
                     | POk vs r'' => POk (Arr vs) r''
                     | PSyntax => PSyntax
                     | PFuel => PFuel
                     end
            | [] => PSyntax
            end
          else if (c =? 34)%N then
            match parse_string_body r [] with
            | Some (str, r') => POk (Str str) r'
            | None => PSyntax
            end
          else parse_literal (c :: r)
      end
  end
with parse_elements (fuel : nat) (s : jsstring) (acc : list value)
  : presult (list value) :=
  match fuel with
  | O => PFuel
  | S fuel' =>
      match parse_value fuel' s with
      | POk v r =>
          match skip_ws r with
          | c :: r' =>
              if (c =? 44)%N then parse_elements fuel' r' (v :: acc)
              else if (c =? 93)%N then POk (rev (v :: acc)) r'
              else PSyntax
          | [] => PSyntax
          end
      | PSyntax => PSyntax
      | PFuel => PFuel
      end
  end
with parse_members (fuel : nat) (s : jsstring) (acc : list (jsstring * value))
  : presult (list (jsstring * value)) :=
  match fuel with
  | O => PFuel
  | S fuel' =>
      match skip_ws s with
      | c :: r =>
          if (c =? 34)%N then
            match parse_string_body r [] with
            | Some (k, r1) =>
                match skip_ws r1 with
                | c2 :: r2 =>
                    if (c2 =? 58)%N then
                      match parse_value fuel' r2 with
                      | POk v r3 =>
                          match skip_ws r3 with
                          | c3 :: r4 =>
                              if (c3 =? 44)%N
                              then parse_members fuel' r4 ((k, v) :: acc)
                              else if (c3 =? 125)%N
                              then POk (rev ((k, v) :: acc)) r4
                              else PSyntax
                          | [] => PSyntax
                          end
                      | PSyntax => PSyntax
                      | PFuel => PFuel
                      end
                    else PSyntax
                | [] => PSyntax
                end
            | None => PSyntax
            end
          else PSyntax
      | [] => PSyntax
      end
  end.

(** The whole text must be one value, white space apart. *)
Definition parse_text (s : jsstring) : presult value :=
  match parse_value (2 * length s + 1) s with
  | POk v r => match skip_ws r with [] => POk v [] | _ :: _ => PSyntax end
  | PSyntax => PSyntax
  | PFuel => PFuel
  end.

(** [JSON.parse(s)]; [None] is the [SyntaxError] it throws. *)
Definition parse (s : jsstring) : option value :=
  match parse_text s with
  | POk v _ => Some v
  | _ => None
  end.

End JSON.

(* ===================================================================== *)
(** ** [TextDecoder], streaming UTF-8 *)
(* ===================================================================== *)

Module TextDecoder.
Import JS.

(** The state a [TextDecoder] keeps between [decode(value, {stream: true})]
    calls: the UTF-8 decoder's partial code point and the byte-order-mark
    flag. *)
Record decoder : Type := {
  codePoint : N;
  bytesSeen : N;
  bytesNeeded : N;
  lower : N;
  upper : N;
  bomSeen : bool
}.

Definition fresh : decoder :=
  {| codePoint := 0; bytesSeen := 0; bytesNeeded := 0;
     lower := 128; upper := 191; bomSeen := false |}.

Definition reset (d : decoder) : decoder :=
  {| codePoint := 0; bytesSeen := 0; bytesNeeded := 0;
     lower := 128; upper := 191; bomSeen := bomSeen d |}.

Definition expect (d : decoder) (n lo hi cp : N) : decoder :=
  {| codePoint := cp; bytesSeen := 0; bytesNeeded := n;
     lower := lo; upper := hi; bomSeen := bomSeen d |}.

(** A byte met when no sequence is open. *)
Definition lead (d : decoder) (b : N) : decoder * list N :=
  (if b <=? 127 then (d, [b])
   else if (194 <=? b) && (b <=? 223) then
     (expect d 1 128 191 (N.land b 31), [])
   else if (224 <=? b) && (b <=? 239) then
     (expect d 2 (if b =? 224 then 160 else 128)
                 (if b =? 237 then 159 else 191) (N.land b 15), [])
   else if (240 <=? b) && (b <=? 244) then
     (expect d 3 (if b =? 240 then 144 else 128)
                 (if b =? 244 then 143 else 191) (N.land b 7), [])
   else (d, [65533]))%N.

(** One byte through the UTF-8 decoder: the code points it completes.  A
    byte that cannot continue the open sequence ends it with U+FFFD and
    is then read again as a lead byte. *)
Definition handler (d : decoder) (b : N) : decoder * list N :=
  (if bytesNeeded d =? 0 then lead d b
   else if (b <? lower d) || (upper d <? b) then
     let (d', out) := lead (reset d) b in (d', 65533 :: out)
   else
     let cp := N.lor (N.shiftl (codePoint d) 6) (N.land b 63) in
     let seen := bytesSeen d + 1 in
     if seen =? bytesNeeded d then (reset d, [cp])
     else ({| codePoint := cp; bytesSeen := seen;
              bytesNeeded := bytesNeeded d;
              lower := 128; upper := 191; bomSeen := bomSeen d |}, []))%N.

(** The first code point is dropped when it is the byte order mark. *)
Definition stripBOM (seen : bool) (cps : list N) : bool * list N :=
  match cps with
  | [] => (seen, [])
  | c :: rest =>
      if seen then (true, cps)
      else if (c =? 65279)%N then (true, rest) else (true, cps)
  end.

(** A code point as one or two UTF-16 code units. *)
Definition utf16 (c : N) : jsstring :=
  (if c <? 65536 then [c]
   else [55296 + (c - 65536) / 1024; 56320 + (c - 65536) mod 1024])%N.

Definition step (d : decoder) (b : Byte.byte) : decoder * jsstring :=
  let (d1, cps) := handler d (Byte.to_N b) in
  let (seen, cps') := stripBOM (bomSeen d1) cps in
  ({| codePoint := codePoint d1; bytesSeen := bytesSeen d1;
      bytesNeeded := bytesNeeded d1; lower := lower d1; upper := upper d1;
      bomSeen := seen |},
   flat_map utf16 cps').

(** [decoder.decode(value, { stream: true })] *)
Fixpoint decode (d : decoder) (value : list Byte.byte) : decoder * jsstring :=
  match value with
  | [] => (d, [])
  | b :: rest =>
      let (d1, out1) := step d b in
      let (d2, out2) := decode d1 rest in
      (d2, out1 ++ out2)
  end.

End TextDecoder.

(** Bytes of an ASCII literal, apostrophes standing for double quotes. *)
Definition bytesq (s : string) : list Byte.byte :=
  map (fun b => if Byte.eqb b Byte.x27 then Byte.x22 else b)
      (list_byte_of_string s).
Arguments bytesq s%_string.

(* ===================================================================== *)
(** ** Shared data: the file list, errors, the HTTP response *)
(* ===================================================================== *)

Module Model.
Import JS.

(** The fields of [FileData] that the two components read or write.  The
    optional fields hold [Undefined] until assigned; types are erased at
    run time, so a field written from an event holds whatever the event
    carried. *)
Record FileData : Type := {
  id : jsstring;
  name : jsstring;
  selected : bool;
  processed : bool;
  qualityMetrics : value;
  analysis : value;
  error : value;
  ingestionStatus : value;
  ingestionDetails : value
}.

(** The message of a thrown [Error].  Every rejection of [fetch] and of the
    stream reader is taken to be an [Error] object; what the handlers keep
    of it is its message.  The text of a built-in [SyntaxError] or
    [TypeError] is the engine's. *)
Inductive message : Type :=
| Text (s : jsstring)
| TextOf (v : value)
| SyntaxErrorText (source : jsstring)
| TypeErrorText.

(** What [fetch] and the body reader deliver: the chunks read before the
    stream is done ([ending = None]) or before a read rejects. *)
Inductive response : Type :=
| FetchRejected (e : message)
| NotOk (status statusText body : jsstring)
| NoBody
| Body (chunks : list (list Byte.byte)) (ending : option message).

(** How a loop ends.  A throw carries the state at the point of the throw;
    [OutOfFuel] is the bounded model giving up, which the loops below
    never do. *)
Inductive completion (A S : Type) : Type :=
| Normal (a : A)
| Throw (e : message) (st : S)
| OutOfFuel.
Arguments Normal {A S} a.
Arguments Throw {A S} e st.
Arguments OutOfFuel {A S}.

End Model.

(* ===================================================================== *)
(** ** The ingestion step: [IngestionProcess], streaming *)
(* ===================================================================== *)

Module IngestionProcess.
Import JS Model.

(** The reader loop, over any per-message action.  An action either
    completes with a new state, or throws: then it gives the error and the
    state as it stands at the throw, with what it had set before. *)
Section ReaderLoop.
Variable S : Type.
Variable onMessage : jsstring -> S -> S + message * S.

(** The inner [while (boundary !== -1)] loop. *)
Fixpoint drain (fuel : nat) (buffer : jsstring) (st : S)
  : completion (jsstring * S) S :=
  let boundary := indexOf buffer [LF; LF] in
  if (boundary =? -1)%Z then Normal (buffer, st)
  else
    match fuel with
    | O => OutOfFuel
    | Datatypes.S fuel' =>
        let message := substring buffer 0 boundary in
        let buffer' := substring_from buffer (boundary + 2) in
        match onMessage message st with
        | inl st' => drain fuel' buffer' st'
        | inr (e, st') => Throw e st'
        end
    end.

(** The outer [while (true)] loop: one iteration for each [reader.read()]. *)
Fixpoint readLoop (chunks : list (list Byte.byte)) (ending : option message)
    (decoder : TextDecoder.decoder) (buffer : jsstring) (st : S)
  : completion S S :=
  match chunks with
  | [] =>
      match ending with
      | None => Normal st
      | Some e => Throw e st
      end
  | value :: rest =>
      let (decoder', text) := TextDecoder.decode decoder value in
      let buffer := buffer ++ text in
      match drain (length buffer) buffer st with
      | Normal (buffer', st') => readLoop rest ending decoder' buffer' st'
      | Throw e st' => Throw e st'
      | OutOfFuel => OutOfFuel
      end
  end.
End ReaderLoop.
Arguments drain {S} onMessage fuel buffer st.
Arguments readLoop {S} onMessage chunks ending decoder buffer st.

(** The component's props and state.  The function handed to [setFiles]
    runs when React renders, outside the [try] of the handler that issued
    it.  The functions of this component touch [files] alone and no other
    call does, so the list is what they give in the order of issue;
    [renderThrows] records that one of them throws when it runs: the page
    is then torn down, and none of the other values is shown. *)
Record state : Type := {
  files : list FileData;
  progress : value;
  isIngesting : bool;
  apiError : option message;
  renderThrows : bool
}.

Definition setFiles (u : list FileData -> list FileData) (st : state) : state :=
  {| files := u (files st); progress := progress st;
     isIngesting := isIngesting st; apiError := apiError st;
     renderThrows := renderThrows st |}.

Definition setProgress (p : value) (st : state) : state :=
  {| files := files st; progress := p;
     isIngesting := isIngesting st; apiError := apiError st;
     renderThrows := renderThrows st |}.

Definition setIsIngesting (b : bool) (st : state) : state :=
  {| files := files st; progress := progress st;
     isIngesting := b; apiError := apiError st;
     renderThrows := renderThrows st |}.

Definition setApiError (e : option message) (st : state) : state :=
  {| files := files st; progress := progress st;
     isIngesting := isIngesting st; apiError := e;
     renderThrows := renderThrows st |}.

(** [setFiles(u)] for a [u] that throws when React runs it. *)
Definition setFilesThrowing (st : state) : state :=
  {| files := files st; progress := progress st;
     isIngesting := isIngesting st; apiError := apiError st;
     renderThrows := true |}.

(** [{ ...f, ingestionStatus, ingestionDetails, error }] *)
Definition withIngestion (f : FileData) (status details err : value)
  : FileData :=
  {| id := id f; name := name f; selected := selected f;
     processed := processed f; qualityMetrics := qualityMetrics f;
     analysis := analysis f; error := err;
     ingestionStatus := status; ingestionDetails := details |}.

(** The files of this pass are set to pending when it starts. *)
Definition markPending (filesToProcess : list FileData) (f : FileData)
  : FileData :=
  if existsb (fun p => str_eqb (id p) (id f)) filesToProcess
  then withIngestion f (Str (js "pending")) Null Undefined
  else f.

(** The update of [setFiles] for one event. *)
Definition applyEvent (fileId status details err : value) (f : FileData)
  : FileData :=
  if strict_eq_str (id f) fileId
  then withIngestion f status details (or_else err Undefined)
  else f.

(** The function handed to [setFiles] for a [null] result reads
    [result.fileId] for each file of the list: it throws when React runs
    it, unless the list is empty. *)
Definition setFilesOfNull (st : state) : state :=
  match files st with
  | [] => st
  | _ :: _ => setFilesThrowing st
  end.

(** The body of the inner loop for one message.  For a [null] result
    [setFiles] is called first, and [result.progress] then throws a
    [TypeError] inside the [try]. *)
Definition onMessage (message : jsstring) (st : state)
  : state + Model.message * state :=
  if startsWith message (js "data: ") then
    let jsonStr := substring_from message 6 in
    match JSON.parse jsonStr with
    | None => inr (SyntaxErrorText jsonStr, st)
    | Some result =>
        match getProp result (js "fileId"), getProp result (js "status"),
              getProp result (js "ingestionDetails"),
              getProp result (js "error"), getProp result (js "progress") with
        | Some fileId, Some status, Some details, Some err, Some prog =>
            inl (setProgress prog
                   (setFiles (map (applyEvent fileId status details err)) st))
        | _, _, _, _, _ => inr (TypeErrorText, setFilesOfNull st)
        end
    end
  else inl st.

(** The [catch] block. *)
Definition markFailed (f : FileData) : FileData :=
  if strict_eq_str (js "pending") (ingestionStatus f)
  then withIngestion f (Str (js "failed")) (ingestionDetails f)
         (Str (js "Connection error during ingestion."))
  else f.

Definition onCatch (e : message) (st : state) : state :=
  setFiles (map markFailed) (setApiError (Some e) st).

(** The [try] block. *)
Definition tryBlock (resp : response) (st : state) : completion state state :=
  match resp with
  | FetchRejected e => Throw e st
  | NotOk _ _ body =>
      match JSON.parse body with
      | None => Throw (SyntaxErrorText body) st
      | Some errorData =>
          match getProp errorData (js "detail") with
          | None => Throw TypeErrorText st
          | Some detail =>
              Throw (TextOf (or_else detail
                               (Str (js "Ingestion request failed")))) st
          end
      end
  | NoBody => Throw (Text (js "Response body is missing.")) st
  | Body chunks ending =>
      readLoop onMessage chunks ending TextDecoder.fresh [] st
  end.

(** What [handleIngestion] does before the request is sent. *)
Definition begin (filesToProcess : list FileData) (st : state) : state :=
  setFiles (map (markPending filesToProcess))
    (setProgress (Num 0) (setApiError None (setIsIngesting true st))).

(** [handleIngestion(filesToProcess)], given what the server answers.
    [None] only if the bounded inner loop gave up. *)
Definition handleIngestion (filesToProcess : list FileData) (resp : response)
    (st : state) : option state :=
  match filesToProcess with
  | [] => Some st
  | _ :: _ =>
      match tryBlock resp (begin filesToProcess st) with
      | Normal st2 => Some (setIsIngesting false st2)
      | Throw e st2 => Some (setIsIngesting false (onCatch e st2))
      | OutOfFuel => None
      end
  end.

Definition startIngestion (resp : response) (st : state) : option state :=
  handleIngestion (filter (fun f => selected f && processed f) (files st))
    resp st.

Definition retryFailedIngestion (resp : response) (st : state) : option state :=
  handleIngestion
    (filter (fun f => strict_eq_str (js "failed") (ingestionStatus f))
       (files st))
    resp st.

(** What the screen derives from the file list. *)
Definition selectedFiles (fs : list FileData) : list FileData :=
  filter (fun f => selected f && processed f) fs.

Definition successCount (fs : list FileData) : nat :=
  length (filter (fun f => strict_eq_str (js "success") (ingestionStatus f))
            (selectedFiles fs)).

Definition failedCount (fs : list FileData) : nat :=
  length (filter (fun f => strict_eq_str (js "failed") (ingestionStatus f))
            (selectedFiles fs)).

Definition pendingCount (fs : list FileData) : nat :=
  length (filter (fun f => strict_eq_str (js "pending") (ingestionStatus f))
            (selectedFiles fs)).

End IngestionProcess.

(* ===================================================================== *)
(** ** The regular expression of the processing step *)
(* ===================================================================== *)

(** [/(?:^|\n)data:\s*((?:.|\n)*?)(?=\n\n|$)/g], matched the way a
    backtracking engine matches it. *)
Module DataBlockRegex.
Import JS.

(** [(?=\n\n|$)]: a blank line follows, or the input ends. *)
Definition lookahead (s : jsstring) : bool :=
  startsWith s [LF; LF] || match s with [] => true | _ :: _ => false end.

(** [(?:.|\n)]: anything but a carriage return and the two Unicode line
    separators. *)
Definition anyChar (c : codeunit) : bool :=
  negb (isLineTerminator c) || (c =? LF)%N.

(** [((?:.|\n)*?)(?=\n\n|$)]: the length of the shortest capture after
    which the lookahead holds. *)
Fixpoint lazyBody (s : jsstring) : option nat :=
  if lookahead s then Some 0
  else match s with
       | [] => None
       | c :: s' => if anyChar c then option_map S (lazyBody s') else None
       end.

(** [\s*((?:.|\n)*?)(?=\n\n|$)]: the white space is taken greedily and
    given back one character at a time when the rest does not match.
    The result is the white space kept and the length of the capture. *)
Fixpoint afterData (s : jsstring) : option (nat * nat) :=
  match s with
  | c :: s' =>
      if isWhiteSpace c then
        match afterData s' with
        | Some (k, n) => Some (S k, n)
        | None => option_map (pair 0) (lazyBody s)
        end
      else option_map (pair 0) (lazyBody s)
  | [] => option_map (pair 0) (lazyBody s)
  end.

(** [data:\s*(...)(?=...)] at the head of [s]: the capture and the length
    of what is matched. *)
Definition dataBlock (s : jsstring) : option (jsstring * nat) :=
  if startsWith s (js "data:") then
    match afterData (skipn 5 s) with
    | Some (k, n) => Some (firstn n (skipn (5 + k) s), 5 + k + n)
    | None => None
    end
  else None.

(** A match starting exactly here: [^] holds only at index 0. *)
Definition matchHere (atStart : bool) (s : jsstring)
  : option (jsstring * nat) :=
  match (if atStart then dataBlock s else None) with
  | Some m => Some m
  | None =>
      match s with
      | c :: s' =>
          if (c =? LF)%N then
            match dataBlock s' with
            | Some (cap, len) => Some (cap, S len)
            | None => None
            end
          else None
      | [] => None
      end
  end.

(** The leftmost match at or after index [p], where [s] is the input from
    [p] on: group 1 and the index at which the match ends. *)
Fixpoint execFrom (s : jsstring) (p : nat) : option (jsstring * nat) :=
  match matchHere (p =? 0) s with
  | Some (cap, len) => Some (cap, p + len)
  | None =>
      match s with
      | [] => None
      | _ :: s' => execFrom s' (S p)
      end
  end.

(** [dataBlockRegex.exec(buffer)] with [dataBlockRegex.lastIndex = lastIndex]:
    [match[1]] and the new [lastIndex]. *)
Definition exec (buffer : jsstring) (lastIndex : nat)
  : option (jsstring * nat) :=
  if length buffer <? lastIndex then None
  else execFrom (skipn lastIndex buffer) lastIndex.

End DataBlockRegex.

(** The reader loop of the processing step, over any per-block action.
    The action has its own [try]/[catch] and never throws. *)
Module BlockReader.
Import JS Model.

Section ReaderLoop.
Variable S : Type.
Variable onBlock : jsstring -> S -> S.

(** The inner [while ((match = dataBlockRegex.exec(buffer)) !== null)]
    loop: the last [lastIndex] recorded, and the state. *)
Fixpoint matchLoop (fuel : nat) (buffer : jsstring)
    (regexLastIndex lastIndex : nat) (st : S) : option (nat * S) :=
  match DataBlockRegex.exec buffer regexLastIndex with
  | None => Some (lastIndex, st)
  | Some (group1, regexLastIndex') =>
      match fuel with
      | O => None
      | Datatypes.S fuel' =>
          let rawData := trim group1 in
          matchLoop fuel' buffer regexLastIndex' regexLastIndex'
            (onBlock rawData st)
      end
  end.

Fixpoint readLoop (chunks : list (list Byte.byte)) (ending : option message)
    (decoder : TextDecoder.decoder) (buffer : jsstring) (st : S)
  : completion S S :=
  match chunks with
  | [] =>
      match ending with
      | None => Normal st
      | Some e => Throw e st
      end
  | value :: rest =>
      let (decoder', text) := TextDecoder.decode decoder value in
      let buffer := buffer ++ text in
      match matchLoop (length buffer) buffer 0 0 st with
      | Some (lastIndex, st') =>
          readLoop rest ending decoder'
            (slice_from buffer (Z.of_nat lastIndex)) st'
      | None => OutOfFuel
      end
  end.
End ReaderLoop.
Arguments matchLoop {S} onBlock fuel buffer regexLastIndex lastIndex st.
Arguments readLoop {S} onBlock chunks ending decoder buffer st.

End BlockReader.

(* ===================================================================== *)
(** ** The processing step: [FileProcessing] *)
(* ===================================================================== *)

(** What the two copies of the component share. *)
Module ProcessingCommon.
Import JS Model.

Record state : Type := {
  files : list FileData;
  progress : value;
  isProcessing : bool;
  error : option message;
  processedFileCount : nat
}.

Definition setFiles (u : list FileData -> list FileData) (st : state) : state :=
  {| files := u (files st); progress := progress st;
     isProcessing := isProcessing st; error := error st;
     processedFileCount := processedFileCount st |}.

Definition setProgress (p : value) (st : state) : state :=
  {| files := files st; progress := p;
     isProcessing := isProcessing st; error := error st;
     processedFileCount := processedFileCount st |}.

Definition setIsProcessing (b : bool) (st : state) : state :=
  {| files := files st; progress := progress st;
     isProcessing := b; error := error st;
     processedFileCount := processedFileCount st |}.

Definition setError (e : option message) (st : state) : state :=
  {| files := files st; progress := progress st;
     isProcessing := isProcessing st; error := e;
     processedFileCount := processedFileCount st |}.

Definition setProcessedFileCount (n : nat) (st : state) : state :=
  {| files := files st; progress := progress st;
     isProcessing := isProcessing st; error := error st;
     processedFileCount := n |}.

(** [(k / Math.max(1, n)) * 100], in exact arithmetic. *)
Definition percent (k n : nat) : value :=
  Num (Qred (inject_Z (Z.of_nat k) / inject_Z (Z.of_nat (Nat.max 1 n)) * 100)).

(** [v.k] of a value known not to be [null] or [undefined]. *)
Definition prop (v : value) (k : jsstring) : value :=
  match getProp v k with Some w => w | None => Undefined end.

(** [payload.analysis ?? null], unwrapped when it is an object with a
    [json] member. *)
Definition analysisOf (payload : value) : value :=
  let analysis := coalesce (prop payload (js "analysis")) Null in
  if truthy analysis && typeof_object analysis && hasProp (js "json") analysis
  then prop analysis (js "json")
  else analysis.

(** [(analysis && (analysis.quality_score ?? analysis.quality)) ?? undefined],
    kept when it is a number. *)
Definition qualityMetricsOf (analysis : value) : value :=
  let parseAccuracy :=
    coalesce
      (if truthy analysis
       then coalesce (prop analysis (js "quality_score"))
                     (prop analysis (js "quality"))
       else analysis)
      Undefined in
  if typeof_number parseAccuracy
  then Obj [(js "parseAccuracy", parseAccuracy)]
  else Undefined.

(** [{ ...f, processed: true, qualityMetrics, analysis, error }] *)
Definition processedWith (payload analysis : value) (f : FileData) : FileData :=
  {| id := id f; name := name f; selected := selected f;
     processed := true;
     qualityMetrics := qualityMetricsOf analysis;
     analysis :=
       coalesce (coalesce analysis (prop payload (js "analysis"))) payload;
     Model.error := coalesce (prop payload (js "error")) Undefined;
     ingestionStatus := ingestionStatus f;
     ingestionDetails := ingestionDetails f |}.

(** [{ ...f, processed: false, qualityMetrics: undefined,
       analysis: undefined, error: undefined }] *)
Definition unprocessed (f : FileData) : FileData :=
  {| id := id f; name := name f; selected := selected f;
     processed := false; qualityMetrics := Undefined; analysis := Undefined;
     Model.error := Undefined;
     ingestionStatus := ingestionStatus f;
     ingestionDetails := ingestionDetails f |}.

(** [payload.fileId ?? payload.file_id ?? null]; [None] when [payload] is
    [null] and reading [fileId] throws. *)
Definition fileIdOf (payload : value) : option value :=
  match getProp payload (js "fileId") with
  | None => None
  | Some a =>
      Some (coalesce (coalesce a (prop payload (js "file_id"))) Null)
  end.

(** The update of [setFiles] for one event: [guard f] is the condition on
    a file, besides the id, under which the event is applied to it. *)
Definition applyPayload (guard : FileData -> bool)
    (fileId payload analysis : value) (f : FileData) : FileData :=
  if strict_eq_str (id f) fileId && guard f
  then processedWith payload analysis f
  else f.

(** The body of the inner loop for one block; [total] is the length of
    the selection the handler closed over.  A payload that does not parse,
    or whose id cannot be read, is caught and logged; one without an id is
    skipped with a warning. *)
Definition onBlock (guard : FileData -> bool) (total : nat)
    (rawData : jsstring) (st : state) : state :=
  match JSON.parse rawData with
  | None => st
  | Some payload =>
      match fileIdOf payload with
      | None => st
      | Some fileId =>
          if negb (truthy fileId) then st
          else
            let analysis := analysisOf payload in
            let updated :=
              map (applyPayload guard fileId payload analysis) (files st) in
            let processedSoFar :=
              length (filter (fun f => selected f && processed f) updated) in
            setFiles (fun _ => updated)
              (setProgress (percent processedSoFar total)
                 (setProcessedFileCount processedSoFar st))
      end
  end.

(** [err.message || "An unknown error occurred. Is the backend running?"] *)
Definition messageOrDefault (e : message) : message :=
  match e with
  | Text [] | TextOf (Str []) =>
      Text (js "An unknown error occurred. Is the backend running?")
  | _ => e
  end.

(** The request, up to the reader loop. *)
Definition stream (guard : FileData -> bool) (total : nat)
    (resp : response) (st : state) : completion state state :=
  match resp with
  | FetchRejected e => Throw e st
  | NotOk status statusText errBody =>
      Throw (Text (js "Upload failed: " ++ status ++ js " " ++ statusText
                     ++ js " " ++ errBody)) st
  | NoBody => Throw (Text (js "No response body available for streaming.")) st
  | Body chunks ending =>
      BlockReader.readLoop (onBlock guard total) chunks ending
        TextDecoder.fresh [] st
  end.

End ProcessingCommon.

(** [frontend/components/file-processing.tsx] *)
Module FileProcessing.
Import JS Model.
Export ProcessingCommon.

(** [processFiles(filesToProcess)]; [selectedFiles] is the selection as of
    the render that created the handler. *)
Definition processFiles (selectedFiles filesToProcess : list FileData)
    (resp : response) (st : state) : option state :=
  match filesToProcess with
  | [] => Some st
  | _ :: _ =>
      let st1 := setError None (setIsProcessing true st) in
      match stream (fun _ => true) (length selectedFiles) resp st1 with
      | Normal st2 => Some (setIsProcessing false st2)
      | Throw e st2 =>
          Some (setIsProcessing false (setError (Some (messageOrDefault e)) st2))
      | OutOfFuel => None
      end
  end.

Definition startProcessing (resp : response) (st : state) : option state :=
  let selectedFiles := filter selected (files st) in
  processFiles selectedFiles selectedFiles resp
    (setFiles (map (fun f => if selected f then unprocessed f else f))
       (setProcessedFileCount 0 (setProgress (Num 0) st))).

Definition retryFailedProcessing (resp : response) (st : state)
  : option state :=
  let selectedFiles := filter selected (files st) in
  let failedFiles :=
    filter (fun f => processed f && truthy (Model.error f)) selectedFiles in
  let failedFileIds := map id failedFiles in
  processFiles selectedFiles failedFiles resp
    (setFiles
       (map (fun f => if existsb (str_eqb (id f)) failedFileIds
                      then unprocessed f else f))
       st).

End FileProcessing.

(** The copy of the component with the Reset button, whose
    [startProcessing] holds the whole request.  Here the function handed
    to [setFiles] for a block also calls [setProcessedFileCount] and
    [setProgress]: these calls are made when React runs the function, at
    a render, while the [setProgress] after the loop and the one of the
    [catch] block are made by the handler itself. *)
Module FileProcessingReset.
Import JS Model.
Export ProcessingCommon.

(** The function a block hands to [setFiles], if it hands one. *)
Definition updateOf (total : nat) (rawData : jsstring)
  : option (state -> state) :=
  match JSON.parse rawData with
  | None => None
  | Some payload =>
      match fileIdOf payload with
      | None => None
      | Some fileId =>
          if negb (truthy fileId) then None
          else Some (onBlock (fun f => negb (processed f)) total rawData)
      end
  end.

(** The body of the inner loop for one block, on the functions handed to
    [setFiles] so far. *)
Definition enqueue (total : nat) (rawData : jsstring)
    (queue : list (state -> state)) : list (state -> state) :=
  match updateOf total rawData with
  | Some update => queue ++ [update]
  | None => queue
  end.

(** The request, up to the reader loop: the functions handed to
    [setFiles], in order. *)
Definition issued (total : nat) (resp : response)
  : completion (list (state -> state)) (list (state -> state)) :=
  match resp with
  | FetchRejected e => Throw e []
  | NotOk status statusText errBody =>
      Throw (Text (js "Upload failed: " ++ status ++ js " " ++ statusText
                     ++ js " " ++ errBody)) []
  | NoBody => Throw (Text (js "No response body available for streaming.")) []
  | Body chunks ending =>
      BlockReader.readLoop (enqueue total) chunks ending TextDecoder.fresh [] []
  end.

(** React runs queued functions in the order they were handed over. *)
Definition run (queue : list (state -> state)) (st : state) : state :=
  fold_left (fun s update => update s) queue st.

(** The value the block after the loop hands to [setProgress]. *)
Definition finalProgress (selected : list FileData) : value :=
  let processedCount := 0 in
  if processedCount =? length selected
  then Num 100
  else percent processedCount (length selected).

(** [startProcessing]; [rendered] is the number of the functions of this
    pass that React has run when the handler leaves the [try]: the rest
    run after the handler's last calls. *)
Definition startProcessing (rendered : nat) (resp : response) (st : state)
  : option state :=
  let st1 :=
    setFiles (map (fun f => if selected f then unprocessed f else f))
      (setProcessedFileCount 0
         (setError None (setProgress (Num 0) (setIsProcessing true st)))) in
  let selected := filter selected (files st) in
  match issued (length selected) resp with
  | Normal queue =>
      Some (run (skipn rendered queue)
              (setIsProcessing false
                 (setProgress (finalProgress selected)
                    (run (firstn rendered queue) st1))))
  | Throw e queue =>
      Some (run (skipn rendered queue)
              (setIsProcessing false
                 (setProgress (Num 0)
                    (setError (Some (messageOrDefault e))
                       (run (firstn rendered queue) st1)))))
  | OutOfFuel => None
  end.

End FileProcessingReset.

(* ===================================================================== *)
(** ** The ingestion step answered in one piece *)
(* ===================================================================== *)

(** The copy of [IngestionProcess] that reads the whole answer at once:
    what it derives from the file list, and how it ends a failed request. *)
Module IngestionProcessBatch.
Import JS Model.

Definition selectedFiles (fs : list FileData) : list FileData :=
  filter (fun f => selected f && processed f) fs.

Definition successCount (fs : list FileData) : nat :=
  length (filter (fun f => strict_eq_str (js "success") (ingestionStatus f))
            (selectedFiles fs)).

Definition failedCount (fs : list FileData) : nat :=
  length (filter (fun f => strict_eq_str (js "failed") (ingestionStatus f))
            (selectedFiles fs)).

Definition pendingCount (fs : list FileData) : nat :=
  length (filter (fun f => strict_eq_str (js "pending") (ingestionStatus f))
            (selectedFiles fs)).

(** [selectedFiles.length > 0
       ? (successCount + failedCount) / selectedFiles.length * 100
       : progress] *)
Definition progressValue (fs : list FileData) (progress : value) : value :=
  if 0 <? length (selectedFiles fs)
  then Num (Qred (inject_Z (Z.of_nat (successCount fs + failedCount fs))
                  / inject_Z (Z.of_nat (length (selectedFiles fs))) * 100))
  else progress.

(** The [catch] block's update of the file list. *)
Definition markFailed (f : FileData) : FileData :=
  if strict_eq_str (js "pending") (ingestionStatus f)
  then IngestionProcess.withIngestion f (Str (js "failed"))
         (ingestionDetails f) (Str (js "API connection failed"))
  else f.

End IngestionProcessBatch.

(* ===================================================================== *)
(** ** Sample files and streams *)
(* ===================================================================== *)

Module Scenario.
Import JS Model.

Definition newFile (i : string) : FileData :=
  {| id := js i; name := js i ++ js ".pdf";
     selected := true; processed := true;
     qualityMetrics := Undefined; analysis := Undefined; error := Undefined;
     ingestionStatus := Undefined; ingestionDetails := Undefined |}.

Definition fileA : FileData := newFile "A".
Definition fileB : FileData := newFile "B".

(** One frame on the wire: [data: payload] and a blank line. *)
Definition frame (payload : string) : list Byte.byte :=
  bytesq ("data: " ++ payload) ++ [Byte.x0a; Byte.x0a].

Definition ingestion0 (fs : list FileData) : IngestionProcess.state :=
  {| IngestionProcess.files := fs;
     IngestionProcess.progress := Num 0;
     IngestionProcess.isIngesting := false;
     IngestionProcess.apiError := None;
     IngestionProcess.renderThrows := false |}.

Definition processing0 (fs : list FileData) : ProcessingCommon.state :=
  {| ProcessingCommon.files := fs;
     ProcessingCommon.progress := Num 0;
     ProcessingCommon.isProcessing := false;
     ProcessingCommon.error := None;
     ProcessingCommon.processedFileCount := 0 |}.

(** The status is one of the three the ingestion screen counts. *)
Definition counted (f : FileData) : bool :=
  strict_eq_str (js "pending") (ingestionStatus f)
  || strict_eq_str (js "success") (ingestionStatus f)
  || strict_eq_str (js "failed") (ingestionStatus f).

(** The ingestion status of each file, in order. *)
Definition statuses (fs : list FileData) : list value :=
  map ingestionStatus fs.

End Scenario.

(* ===================================================================== *)
(** ** The rows a screen has expanded *)
(* ===================================================================== *)

(** [expandedFiles], a [Set<string>]: its members in insertion order, each
    once.  [toggleFileExpansion] is the same in both copies of
    [IngestionProcess] and in [SummaryView]. *)
Module ExpandedFiles.
Import JS.

(** [s.has(x)] *)
Definition has (s : list jsstring) (x : jsstring) : bool :=
  existsb (str_eqb x) s.

(** [s.delete(x)] *)
Definition delete (s : list jsstring) (x : jsstring) : list jsstring :=
  filter (fun y => negb (str_eqb x y)) s.

(** [s.add(x)] *)
Definition add (s : list jsstring) (x : jsstring) : list jsstring :=
  if has s x then s else s ++ [x].

Definition toggleFileExpansion (expandedFiles : list jsstring)
    (fileId : jsstring) : list jsstring :=
  let newExpanded := expandedFiles in
  if has newExpanded fileId
  then delete newExpanded fileId
  else add newExpanded fileId.

End ExpandedFiles.

(* ===================================================================== *)
(** ** The wizard page *)
(* ===================================================================== *)

(** [DataLoaderAutomation], the page of six steps that hosts the
    components. *)
Module Wizard.
Import JS Model.

Definition nextStep (currentStep : nat) : nat :=
  if currentStep <? 6 then currentStep + 1 else currentStep.

Definition prevStep (currentStep : nat) : nat :=
  if 1 <? currentStep then currentStep - 1 else currentStep.

Definition canProceed (currentStep : nat) (files : list FileData) : bool :=
  match currentStep with
  | 1 => 0 <? length files
  | 2 => forallb processed (filter selected files)
  | 3 => existsb selected files
  | 4 => true
  | 5 =>
      forallb
        (fun f => negb (strict_eq_str (js "pending") (ingestionStatus f)))
        (filter selected files)
  | _ => true
  end.

(** [allIngestionComplete] of [autoAdvanceToSummary]. *)
Definition allIngestionComplete (files : list FileData) : bool :=
  let selectedFiles := filter selected files in
  (0 <? length selectedFiles)
  && forallb
       (fun f => strict_eq_str (js "success") (ingestionStatus f)
                 || strict_eq_str (js "failed") (ingestionStatus f))
       selectedFiles.

(** The step [autoAdvanceToSummary] schedules, if any. *)
Definition autoAdvanceToSummary (currentStep : nat) (files : list FileData)
  : option nat :=
  if currentStep =? 5
  then if allIngestionComplete files then Some 6 else None
  else None.

End Wizard.

(** The copy of the page with five steps; [uploaded] reads the flag of a
    file that this copy's [FileData] adds. *)
Module WizardFive.
Import JS Model.

Definition steps_length : nat := 5.

Definition nextStep (currentStep : nat) : nat :=
  if currentStep <? steps_length then currentStep + 1 else currentStep.

Definition prevStep (currentStep : nat) : nat :=
  if 1 <? currentStep then currentStep - 1 else currentStep.

Definition canProceed (uploaded : FileData -> bool) (uploadIsComplete : bool)
    (currentStep : nat) (files : list FileData) : bool :=
  match currentStep with
  | 1 => existsb selected files && uploadIsComplete
  | 2 => forallb processed (filter (fun f => selected f && uploaded f) files)
  | 3 => existsb selected files
  | 4 =>
      existsb (fun f => strict_eq_str (js "success") (ingestionStatus f))
        (filter selected files)
  | _ => true
  end.

End WizardFive.

(* ===================================================================== *)
(** ** Choosing the files to ingest *)
(* ===================================================================== *)

(** [frontend/components/file-selection-ingestion.tsx] *)
Module FileSelectionForIngestion.
Import JS Model.

(** [{ ...file, selected: b }] *)
Definition withSelected (file : FileData) (b : bool) : FileData :=
  {| id := id file; name := name file; selected := b;
     processed := processed file; qualityMetrics := qualityMetrics file;
     analysis := analysis file; error := error file;
     ingestionStatus := ingestionStatus file;
     ingestionDetails := ingestionDetails file |}.

Definition processedFiles (files : list FileData) : list FileData :=
  filter processed files.

Definition toggleFileSelection (fileId : jsstring) (files : list FileData)
  : list FileData :=
  map (fun file =>
         if str_eqb (id file) fileId
         then withSelected file (negb (selected file))
         else file)
      files.

Definition toggleAllFiles (checked : bool) (files : list FileData)
  : list FileData :=
  map (fun file => if processed file then withSelected file checked else file)
      files.

Definition selectedCount (files : list FileData) : nat :=
  length (filter selected (processedFiles files)).

Definition totalCount (files : list FileData) : nat :=
  length (processedFiles files).

End FileSelectionForIngestion.

(* ===================================================================== *)
(** ** What the processing and summary screens derive *)
(* ===================================================================== *)

(** The values [FileProcessing] computes from the file list at each
    render. *)
Module FileProcessingView.
Import JS Model.

Definition selectedFiles (files : list FileData) : list FileData :=
  filter selected files.

Definition failedFiles (files : list FileData) : list FileData :=
  filter (fun f => processed f && truthy (error f)) (selectedFiles files).

Definition allFilesProcessed (files : list FileData) : bool :=
  (0 <? length (selectedFiles files))
  && forallb processed (selectedFiles files).

(** [resetProcessing] of the copy with the Reset button: every file is
    set back, selected or not, and keeps its [error]. *)
Definition resetFile (f : FileData) : FileData :=
  {| id := id f; name := name f; selected := selected f;
     processed := false; qualityMetrics := Undefined; analysis := Undefined;
     error := error f;
     ingestionStatus := ingestionStatus f;
     ingestionDetails := ingestionDetails f |}.

Definition resetProcessing (st : ProcessingCommon.state)
  : ProcessingCommon.state :=
  ProcessingCommon.setProcessedFileCount 0
    (ProcessingCommon.setError None
       (ProcessingCommon.setProgress (Num 0)
          (ProcessingCommon.setFiles (map resetFile) st))).

End FileProcessingView.

(** [SummaryView] *)
Module SummaryView.
Import JS Model.

Definition processedFiles (files : list FileData) : list FileData :=
  filter processed files.

Definition selectedFiles (files : list FileData) : list FileData :=
  filter (fun f => selected f && processed f) files.

Definition successfulIngestions (files : list FileData) : list FileData :=
  filter (fun f => strict_eq_str (js "success") (ingestionStatus f))
    (selectedFiles files).

Definition failedIngestions (files : list FileData) : list FileData :=
  filter (fun f => strict_eq_str (js "failed") (ingestionStatus f))
    (selectedFiles files).

Definition getIngestionDetailsAsArray (details : value) : list value :=
  if negb (truthy details) then []
  else match details with
       | Arr elems => elems
       | Obj _ => [details]
       | _ => []
       end.

End SummaryView.

(* ===================================================================== *)
(** ** The ingestion request answered in one piece *)
(* ===================================================================== *)

(** [handleIngestion] of the copy of [IngestionProcess] that awaits
    [response.json()].  The function that merges the results is handed to
    [setFiles] inside the [try] and runs when React renders: what it
    throws is not caught by the handler. *)
Module IngestionProcessBatchRequest.
Import JS Model.
Import IngestionProcess.

(** UTF-8 decoding of a whole body: an unfinished sequence at the end
    becomes U+FFFD. *)
Definition decodeAll (body : list Byte.byte) : jsstring :=
  let (d, text) := TextDecoder.decode TextDecoder.fresh body in
  if (TextDecoder.bytesNeeded d =? 0)%N then text else text ++ [65533%N].

Fixpoint uint_digits (d : Decimal.uint) : jsstring :=
  match d with
  | Decimal.Nil => []
  | Decimal.D0 d' => 48%N :: uint_digits d'
  | Decimal.D1 d' => 49%N :: uint_digits d'
  | Decimal.D2 d' => 50%N :: uint_digits d'
  | Decimal.D3 d' => 51%N :: uint_digits d'
  | Decimal.D4 d' => 52%N :: uint_digits d'
  | Decimal.D5 d' => 53%N :: uint_digits d'
  | Decimal.D6 d' => 54%N :: uint_digits d'
  | Decimal.D7 d' => 55%N :: uint_digits d'
  | Decimal.D8 d' => 56%N :: uint_digits d'
  | Decimal.D9 d' => 57%N :: uint_digits d'
  end.

(** The property name of index [n]. *)
Definition indexKey (n : nat) : jsstring := uint_digits (Nat.to_uint n).

Fixpoint indexed (i : nat) (l : list value) : list (jsstring * value) :=
  match l with
  | [] => []
  | v :: rest => (indexKey i, v) :: indexed (S i) rest
  end.

(** The own enumerable properties [{ ...v }] copies: the members of an
    object, the elements of an array and the code units of a string under
    their indices, nothing for the rest. *)
Definition ownProps (v : value) : list (jsstring * value) :=
  match v with
  | Obj fields => fields
  | Arr elems => indexed 0 elems
  | Str s => indexed 0 (map (fun c => Str [c]) s)
  | _ => []
  end.

(** [{ ...d, startTime: now, endTime: now }]; the object is read with
    [lookup], for which a later entry overrides an earlier one. *)
Definition stamped (now : jsstring) (d : value) : value :=
  Obj (ownProps d ++ [(js "startTime", Str now); (js "endTime", Str now)]).

Definition processIngestionDetails (now : jsstring) (details : value) : value :=
  if negb (truthy details) then Null
  else match details with
       | Arr elems => Arr (map (stamped now) elems)
       | _ => stamped now details
       end.

(** [newFiles.findIndex(p)] *)
Fixpoint findIndex (p : FileData -> bool) (l : list FileData) : option nat :=
  match l with
  | [] => None
  | f :: rest =>
      if p f then Some 0
      else match findIndex p rest with
           | Some i => Some (S i)
           | None => None
           end
  end.

(** [newFiles[i] = g(newFiles[i])] for an index within the list. *)
Fixpoint updateAt (i : nat) (g : FileData -> FileData) (l : list FileData)
  : list FileData :=
  match l, i with
  | [], _ => []
  | f :: rest, O => g f :: rest
  | f :: rest, S i' => f :: updateAt i' g rest
  end.

(** The body of [results.forEach] for one result; [now] is the clock when
    it is handled.  With no file in the list the callback of [findIndex]
    never runs, and [result.fileName] is never read. *)
Definition applyResult (now : jsstring) (result : value)
    (newFiles : list FileData) : list FileData + message :=
  match newFiles with
  | [] => inl []
  | _ :: _ =>
      match getProp result (js "fileName") with
      | None => inr TypeErrorText
      | Some fileName =>
          match findIndex (fun f => strict_eq_str (name f) fileName)
                  newFiles with
          | None => inl newFiles
          | Some fileIndex =>
              inl (updateAt fileIndex
                     (fun f =>
                        withIngestion f
                          (ProcessingCommon.prop result (js "status"))
                          (processIngestionDetails now
                             (ProcessingCommon.prop result
                                (js "ingestionDetails")))
                          (or_else (ProcessingCommon.prop result (js "error"))
                             Undefined))
                     newFiles)
          end
      end
  end.

(** [results.forEach(...)]; [clock i] is the time when result [i] is
    handled. *)
Fixpoint applyResults (clock : nat -> jsstring) (i : nat)
    (results : list value) (newFiles : list FileData)
  : list FileData + message :=
  match results with
  | [] => inl newFiles
  | result :: rest =>
      match applyResult (clock i) result newFiles with
      | inl newFiles' => applyResults clock (S i) rest newFiles'
      | inr e => inr e
      end
  end.

Definition markPending := IngestionProcess.markPending.

(** [setFiles((prevFiles) => { ... results.forEach(...) ... })]:
    [results.forEach] throws when [results] is no array, and so does the
    callback of [findIndex] for a [null] result. *)
Definition mergeResults (clock : nat -> jsstring) (results : value)
    (st : state) : state :=
  match results with
  | Arr results =>
      match applyResults clock 0 results (files st) with
      | inl newFiles => setFiles (fun _ => newFiles) st
      | inr _ => setFilesThrowing st
      end
  | _ => setFilesThrowing st
  end.

(** The [try] block: the state it ends in, or the error thrown and the
    state at the throw. *)
Definition tryBlock (clock : nat -> jsstring) (resp : response) (st : state)
  : state + message * state :=
  match resp with
  | FetchRejected e => inr (e, st)
  | NotOk _ _ body =>
      match JSON.parse body with
      | None => inr (SyntaxErrorText body, st)
      | Some errorData =>
          match getProp errorData (js "detail") with
          | None => inr (TypeErrorText, st)
          | Some detail =>
              inr (TextOf (or_else detail
                             (Str (js "Ingestion request failed"))), st)
          end
      end
  | NoBody => inr (SyntaxErrorText [], st)
  | Body chunks (Some e) => inr (e, st)
  | Body chunks None =>
      let text := decodeAll (concat chunks) in
      match JSON.parse text with
      | None => inr (SyntaxErrorText text, st)
      | Some resultData =>
          match getProp resultData (js "results") with
          | Some results => inl (mergeResults clock results st)
          | None => inr (TypeErrorText, st)
          end
      end
  end.

Definition onCatch (e : message) (st : state) : state :=
  setFiles (map IngestionProcessBatch.markFailed) (setApiError (Some e) st).

(** What [handleIngestion] does before the request is sent. *)
Definition begin (filesToProcess : list FileData) (st : state) : state :=
  setFiles (map (markPending filesToProcess))
    (setApiError None (setIsIngesting true st)).

Definition handleIngestion (clock : nat -> jsstring)
    (filesToProcess : list FileData) (resp : response) (st : state) : state :=
  match filesToProcess with
  | [] => st
  | _ :: _ =>
      let st2 :=
        match tryBlock clock resp (begin filesToProcess st) with
        | inl st' => st'
        | inr (e, st') => onCatch e st'
        end in
      setProgress (Num 100) (setIsIngesting false st2)
  end.

Definition startIngestion (clock : nat -> jsstring) (resp : response)
    (st : state) : state :=
  handleIngestion clock
    (filter (fun f => selected f && processed f) (files st)) resp
    (setProgress (Num 0) st).

Definition retryFailedIngestion (clock : nat -> jsstring) (resp : response)
    (st : state) : state :=
  handleIngestion clock
    (filter (fun f => strict_eq_str (js "failed") (ingestionStatus f))
       (files st))
    resp st.

End IngestionProcessBatchRequest.

(* ===================================================================== *)
(** ** What a pass leaves alone *)
(* ===================================================================== *)

Module Kept.
Import JS Model.

(** [g] is [f] but for the three fields the ingestion step writes. *)
Definition sameButIngestion (f g : FileData) : Prop :=
  id g = id f /\ name g = name f /\ selected g = selected f /\
  processed g = processed f /\ qualityMetrics g = qualityMetrics f /\
  analysis g = analysis f.

(** [g] is [f] but for the four fields the processing step writes, and
    is processed if [f] is. *)
Definition sameButProcessing (f g : FileData) : Prop :=
  id g = id f /\ name g = name f /\ selected g = selected f /\
  ingestionStatus g = ingestionStatus f /\
  ingestionDetails g = ingestionDetails f /\
  (processed f = true -> processed g = true).

(** The request is turned down before any chunk is read. *)
Definition refused (resp : response) : bool :=
  match resp with
  | Body _ _ => false
  | _ => true
  end.

(** The request gets no answer that can be read: it is turned down, the
    body cannot be read to its end, or the body is not the JSON text of a
    value with properties. *)
Definition unreadable (resp : response) : bool :=
  match resp with
  | Body chunks None =>
      match JSON.parse
              (IngestionProcessBatchRequest.decodeAll (concat chunks)) with
      | Some resultData => nullish resultData
      | None => true
      end
  | _ => true
  end.

(** Messages on the wire of the ingestion stream: each followed by a
    blank line. *)
Definition frames (messages : list jsstring) : jsstring :=
  concat (map (fun m => m ++ [LF; LF]) messages).

(** The blank line after [m] on the wire is the first one: [m] holds no
    blank line and does not end with a line feed. *)
Definition closedByBlankLine (m : jsstring) : Prop :=
  indexOf (m ++ [LF; LF]) [LF; LF] = Z.of_nat (length m).

(** The messages handed to the action one after the other, as long as
    none throws. *)
Fixpoint handOver {S : Type} (onMessage : jsstring -> S -> S + message * S)
    (messages : list jsstring) (st : S) : option S :=
  match messages with
  | [] => Some st
  | m :: rest =>
      match onMessage m st with
      | inl st' => handOver onMessage rest st'
      | inr _ => None
      end
  end.

(** Payloads on the wire of the processing stream: each after [data: ]
    and followed by a blank line. *)
Definition dataBlocks (payloads : list jsstring) : jsstring :=
  concat (map (fun p => js "data: " ++ p ++ [LF; LF]) payloads).

Definition noLineFeed (m : jsstring) : bool :=
  forallb (fun c => negb (c =? LF)%N) m.

(** One line of text that neither is empty nor starts or ends with white
    space. *)
Definition singleLine (p : jsstring) : bool :=
  forallb (fun c => negb (isLineTerminator c)) p
  && match p with
     | c :: _ => negb (isWhiteSpace c)
     | [] => false
     end
  && match rev p with
     | c :: _ => negb (isWhiteSpace c)
     | [] => false
     end.

(** The count and the progress of the processing step say what the file
    list says. *)
Definition consistent (sel0 : list bool) (total : nat)
    (st : ProcessingCommon.state) : Prop :=
  map selected (ProcessingCommon.files st) = sel0 /\
  ProcessingCommon.processedFileCount st
  = length (filter (fun f => selected f && processed f)
              (ProcessingCommon.files st)) /\
  ProcessingCommon.progress st
  = ProcessingCommon.percent
      (length (filter (fun f => selected f && processed f)
                 (ProcessingCommon.files st)))
      total.

(** Clicks on the Next and Previous buttons. *)
Inductive click : Type := Next | Previous.

Definition clicks (next prev : nat -> nat) (cs : list click) (step : nat)
  : nat :=
  fold_left (fun s c => match c with Next => next s | Previous => prev s end)
    cs step.

End Kept.

(* ===================================================================== *)
(** ** Facts about strings *)
(* ===================================================================== *)

Module StringFacts.
Import JS.

Lemma str_eqb_refl (a : jsstring) : str_eqb a a = true.
Proof.
  induction a as [|x a IH]; simpl; [reflexivity|].
  rewrite N.eqb_refl, IH. reflexivity.
Qed.

Lemma str_eqb_eq (a b : jsstring) : str_eqb a b = true <-> a = b.
Proof.
  split.
  - revert b. induction a as [|x a IH]; intros [|y b] H; simpl in H;
      try discriminate; [reflexivity|].
    apply andb_true_iff in H. destruct H as [Hxy Hab].
    apply N.eqb_eq in Hxy. f_equal; auto.
  - intros ->. apply str_eqb_refl.
Qed.

Lemma startsWith_app (s p c : jsstring) :
  startsWith s p = true -> startsWith (s ++ c) p = true.
Proof.
  revert s. induction p as [|x p IH]; intros s H; simpl in *; [reflexivity|].
  destruct s as [|d s]; [discriminate|]. simpl.
  apply andb_true_iff in H. destruct H as [H1 H2].
  rewrite H1. simpl. auto.
Qed.

Lemma startsWith_app_false (s p c : jsstring) :
  length p <= length s ->
  startsWith s p = false -> startsWith (s ++ c) p = false.
Proof.
  revert s. induction p as [|x p IH]; intros s Hlen H; simpl in *;
    [discriminate|].
  destruct s as [|d s]; simpl in *; [lia|].
  destruct (d =? x)%N; simpl in *; [|reflexivity].
  apply IH; [lia|assumption].
Qed.

Lemma startsWith_length (s p : jsstring) :
  startsWith s p = true -> length p <= length s.
Proof.
  revert s. induction p as [|x p IH]; intros s H; simpl in *; [lia|].
  destruct s as [|d s]; [discriminate|]. simpl.
  apply andb_true_iff in H. destruct H as [_ H]. apply IH in H. lia.
Qed.

(** What [indexOf_from] returns: [-1], or the offset of an occurrence that
    fits in the string. *)
Lemma indexOf_from_range (s needle : jsstring) (pos r : Z) :
  indexOf_from s needle pos = r -> r <> (-1)%Z -> (0 <= pos)%Z ->
  (pos <= r /\ r - pos + Z.of_nat (length needle) <= Z.of_nat (length s))%Z.
Proof.
  revert pos. induction s as [|x s IH]; intros pos H Hr Hpos; simpl in H.
  - destruct (startsWith [] needle) eqn:E; [|congruence].
    apply startsWith_length in E. simpl in *. lia.
  - destruct (startsWith (x :: s) needle) eqn:E.
    + apply startsWith_length in E. simpl in *. lia.
    + apply IH in H; [|assumption|lia]. simpl length. lia.
Qed.

(** Text appended after an occurrence does not move it. *)
Lemma indexOf_from_app (s needle c : jsstring) (pos r : Z) :
  indexOf_from s needle pos = r -> r <> (-1)%Z -> (0 <= pos)%Z ->
  indexOf_from (s ++ c) needle pos = r.
Proof.
  revert pos. induction s as [|x s IH]; intros pos H Hr Hpos.
  - simpl in H. destruct (startsWith [] needle) eqn:E; [|congruence].
    destruct needle; [|discriminate]. simpl.
    destruct c; simpl; assumption.
  - simpl in H. destruct (startsWith (x :: s) needle) eqn:E.
    + change ((x :: s) ++ c) with (x :: (s ++ c)).
      pose proof (startsWith_app (x :: s) needle c E) as E'.
      simpl app in E'. cbn [indexOf_from]. rewrite E'. assumption.
    + assert (R := indexOf_from_range s needle (pos + 1)%Z r H Hr ltac:(lia)).
      change ((x :: s) ++ c) with (x :: (s ++ c)).
      cbn [indexOf_from].
      assert (E' : startsWith (x :: (s ++ c)) needle = false).
      { change (x :: (s ++ c)) with ((x :: s) ++ c).
        apply startsWith_app_false; [simpl; lia|assumption]. }
      rewrite E'. apply IH; [assumption|assumption|lia].
Qed.

Lemma indexOf_range (s needle : jsstring) (r : Z) :
  indexOf s needle = r -> r <> (-1)%Z ->
  (0 <= r /\ r + Z.of_nat (length needle) <= Z.of_nat (length s))%Z.
Proof.
  intros H Hr. unfold indexOf in H.
  apply indexOf_from_range in H; [lia|assumption|lia].
Qed.

Lemma indexOf_app (s needle c : jsstring) (r : Z) :
  indexOf s needle = r -> r <> (-1)%Z -> indexOf (s ++ c) needle = r.
Proof.
  intros H Hr. unfold indexOf in *. apply indexOf_from_app; [assumption|assumption|lia].
Qed.

Lemma clamp_in_range (n : Z) (len : nat) :
  (0 <= n <= Z.of_nat len)%Z -> clamp n len = Z.to_nat n.
Proof. intros H. unfold clamp. f_equal. lia. Qed.

(** [substring(0, n)] and [substring(n)] within bounds are [firstn] and
    [skipn]. *)
Lemma substring_0 (s : jsstring) (n : Z) :
  (0 <= n <= Z.of_nat (length s))%Z ->
  substring s 0 n = firstn (Z.to_nat n) s.
Proof.
  intros H. unfold substring.
  rewrite (clamp_in_range n (length s) H).
  rewrite (clamp_in_range 0 (length s)) by lia.
  change (Z.to_nat 0) with 0.
  rewrite Nat.max_0_l, Nat.min_0_l, Nat.sub_0_r. reflexivity.
Qed.

Lemma substring_from_skipn (s : jsstring) (n : Z) :
  (0 <= n <= Z.of_nat (length s))%Z ->
  substring_from s n = skipn (Z.to_nat n) s.
Proof.
  intros H. unfold substring_from, substring.
  rewrite (clamp_in_range n (length s) H).
  rewrite (clamp_in_range (Z.of_nat (length s)) (length s)) by lia.
  rewrite Nat2Z.id.
  rewrite Nat.max_r, Nat.min_l by lia.
  rewrite <- (length_skipn (Z.to_nat n) s).
  apply firstn_all.
Qed.

End StringFacts.

(* ===================================================================== *)
(** ** [JSON.parse] never runs out of fuel *)
(* ===================================================================== *)

Module JsonFacts.
Import JS JSON.

Lemma skip_ws_length (s : jsstring) : length (skip_ws s) <= length s.
Proof.
  induction s as [|c s IH]; simpl; [lia|].
  destruct (isJsonWs c); simpl; lia.
Qed.

Lemma parse_string_body_bound (n : nat) :
  forall s acc str r,
    length s <= n ->
    parse_string_body s acc = Some (str, r) -> length r < length s.
Proof.
  induction n as [|n IH]; intros s acc str r Hn H;
    destruct s as [|c s]; simpl in H; try discriminate;
    simpl in Hn; [lia|].
  destruct (c =? 34)%N.
  { inversion H; subst. simpl. lia. }
  destruct (c =? 92)%N.
  - destruct s as [|e s]; [discriminate|].
    destruct (e =? 117)%N.
    + destruct s as [|h1 [|h2 [|h3 [|h4 s]]]]; try discriminate.
      destruct (hex4 h1 h2 h3 h4); [|discriminate].
      apply IH in H; simpl in *; lia.
    + destruct (escape e); [|discriminate].
      apply IH in H; simpl in *; lia.
  - destruct (c <? 32)%N; [discriminate|].
    apply IH in H; simpl in *; lia.
Qed.

Lemma parse_string_body_length (s acc str r : jsstring) :
  parse_string_body s acc = Some (str, r) -> length r < length s.
Proof. apply (parse_string_body_bound (length s)). lia. Qed.

Lemma take_digits_length (s : jsstring) :
  forall acc count a k r,
    take_digits s acc count = (a, k, r) -> length r <= length s.
Proof.
  induction s as [|c s IH]; intros acc count a k r H; simpl in H.
  - inversion H; subst. simpl. lia.
  - destruct (isDigit c).
    + apply IH in H. simpl. lia.
    + inversion H; subst. lia.
Qed.

Lemma parse_number_length (s : jsstring) (v : value) (r : jsstring) :
  parse_number s = POk v r -> length r < length s.
Proof.
  unfold parse_number.
  assert (Hs0 : forall neg s0,
             (neg, s0) = match s with
                         | c :: r' => if (c =? 45)%N then (true, r')
                                      else (false, s)
                         | [] => (false, s)
                         end -> length s0 <= length s).
  { intros neg s0 E. destruct s as [|c r']; inversion E; subst; [lia|].
    destruct (c =? 45)%N; inversion E; subst; simpl; lia. }
  destruct (match s with
            | c :: r' => if (c =? 45)%N then (true, r') else (false, s)
            | [] => (false, s)
            end) as [neg s0] eqn:E0.
  specialize (Hs0 neg s0 eq_refl).
  destruct s0 as [|d r0]; [discriminate|].
  destruct (isDigit d) eqn:Hd; simpl negb; cbv iota; [|discriminate].
  destruct (if (d =? 48)%N then (0%N, 1, r0)
            else take_digits (d :: r0) 0 0) as [[ip k0] s1] eqn:E1.
  assert (Hs1 : length s1 <= length r0).
  { destruct (d =? 48)%N.
    - inversion E1; subst. lia.
    - simpl in E1. rewrite Hd in E1.
      apply take_digits_length in E1. exact E1. }
  set (frac := match s1 with
               | c :: r1 =>
                   if (c =? 46)%N
                   then let '(m, k, s2) := take_digits r1 ip 0 in
                        match k with
                        | 0 => None
                        | Datatypes.S _ => Some (m, k, s2)
                        end
                   else Some (ip, 0, s1)
               | [] => Some (ip, 0, s1)
               end).
  assert (Hfrac : forall m k s2, frac = Some (m, k, s2) ->
                                 length s2 <= length s1).
  { intros m k s2. unfold frac. destruct s1 as [|c r1].
    - intros H; inversion H; subst. lia.
    - destruct (c =? 46)%N.
      + destruct (take_digits r1 ip 0) as [[m' k'] s2'] eqn:E2.
        apply take_digits_length in E2.
        destruct k'; [discriminate|]. intros H; inversion H; subst.
        simpl. lia.
      + intros H; inversion H; subst. lia. }
  destruct frac as [[[m k] s2]|]; [|discriminate].
  specialize (Hfrac m k s2 eq_refl).
  simpl in Hs0.
  destruct s2 as [|c r2].
  - intros H; inversion H; subst. simpl in *. lia.
  - destruct ((c =? 101) || (c =? 69))%N.
    + destruct (match r2 with
                | sg :: r' =>
                    if (sg =? 45)%N then (true, r')
                    else if (sg =? 43)%N then (false, r') else (false, r2)
                | [] => (false, r2)
                end) as [eneg r3] eqn:E3.
      assert (Hr3 : length r3 <= length r2).
      { destruct r2 as [|sg r']; [inversion E3; subst; lia|].
        destruct (sg =? 45)%N; [inversion E3; subst; simpl; lia|].
        destruct (sg =? 43)%N; inversion E3; subst; simpl; lia. }
      destruct (take_digits r3 0 0) as [[e ek] s3] eqn:E4.
      apply take_digits_length in E4.
      destruct ek; [discriminate|].
      intros H; inversion H; subst. simpl in *. lia.
    + intros H; inversion H; subst. simpl in *. lia.
Qed.

Lemma parse_number_fuel (s : jsstring) : parse_number s <> PFuel.
Proof.
  unfold parse_number.
  destruct (match s with
            | c :: r' => if (c =? 45)%N then (true, r') else (false, s)
            | [] => (false, s)
            end) as [neg s0].
  destruct s0 as [|d r0]; [discriminate|].
  destruct (negb (isDigit d)); [discriminate|].
  destruct (if (d =? 48)%N then (0%N, 1, r0)
            else take_digits (d :: r0) 0 0) as [[ip k0] s1].
  destruct (match s1 with
            | c :: r1 =>
                if (c =? 46)%N
                then let '(m, k, s2) := take_digits r1 ip 0 in
                     match k with
                     | 0 => None
                     | Datatypes.S _ => Some (m, k, s2)
                     end
                else Some (ip, 0, s1)
            | [] => Some (ip, 0, s1)
            end) as [[[m k] s2]|]; [|discriminate].
  destruct s2 as [|c r2]; [discriminate|].
  destruct ((c =? 101) || (c =? 69))%N; [|discriminate].
  destruct (match r2 with
            | sg :: r' =>
                if (sg =? 45)%N then (true, r')
                else if (sg =? 43)%N then (false, r') else (false, r2)
            | [] => (false, r2)
            end) as [eneg r3].
  destruct (take_digits r3 0 0) as [[e ek] s3].
  destruct ek; discriminate.
Qed.

Lemma parse_literal_length (s : jsstring) (v : value) (r : jsstring) :
  parse_literal s = POk v r -> length r < length s.
Proof.
  unfold parse_literal.
  destruct (startsWith s (js "true")) eqn:T.
  { apply StringFacts.startsWith_length in T.
    change (length (js "true")) with 4 in T.
    intros H. assert (E : r = skipn 4 s) by congruence.
    rewrite E, length_skipn. lia. }
  destruct (startsWith s (js "false")) eqn:F.
  { apply StringFacts.startsWith_length in F.
    change (length (js "false")) with 5 in F.
    intros H. assert (E : r = skipn 5 s) by congruence.
    rewrite E, length_skipn. lia. }
  destruct (startsWith s (js "null")) eqn:N.
  { apply StringFacts.startsWith_length in N.
    change (length (js "null")) with 4 in N.
    intros H. assert (E : r = skipn 4 s) by congruence.
    rewrite E, length_skipn. lia. }
  apply parse_number_length.
Qed.

Lemma parse_literal_fuel (s : jsstring) : parse_literal s <> PFuel.
Proof.
  unfold parse_literal.
  destruct (startsWith s (js "true")); [discriminate|].
  destruct (startsWith s (js "false")); [discriminate|].
  destruct (startsWith s (js "null")); [discriminate|].
  apply parse_number_fuel.
Qed.

(** With fuel for twice the length of the text, no parser gives up, and
    each consumes at least one code unit. *)
Lemma parsers_fuel (fuel : nat) :
  (forall s, 2 * length s + 1 <= fuel ->
     parse_value fuel s <> PFuel /\
     forall v r, parse_value fuel s = POk v r -> length r < length s) /\
  (forall s acc, 2 * length s + 2 <= fuel ->
     parse_elements fuel s acc <> PFuel /\
     forall vs r, parse_elements fuel s acc = POk vs r ->
                  length r < length s) /\
  (forall s acc, 2 * length s + 2 <= fuel ->
     parse_members fuel s acc <> PFuel /\
     forall fs r, parse_members fuel s acc = POk fs r ->
                  length r < length s).
Proof.
  induction fuel as [|fuel [IHv [IHe IHm]]].
  { repeat split; intros; lia. }
  split; [|split].
  - intros s Hf. cbn [parse_value].
    pose proof (skip_ws_length s) as Hws.
    destruct (skip_ws s) as [|c r] eqn:Es.
    { split; [discriminate|intros; discriminate]. }
    simpl in Hws.
    destruct (c =? 123)%N.
    { pose proof (skip_ws_length r) as Hws'.
      destruct (skip_ws r) as [|c' r'] eqn:Er.
      { split; [discriminate|intros; discriminate]. }
      simpl in Hws'.
      destruct (c' =? 125)%N.
      { split; [discriminate|]. intros v r0 H; inversion H; subst. lia. }
      destruct (IHm r [] ltac:(lia)) as [Hm1 Hm2].
      destruct (parse_members fuel r []) as [fs r''| |] eqn:Em.
      - split; [discriminate|]. intros v r0 H; inversion H; subst.
        specialize (Hm2 fs r0 eq_refl). lia.
      - split; [discriminate|intros; discriminate].
      - contradiction. }
    destruct (c =? 91)%N.
    { pose proof (skip_ws_length r) as Hws'.
      destruct (skip_ws r) as [|c' r'] eqn:Er.
      { split; [discriminate|intros; discriminate]. }
      simpl in Hws'.
      destruct (c' =? 93)%N.
      { split; [discriminate|]. intros v r0 H; inversion H; subst. lia. }
      destruct (IHe r [] ltac:(lia)) as [He1 He2].
      destruct (parse_elements fuel r []) as [vs r''| |] eqn:Ee.
      - split; [discriminate|]. intros v r0 H; inversion H; subst.
        specialize (He2 vs r0 eq_refl). lia.
      - split; [discriminate|intros; discriminate].
      - contradiction. }
    destruct (c =? 34)%N.
    { destruct (parse_string_body r []) as [[str r']|] eqn:Eb.
      - apply parse_string_body_length in Eb.
        split; [discriminate|]. intros v r0 H; inversion H; subst. lia.
      - split; [discriminate|intros; discriminate]. }
    split; [apply parse_literal_fuel|].
    intros v r0 H. apply parse_literal_length in H. simpl in H. lia.
  - intros s acc Hf. cbn [parse_elements].
    destruct (IHv s ltac:(lia)) as [Hv1 Hv2].
    destruct (parse_value fuel s) as [v r| |] eqn:Ev.
    + specialize (Hv2 v r eq_refl).
      pose proof (skip_ws_length r) as Hws.
      destruct (skip_ws r) as [|c r'] eqn:Er.
      { split; [discriminate|intros; discriminate]. }
      simpl in Hws.
      destruct (c =? 44)%N.
      { destruct (IHe r' (v :: acc) ltac:(lia)) as [He1 He2].
        split; [exact He1|]. intros vs r0 H. apply He2 in H. lia. }
      destruct (c =? 93)%N.
      { split; [discriminate|]. intros vs r0 H; inversion H; subst. lia. }
      split; [discriminate|intros; discriminate].
    + split; [discriminate|intros; discriminate].
    + contradiction.
  - intros s acc Hf. cbn [parse_members].
    pose proof (skip_ws_length s) as Hws.
    destruct (skip_ws s) as [|c r] eqn:Es.
    { split; [discriminate|intros; discriminate]. }
    simpl in Hws.
    destruct (c =? 34)%N; [|split; [discriminate|intros; discriminate]].
    destruct (parse_string_body r []) as [[k r1]|] eqn:Eb;
      [|split; [discriminate|intros; discriminate]].
    apply parse_string_body_length in Eb.
    pose proof (skip_ws_length r1) as Hws1.
    destruct (skip_ws r1) as [|c2 r2] eqn:Er1.
    { split; [discriminate|intros; discriminate]. }
    simpl in Hws1.
    destruct (c2 =? 58)%N; [|split; [discriminate|intros; discriminate]].
    destruct (IHv r2 ltac:(lia)) as [Hv1 Hv2].
    destruct (parse_value fuel r2) as [v r3| |] eqn:Ev.
    + specialize (Hv2 v r3 eq_refl).
      pose proof (skip_ws_length r3) as Hws3.
      destruct (skip_ws r3) as [|c3 r4] eqn:Er3.
      { split; [discriminate|intros; discriminate]. }
      simpl in Hws3.
      destruct (c3 =? 44)%N.
      { destruct (IHm r4 ((k, v) :: acc) ltac:(lia)) as [Hm1 Hm2].
        split; [exact Hm1|]. intros fs r0 H. apply Hm2 in H. lia. }
      destruct (c3 =? 125)%N.
      { split; [discriminate|]. intros fs r0 H; inversion H; subst. lia. }
      split; [discriminate|intros; discriminate].
    + split; [discriminate|intros; discriminate].
    + contradiction.
Qed.

(** [JSON.parse] answers [None] only for a text that is not JSON. *)
Lemma parse_text_total (s : jsstring) : parse_text s <> PFuel.
Proof.
  unfold parse_text.
  destruct (parsers_fuel (2 * length s + 1)) as [Hv _].
  destruct (Hv s (le_n _)) as [H _].
  destruct (parse_value (2 * length s + 1) s) as [v r| |];
    [|discriminate|contradiction].
  destruct (skip_ws r); discriminate.
Qed.

End JsonFacts.

(* ===================================================================== *)
(** ** Facts about the ingestion reader loop *)
(* ===================================================================== *)

Module IngestionLoopFacts.
Import JS Model StringFacts IngestionProcess.

Lemma decode_app (d : TextDecoder.decoder) (a b : list Byte.byte) :
  TextDecoder.decode d (a ++ b) =
  let (d1, o1) := TextDecoder.decode d a in
  let (d2, o2) := TextDecoder.decode d1 b in
  (d2, o1 ++ o2).
Proof.
  revert d. induction a as [|x a IH]; intros d; simpl.
  - destruct (TextDecoder.decode d b). reflexivity.
  - destruct (TextDecoder.step d x) as [d1 o1]. rewrite IH.
    destruct (TextDecoder.decode d1 a) as [d2 o2].
    destruct (TextDecoder.decode d2 b) as [d3 o3].
    rewrite app_assoc. reflexivity.
Qed.

Section Loop.
Variable S : Type.
Variable onMessage : jsstring -> S -> S + message * S.

Lemma drain_stop (fuel : nat) (b : jsstring) (st : S) :
  indexOf b [LF; LF] = (-1)%Z -> drain onMessage fuel b st = Normal (b, st).
Proof. intros H. destruct fuel; simpl; rewrite H; reflexivity. Qed.

Lemma drain_step (fuel : nat) (b : jsstring) (st : S) (i : Z) :
  indexOf b [LF; LF] = i -> i <> (-1)%Z ->
  drain onMessage (Datatypes.S fuel) b st =
  match onMessage (firstn (Z.to_nat i) b) st with
  | inl st' => drain onMessage fuel (skipn (Z.to_nat i + 2) b) st'
  | inr (e, st') => Throw e st'
  end.
Proof.
  intros H Hi. pose proof (indexOf_range b [LF; LF] i H Hi) as R.
  simpl length in R. cbn [drain]. rewrite H.
  destruct (Z.eqb_spec i (-1)) as [E|_]; [contradiction|].
  rewrite substring_0 by lia. rewrite substring_from_skipn by lia.
  replace (Z.to_nat (i + 2)) with (Z.to_nat i + 2) by lia.
  reflexivity.
Qed.

(** The length of the buffer is fuel enough, and more fuel changes
    nothing. *)
Lemma drain_fuel (n : nat) :
  forall fuel1 fuel2 b st,
    length b <= n -> length b <= fuel1 -> length b <= fuel2 ->
    drain onMessage fuel1 b st = drain onMessage fuel2 b st.
Proof.
  induction n as [|n IH]; intros fuel1 fuel2 b st Hn H1 H2.
  - destruct b; [|simpl in Hn; lia].
    rewrite !drain_stop by reflexivity. reflexivity.
  - destruct (Z.eq_dec (indexOf b [LF; LF]) (-1)) as [E|E].
    + rewrite !drain_stop by assumption. reflexivity.
    + pose proof (indexOf_range b [LF; LF] _ eq_refl E) as R.
      simpl length in R.
      destruct fuel1 as [|fuel1]; [lia|]. destruct fuel2 as [|fuel2]; [lia|].
      rewrite !(drain_step _ _ _ _ eq_refl E).
      destruct (onMessage _ st) as [st'|[e ste]]; [|reflexivity].
      apply IH; rewrite length_skipn; lia.
Qed.

Lemma drain_total (n : nat) :
  forall fuel b st,
    length b <= n -> length b <= fuel ->
    drain onMessage fuel b st <> OutOfFuel.
Proof.
  induction n as [|n IH]; intros fuel b st Hn H1.
  - destruct b; [|simpl in Hn; lia].
    rewrite drain_stop by reflexivity. discriminate.
  - destruct (Z.eq_dec (indexOf b [LF; LF]) (-1)) as [E|E].
    + rewrite drain_stop by assumption. discriminate.
    + pose proof (indexOf_range b [LF; LF] _ eq_refl E) as R.
      simpl length in R.
      destruct fuel as [|fuel]; [lia|].
      rewrite (drain_step _ _ _ _ eq_refl E).
      destruct (onMessage _ st) as [st'|[e ste]]; [|discriminate].
      apply IH; rewrite length_skipn; lia.
Qed.

(** What the inner loop leaves in the buffer holds no blank line. *)
Lemma drain_leftover (n : nat) :
  forall fuel b st b' st',
    length b <= n ->
    drain onMessage fuel b st = Normal (b', st') ->
    indexOf b' [LF; LF] = (-1)%Z.
Proof.
  induction n as [|n IH]; intros fuel b st b' st' Hn H.
  - destruct b; [|simpl in Hn; lia].
    rewrite drain_stop in H by reflexivity. inversion H. reflexivity.
  - destruct (Z.eq_dec (indexOf b [LF; LF]) (-1)) as [E|E].
    + rewrite drain_stop in H by assumption. inversion H; subst. assumption.
    + pose proof (indexOf_range b [LF; LF] _ eq_refl E) as R.
      simpl length in R.
      destruct fuel as [|fuel].
      * simpl in H. destruct (Z.eqb_spec (indexOf b [LF; LF]) (-1));
          [contradiction|discriminate].
      * rewrite (drain_step _ _ _ _ eq_refl E) in H.
        destruct (onMessage _ st) as [st1|[e ste]]; [|discriminate].
        apply IH in H; [assumption|rewrite length_skipn; lia].
Qed.

(** Draining [b ++ c] is draining [b] and then what is left of it
    followed by [c]. *)
Lemma drain_app (n : nat) :
  forall b c st,
    length b <= n ->
    drain onMessage (length (b ++ c)) (b ++ c) st =
    match drain onMessage (length b) b st with
    | Normal (b', st') => drain onMessage (length (b' ++ c)) (b' ++ c) st'
    | Throw e st' => Throw e st'
    | OutOfFuel => OutOfFuel
    end.
Proof.
  induction n as [|n IH]; intros b c st Hn.
  - destruct b; [|simpl in Hn; lia].
    rewrite (drain_stop _ []) by reflexivity. reflexivity.
  - destruct (Z.eq_dec (indexOf b [LF; LF]) (-1)) as [E|E].
    + rewrite (drain_stop _ b) by assumption. reflexivity.
    + pose proof (indexOf_range b [LF; LF] _ eq_refl E) as R.
      simpl length in R.
      pose proof (indexOf_app b [LF; LF] c _ eq_refl E) as Eapp.
      set (i := indexOf b [LF; LF]) in *.
      assert (Hlen : length (b ++ c) = Datatypes.S (length (b ++ c) - 1)).
      { rewrite length_app. lia. }
      assert (Hlenb : length b = Datatypes.S (length b - 1)) by lia.
      rewrite Hlen, Hlenb.
      rewrite (drain_step _ (b ++ c) st i Eapp E).
      rewrite (drain_step _ b st i eq_refl E).
      rewrite firstn_app, skipn_app.
      replace (Z.to_nat i - length b) with 0 by lia.
      replace (Z.to_nat i + 2 - length b) with 0 by lia.
      simpl firstn. simpl (skipn 0 c). rewrite app_nil_r.
      destruct (onMessage _ st) as [st'|[e ste]]; [|reflexivity].
      set (b2 := skipn (Z.to_nat i + 2) b).
      assert (Hb2 : length b2 <= n).
      { unfold b2. rewrite length_skipn. lia. }
      rewrite (drain_fuel (length (b2 ++ c)) _ (length (b2 ++ c)) (b2 ++ c))
        by (unfold b2; rewrite ?length_app, ?length_skipn; lia).
      rewrite (drain_fuel (length b2) (length b - 1) (length b2) b2)
        by (unfold b2; rewrite ?length_skipn; lia).
      apply IH. assumption.
Qed.

(** Two reads in a row are one read of the two chunks joined. *)
Lemma readLoop_join (c1 c2 : list Byte.byte) (rest : list (list Byte.byte))
    (ending : option message) (d : TextDecoder.decoder) (buffer : jsstring)
    (st : S) :
  readLoop onMessage (c1 :: c2 :: rest) ending d buffer st =
  readLoop onMessage ((c1 ++ c2) :: rest) ending d buffer st.
Proof.
  cbn [readLoop]. rewrite decode_app.
  destruct (TextDecoder.decode d c1) as [d1 t1].
  destruct (TextDecoder.decode d1 c2) as [d2 t2].
  rewrite app_assoc.
  rewrite (drain_app (length (buffer ++ t1)) (buffer ++ t1) t2 st (le_n _)).
  destruct (drain onMessage (length (buffer ++ t1)) (buffer ++ t1) st)
    as [[b' st']|e st'|]; reflexivity.
Qed.

Lemma readLoop_concat_cons (rest : list (list Byte.byte)) :
  forall c1 ending d buffer st,
    readLoop onMessage (c1 :: rest) ending d buffer st =
    readLoop onMessage [c1 ++ concat rest] ending d buffer st.
Proof.
  induction rest as [|c2 rest IH]; intros c1 ending d buffer st.
  - simpl concat. rewrite app_nil_r. reflexivity.
  - rewrite readLoop_join, IH. simpl concat. rewrite app_assoc. reflexivity.
Qed.

(** The reader loop never runs out of fuel. *)
Lemma readLoop_total (chunks : list (list Byte.byte)) :
  forall ending d buffer st,
    readLoop onMessage chunks ending d buffer st <> OutOfFuel.
Proof.
  induction chunks as [|c chunks IH]; intros ending d buffer st.
  - simpl. destruct ending; discriminate.
  - cbn [readLoop]. destruct (TextDecoder.decode d c) as [d1 t1].
    pose proof (drain_total (length (buffer ++ t1)) (length (buffer ++ t1))
                  (buffer ++ t1) st (le_n _) (le_n _)) as T.
    destruct (drain onMessage (length (buffer ++ t1)) (buffer ++ t1) st)
      as [[b' st']|e st'|]; [apply IH|discriminate|contradiction].
Qed.

(** A stream whose last read rejects ends in a throw. *)
Lemma readLoop_rejected (chunks : list (list Byte.byte)) :
  forall e d buffer st,
    exists e' st',
      readLoop onMessage chunks (Some e) d buffer st = Throw e' st'.
Proof.
  induction chunks as [|c chunks IH]; intros e d buffer st.
  - simpl. eauto.
  - cbn [readLoop]. destruct (TextDecoder.decode d c) as [d1 t1].
    pose proof (drain_total (length (buffer ++ t1)) (length (buffer ++ t1))
                  (buffer ++ t1) st (le_n _) (le_n _)) as T.
    destruct (drain onMessage (length (buffer ++ t1)) (buffer ++ t1) st)
      as [[b' st']|e1 st'|]; [apply IH|eauto|contradiction].
Qed.
End Loop.

End IngestionLoopFacts.

(* ===================================================================== *)
(** ** Facts about the processing reader loop *)
(* ===================================================================== *)

Module BlockLoopFacts.
Import JS Model StringFacts DataBlockRegex BlockReader.

Lemma lazyBody_length (s : jsstring) (n : nat) :
  lazyBody s = Some n -> n <= length s.
Proof.
  revert n. induction s as [|c s IH]; intros n H; simpl in H.
  - destruct (lookahead []); inversion H; simpl; lia.
  - destruct (lookahead (c :: s)); [inversion H; lia|].
    destruct (anyChar c); [|discriminate].
    destruct (lazyBody s) as [m|]; [|discriminate].
    inversion H. specialize (IH m eq_refl). simpl. lia.
Qed.

Lemma afterData_length (s : jsstring) (k n : nat) :
  afterData s = Some (k, n) -> k + n <= length s.
Proof.
  revert k n. induction s as [|c s IH]; intros k n H.
  - simpl in H. destruct (lazyBody []) as [m|] eqn:E; [|discriminate].
    apply lazyBody_length in E. inversion H; subst. simpl in *. lia.
  - cbn [afterData] in H.
    assert (L : forall m, lazyBody (c :: s) = Some m -> m <= length (c :: s))
      by (intros m; apply lazyBody_length).
    destruct (isWhiteSpace c).
    + destruct (afterData s) as [[k' n']|].
      * inversion H; subst. specialize (IH k' n eq_refl). simpl. lia.
      * destruct (lazyBody (c :: s)) as [m|]; [|discriminate].
        inversion H; subst. apply (L n eq_refl).
    + destruct (lazyBody (c :: s)) as [m|]; [|discriminate].
      inversion H; subst. apply (L n eq_refl).
Qed.

Lemma dataBlock_length (s cap : jsstring) (len : nat) :
  dataBlock s = Some (cap, len) -> 5 <= len <= length s.
Proof.
  unfold dataBlock. intros H.
  destruct (startsWith s (js "data:")) eqn:E; [|discriminate].
  apply startsWith_length in E. change (length (js "data:")) with 5 in E.
  destruct (afterData (skipn 5 s)) as [[k n]|] eqn:A; [|discriminate].
  apply afterData_length in A. rewrite length_skipn in A.
  inversion H; subst. lia.
Qed.

Lemma matchHere_length (atStart : bool) (s cap : jsstring) (len : nat) :
  matchHere atStart s = Some (cap, len) -> 5 <= len <= length s.
Proof.
  unfold matchHere. intros H.
  destruct (if atStart then dataBlock s else None) as [[cap0 len0]|] eqn:E.
  - destruct atStart; [|discriminate].
    inversion H; subst. apply (dataBlock_length _ _ _ E).
  - destruct s as [|c s]; [discriminate|].
    destruct (c =? LF)%N; [|discriminate].
    destruct (dataBlock s) as [[cap1 len1]|] eqn:D; [|discriminate].
    apply dataBlock_length in D. inversion H; subst. simpl. lia.
Qed.

Lemma execFrom_range (s : jsstring) :
  forall p cap e, execFrom s p = Some (cap, e) -> p + 5 <= e <= p + length s.
Proof.
  induction s as [|c s IH]; intros p cap e H; cbn [execFrom] in H.
  - destruct (matchHere (p =? 0) []) as [[cap0 len0]|] eqn:M; [|discriminate].
    apply matchHere_length in M. simpl in M. lia.
  - destruct (matchHere (p =? 0) (c :: s)) as [[cap0 len0]|] eqn:M.
    + apply matchHere_length in M. inversion H; subst. lia.
    + apply IH in H. simpl. lia.
Qed.

(** A match ends within the buffer, at least five code units after the
    index the search started from. *)
Lemma exec_range (buffer cap : jsstring) (lastIndex e : nat) :
  exec buffer lastIndex = Some (cap, e) ->
  lastIndex + 5 <= e <= length buffer.
Proof.
  unfold exec. intros H.
  destruct (Nat.ltb_spec (length buffer) lastIndex) as [L|L]; [discriminate|].
  apply execFrom_range in H. rewrite length_skipn in H. lia.
Qed.

Section Loop.
Variable S : Type.
Variable onBlock : jsstring -> S -> S.

Lemma matchLoop_total (fuel : nat) :
  forall buffer regexLastIndex lastIndex st,
    length buffer <= fuel + regexLastIndex ->
    exists lastIndex' st',
      matchLoop onBlock fuel buffer regexLastIndex lastIndex st
      = Some (lastIndex', st').
Proof.
  induction fuel as [|fuel IH]; intros buffer r l st Hf; cbn [matchLoop].
  - destruct (exec buffer r) as [[g r']|] eqn:E; [|eauto].
    apply exec_range in E. lia.
  - destruct (exec buffer r) as [[g r']|] eqn:E; [|eauto].
    apply exec_range in E. apply IH. lia.
Qed.

Lemma blockLoop_total (chunks : list (list Byte.byte)) :
  forall ending d buffer st,
    readLoop onBlock chunks ending d buffer st <> OutOfFuel.
Proof.
  induction chunks as [|c chunks IH]; intros ending d buffer st.
  - simpl. destruct ending; discriminate.
  - cbn [readLoop]. destruct (TextDecoder.decode d c) as [d1 t1].
    destruct (matchLoop_total (length (buffer ++ t1)) (buffer ++ t1) 0 0 st)
      as [l [st' E]]; [lia|].
    rewrite E. apply IH.
Qed.

Lemma blockLoop_rejected (chunks : list (list Byte.byte)) :
  forall e d buffer st,
    exists st', readLoop onBlock chunks (Some e) d buffer st = Throw e st'.
Proof.
  induction chunks as [|c chunks IH]; intros e d buffer st.
  - simpl. eauto.
  - cbn [readLoop]. destruct (TextDecoder.decode d c) as [d1 t1].
    destruct (matchLoop_total (length (buffer ++ t1)) (buffer ++ t1) 0 0 st)
      as [l [st' E]]; [lia|].
    rewrite E. apply IH.
Qed.

Lemma blockLoop_done (chunks : list (list Byte.byte)) :
  forall d buffer st,
    exists st', readLoop onBlock chunks None d buffer st = Normal st'.
Proof.
  induction chunks as [|c chunks IH]; intros d buffer st.
  - simpl. eauto.
  - cbn [readLoop]. destruct (TextDecoder.decode d c) as [d1 t1].
    destruct (matchLoop_total (length (buffer ++ t1)) (buffer ++ t1) 0 0 st)
      as [l [st' E]]; [lia|].
    rewrite E. apply IH.
Qed.
End Loop.

End BlockLoopFacts.

(* ===================================================================== *)
(** ** Frames that carry no event *)
(* ===================================================================== *)

Module FrameFacts.
Import JS Model StringFacts.

(** C9.  In the ingestion reader loop a complete frame (the text before
    the first blank line of the buffer) that does not start with
    ["data: "], space included, changes nothing: no file, not the
    progress, no error; the loop goes on with the rest of the buffer in
    the same state. *)
Theorem non_data_frame_ignored
    (fuel : nat) (buffer : jsstring) (boundary : Z)
    (st : IngestionProcess.state) :
  indexOf buffer [LF; LF] = boundary ->
  boundary <> (-1)%Z ->
  startsWith (substring buffer 0 boundary) (js "data: ") = false ->
  IngestionProcess.onMessage (substring buffer 0 boundary) st = inl st /\
  IngestionProcess.drain IngestionProcess.onMessage (S fuel) buffer st =
  IngestionProcess.drain IngestionProcess.onMessage fuel
    (substring_from buffer (boundary + 2)) st.
Proof.
  intros Hb Hne Hpre.
  assert (Hmsg : IngestionProcess.onMessage (substring buffer 0 boundary) st
                 = inl st).
  { unfold IngestionProcess.onMessage. rewrite Hpre. reflexivity. }
  split; [exact Hmsg|].
  cbn [IngestionProcess.drain]. rewrite Hb.
  destruct (Z.eqb_spec boundary (-1)) as [E|_]; [contradiction|].
  rewrite Hmsg. reflexivity.
Qed.

Lemma non_data_frame_ignored_witness :
  let buffer := js ": keep-alive" ++ [LF; LF] ++ jsq "data: {'fileId':'A'}"
                ++ [LF; LF] in
  let st := Scenario.ingestion0 [Scenario.fileA] in
  indexOf buffer [LF; LF] = 12%Z /\
  12%Z <> (-1)%Z /\
  startsWith (substring buffer 0 12) (js "data: ") = false /\
  (IngestionProcess.onMessage (substring buffer 0 12) st = inl st /\
   IngestionProcess.drain IngestionProcess.onMessage 3 buffer st =
   IngestionProcess.drain IngestionProcess.onMessage 2
     (substring_from buffer (12 + 2)) st).
Proof.
  intros buffer st.
  assert (H1 : indexOf buffer [LF; LF] = 12%Z) by reflexivity.
  assert (H2 : 12%Z <> (-1)%Z) by discriminate.
  assert (H3 : startsWith (substring buffer 0 12) (js "data: ") = false)
    by reflexivity.
  split; [exact H1|]. split; [exact H2|]. split; [exact H3|].
  exact (non_data_frame_ignored 2 buffer 12 st H1 H2 H3).
Defined.

(** An [event:] line, and [data:] with no space after the colon, are such
    frames. *)
Example other_fields_are_not_data :
  startsWith (js "event: progress") (js "data: ") = false /\
  startsWith (jsq "data:{'fileId':'A','status':'success'}") (js "data: ")
  = false.
Proof. split; reflexivity. Qed.

End FrameFacts.

(* ===================================================================== *)
(** ** The id of an event *)
(* ===================================================================== *)

Module IdFacts.
Import JS Model StringFacts.
Import ProcessingCommon.


(** C10.  The processing decoder reads the id from [fileId] unless that is
    [undefined] or [null], and from [file_id] otherwise.  When the value so
    chosen is absent, [null] or the empty string the block is dropped and
    the state stays as it was; so a [fileId] of [""] is dropped whatever
    [file_id] holds. *)
Theorem empty_id_is_missing
    (guard : FileData -> bool) (total : nat) (rawData : jsstring)
    (payload a : value) (st : state) :
  JSON.parse rawData = Some payload ->
  getProp payload (js "fileId") = Some a ->
  let chosen := if nullish a then prop payload (js "file_id") else a in
  fileIdOf payload = Some (coalesce chosen Null) /\
  (chosen = Undefined \/ chosen = Null \/ chosen = Str [] ->
   onBlock guard total rawData st = st) /\
  (a = Str [] -> onBlock guard total rawData st = st).
Proof.
  intros Hp Ha chosen.
  assert (Hid : fileIdOf payload = Some (coalesce chosen Null)).
  { unfold fileIdOf. rewrite Ha. unfold chosen, coalesce.
    destruct (nullish a); reflexivity. }
  assert (Hdrop : truthy (coalesce chosen Null) = false ->
                  onBlock guard total rawData st = st).
  { intros Hf. unfold onBlock. rewrite Hp, Hid, Hf. reflexivity. }
  split; [exact Hid|]. split.
  - intros [E|[E|E]]; apply Hdrop; rewrite E; reflexivity.
  - intros E. apply Hdrop. unfold chosen. rewrite E. reflexivity.
Qed.

Lemma empty_id_is_missing_witness :
  let rawData := jsq "{'fileId':'','file_id':'A','error':'late'}" in
  let payload :=
    Obj [(js "fileId", Str []); (js "file_id", Str (js "A"));
         (js "error", Str (js "late"))] in
  let st := Scenario.processing0 [Scenario.fileA] in
  JSON.parse rawData = Some payload /\
  getProp payload (js "fileId") = Some (Str []) /\
  (fileIdOf payload = Some (coalesce (Str []) Null) /\
   (Str [] = Undefined \/ Str [] = Null \/ Str [] = Str [] ->
    onBlock (fun _ => true) 1 rawData st = st) /\
   (Str [] = Str [] -> onBlock (fun _ => true) 1 rawData st = st)).
Proof.
  intros rawData payload st.
  assert (H1 : JSON.parse rawData = Some payload) by reflexivity.
  assert (H2 : getProp payload (js "fileId") = Some (Str [])) by reflexivity.
  split; [exact H1|]. split; [exact H2|].
  exact (empty_id_is_missing (fun _ => true) 1 rawData payload (Str []) st
           H1 H2).
Defined.




End IdFacts.

(* ===================================================================== *)
(** ** The counters of the ingestion screen *)
(* ===================================================================== *)

Module CountFacts.
Import JS Model StringFacts.
Import IngestionProcess.

Lemma filter_all {A : Type} (p : A -> bool) (l : list A) :
  Forall (fun x => p x = true) l -> filter p l = l.
Proof.
  induction 1 as [|x l Hx _ IH]; simpl; [reflexivity|].
  rewrite Hx, IH. reflexivity.
Qed.

Lemma filter_none {A : Type} (p : A -> bool) (l : list A) :
  Forall (fun x => p x = false) l -> filter p l = [].
Proof.
  induction 1 as [|x l Hx _ IH]; simpl; [reflexivity|].
  rewrite Hx, IH. reflexivity.
Qed.

(** Three tests of which no two hold of the same element split what
    passes any of them. *)
Lemma filter_three {A : Type} (p q r : A -> bool) (l : list A) :
  (forall x, p x && q x = false /\ p x && r x = false /\ q x && r x = false) ->
  length (filter p l) + length (filter q l) + length (filter r l)
  = length (filter (fun x => p x || q x || r x) l).
Proof.
  intros Hx. induction l as [|x l IH]; simpl; [reflexivity|].
  destruct (Hx x) as [H1 [H2 H3]].
  destruct (p x), (q x), (r x); simpl in *; try discriminate; lia.
Qed.

(** A status is at most one of the three strings. *)
Lemma status_exclusive (v : value) :
  strict_eq_str (js "pending") v && strict_eq_str (js "success") v = false /\
  strict_eq_str (js "pending") v && strict_eq_str (js "failed") v = false /\
  strict_eq_str (js "success") v && strict_eq_str (js "failed") v = false.
Proof.
  destruct v as [| |b|q|s|l|fs]; try (repeat split; reflexivity).
  unfold strict_eq_str.
  repeat split;
    match goal with
    | |- str_eqb ?a s && str_eqb ?b s = false =>
        destruct (str_eqb a s) eqn:Ea; [|reflexivity];
        destruct (str_eqb b s) eqn:Eb; [|reflexivity];
        apply str_eqb_eq in Ea; apply str_eqb_eq in Eb;
        rewrite <- Eb in Ea; vm_compute in Ea; discriminate
    end.
Qed.

Lemma selected_after_markPending (ftp fs : list FileData) :
  selectedFiles (map (markPending ftp) fs)
  = map (markPending ftp) (selectedFiles fs).
Proof.
  unfold selectedFiles. induction fs as [|f fs IH]; simpl; [reflexivity|].
  assert (E : selected (markPending ftp f) && processed (markPending ftp f)
              = selected f && processed f).
  { unfold markPending. destruct (existsb _ ftp); reflexivity. }
  rewrite E. destruct (selected f && processed f); simpl; rewrite IH;
    reflexivity.
Qed.

Lemma markPending_member (ftp : list FileData) (f : FileData) :
  In f ftp ->
  ingestionStatus (markPending ftp f) = Str (js "pending").
Proof.
  intros Hin. unfold markPending.
  assert (E : existsb (fun p => str_eqb (id p) (id f)) ftp = true).
  { apply existsb_exists. exists f. split; [assumption|apply str_eqb_refl]. }
  rewrite E. reflexivity.
Qed.

(** C6, as the code has it.  The three counters are disjoint: their sum is
    the number of selected files whose status is one of ["pending"],
    ["success"], ["failed"], which is at most the number of selected
    files; a file whose status was never assigned is in none of them.
    Right after a pass is started for all selected files, every one of
    them is pending and the sum is the number of selected files. *)
Theorem counters_partition_counted_files (fs : list FileData) :
  pendingCount fs + successCount fs + failedCount fs
  = length (filter Scenario.counted (selectedFiles fs)) /\
  pendingCount fs + successCount fs + failedCount fs
  <= length (selectedFiles fs) /\
  (let fs' := map (markPending (selectedFiles fs)) fs in
   pendingCount fs' = length (selectedFiles fs') /\
   successCount fs' = 0 /\ failedCount fs' = 0).
Proof.
  assert (Hsum : pendingCount fs + successCount fs + failedCount fs
                 = length (filter Scenario.counted (selectedFiles fs))).
  { unfold pendingCount, successCount, failedCount.
    apply (filter_three
             (fun f => strict_eq_str (js "pending") (ingestionStatus f))
             (fun f => strict_eq_str (js "success") (ingestionStatus f))
             (fun f => strict_eq_str (js "failed") (ingestionStatus f))).
    intros f. apply status_exclusive. }
  split; [exact Hsum|]. split.
  - rewrite Hsum. apply filter_length_le.
  - intros fs'.
    assert (Hall : Forall (fun f => ingestionStatus f = Str (js "pending"))
                     (selectedFiles fs')).
    { unfold fs'. rewrite selected_after_markPending.
      apply Forall_forall. intros x Hx. apply in_map_iff in Hx.
      destruct Hx as [f [<- Hf]]. apply markPending_member. assumption. }
    unfold pendingCount, successCount, failedCount.
    rewrite filter_all, !filter_none; [auto| | |];
      (eapply Forall_impl; [|exact Hall]); intros f Hf; simpl in Hf;
      rewrite Hf; reflexivity.
Qed.

(** C6 as stated fails: a selected file whose status was never assigned is
    in none of the three counters, before any pass and also after a pass
    whose only event reports another status. *)
Lemma unassigned_status_is_not_counted :
  let fs := [Scenario.fileA] in
  pendingCount fs + successCount fs + failedCount fs
  <> length (selectedFiles fs) /\
  exists st,
    startIngestion
      (Body [Scenario.frame "{'fileId':'A','status':'queued'}"] None)
      (Scenario.ingestion0 fs) = Some st /\
    pendingCount (files st) + successCount (files st) + failedCount (files st)
    = 0 /\
    length (selectedFiles (files st)) = 1.
Proof.
  split; [vm_compute; discriminate|].
  eexists. split; [vm_compute; reflexivity|]. split; reflexivity.
Qed.

End CountFacts.

(* ===================================================================== *)
(** ** The progress shown *)
(* ===================================================================== *)

Module ProgressFacts.
Import JS Model StringFacts.

(** C5, as the code has it.  In the streaming ingestion loop the progress
    published after an event is the event's own [progress] field.  In the
    processing loop it is computed from the file list: after a block the
    state is as before, or the progress is the share of selected files
    that are processed. *)
Theorem published_progress
    (message : jsstring) (result prog : value) (st : IngestionProcess.state)
    (guard : FileData -> bool) (total : nat) (rawData : jsstring)
    (pst : ProcessingCommon.state) :
  startsWith message (js "data: ") = true ->
  JSON.parse (substring_from message 6) = Some result ->
  getProp result (js "progress") = Some prog ->
  (exists st',
      IngestionProcess.onMessage message st = inl st' /\
      IngestionProcess.progress st' = prog) /\
  (let pst' := ProcessingCommon.onBlock guard total rawData pst in
   pst' = pst \/
   ProcessingCommon.progress pst' =
   ProcessingCommon.percent
     (length (filter (fun f => selected f && processed f)
                (ProcessingCommon.files pst')))
     total).
Proof.
  intros Hpre Hparse Hprog. split.
  - unfold IngestionProcess.onMessage. rewrite Hpre, Hparse, Hprog.
    destruct result; simpl in Hprog; try discriminate; simpl;
      eexists; split; reflexivity.
  - unfold ProcessingCommon.onBlock.
    destruct (JSON.parse rawData) as [payload|]; [|left; reflexivity].
    destruct (ProcessingCommon.fileIdOf payload) as [fileId|];
      [|left; reflexivity].
    destruct (truthy fileId); simpl; [right; reflexivity|left; reflexivity].
Qed.

Lemma published_progress_witness :
  let message := jsq "data: {'fileId':'A','status':'pending','progress':40}" in
  let result :=
    Obj [(js "fileId", Str (js "A")); (js "status", Str (js "pending"));
         (js "progress", Num 40)] in
  let st := Scenario.ingestion0 [Scenario.fileA] in
  let rawData := jsq "{'file_id':'A','progress':40}" in
  let pst := Scenario.processing0 [Scenario.fileA] in
  startsWith message (js "data: ") = true /\
  JSON.parse (substring_from message 6) = Some result /\
  getProp result (js "progress") = Some (Num 40) /\
  ((exists st',
       IngestionProcess.onMessage message st = inl st' /\
       IngestionProcess.progress st' = Num 40) /\
   (let pst' := ProcessingCommon.onBlock (fun _ => true) 1 rawData pst in
    pst' = pst \/
    ProcessingCommon.progress pst' =
    ProcessingCommon.percent
      (length (filter (fun f => selected f && processed f)
                 (ProcessingCommon.files pst')))
      1)).
Proof.
  intros message result st rawData pst.
  assert (H1 : startsWith message (js "data: ") = true) by reflexivity.
  assert (H2 : JSON.parse (substring_from message 6) = Some result)
    by reflexivity.
  assert (H3 : getProp result (js "progress") = Some (Num 40)) by reflexivity.
  split; [exact H1|]. split; [exact H2|]. split; [exact H3|].
  exact (published_progress message result (Num 40) st (fun _ => true) 1
           rawData pst H1 H2 H3).
Defined.

(** C5 as stated fails: two ingestion streams that differ only in the
    [progress] field of their event leave the same file list, with every
    tracked file successful, and publish 40 and 90. *)
Lemma ingestion_progress_follows_payload :
  let run (p : string) :=
    IngestionProcess.startIngestion
      (Body [Scenario.frame
               ("{'fileId':'A','status':'success','progress':" ++ p ++ "}")]
         None)
      (Scenario.ingestion0 [Scenario.fileA]) in
  exists s1 s2,
    run "40"%string = Some s1 /\ run "90"%string = Some s2 /\
    IngestionProcess.files s1 = IngestionProcess.files s2 /\
    IngestionProcess.successCount (IngestionProcess.files s1)
    = length (IngestionProcess.selectedFiles (IngestionProcess.files s1)) /\
    IngestionProcess.progress s1 = Num 40 /\
    IngestionProcess.progress s2 = Num 90.
Proof.
  intros run. eexists. eexists.
  split; [vm_compute; reflexivity|].
  split; [vm_compute; reflexivity|].
  repeat split.
Qed.

(** The batch screen, too, derives what it shows from the counters as soon
    as a file is selected. *)
Lemma progressValue_ignores_progress (fs : list FileData) (p1 p2 : value) :
  0 < length (IngestionProcessBatch.selectedFiles fs) ->
  IngestionProcessBatch.progressValue fs p1
  = IngestionProcessBatch.progressValue fs p2.
Proof.
  intros H. unfold IngestionProcessBatch.progressValue.
  apply Nat.ltb_lt in H. rewrite H. reflexivity.
Qed.

End ProgressFacts.

(* ===================================================================== *)
(** ** A request that fails *)
(* ===================================================================== *)

Module FailureFacts.
Import JS Model StringFacts.

Lemma markFailed_spec (f : FileData) :
  if strict_eq_str (js "pending") (ingestionStatus f)
  then ingestionStatus (IngestionProcess.markFailed f) = Str (js "failed") /\
       error (IngestionProcess.markFailed f)
       = Str (js "Connection error during ingestion.") /\
       id (IngestionProcess.markFailed f) = id f
  else IngestionProcess.markFailed f = f.
Proof.
  unfold IngestionProcess.markFailed.
  destruct (strict_eq_str (js "pending") (ingestionStatus f));
    [repeat split|reflexivity].
Qed.

Lemma markFailed_not_pending (f : FileData) :
  strict_eq_str (js "pending")
    (ingestionStatus (IngestionProcess.markFailed f)) = false.
Proof.
  unfold IngestionProcess.markFailed.
  destruct (strict_eq_str (js "pending") (ingestionStatus f)) eqn:E;
    [reflexivity|exact E].
Qed.

(** [handleIngestion], [processFiles] and both [startProcessing] always
    come to an end. *)
Lemma handleIngestion_total (filesToProcess : list FileData)
    (resp : response) (st : IngestionProcess.state) :
  exists st', IngestionProcess.handleIngestion filesToProcess resp st
              = Some st'.
Proof.
  unfold IngestionProcess.handleIngestion.
  destruct filesToProcess as [|f0 rest]; [eauto|].
  destruct (IngestionProcess.tryBlock resp _) as [st2|e st2|] eqn:E; eauto.
  exfalso. unfold IngestionProcess.tryBlock in E.
  destruct resp as [e|s1 s2 body| |chunks ending]; try discriminate.
  - destruct (JSON.parse body) as [errorData|]; [|discriminate].
    destruct (getProp errorData (js "detail")); discriminate.
  - exact (IngestionLoopFacts.readLoop_total _ _ _ _ _ _ _ E).
Qed.

Lemma stream_total (guard : FileData -> bool) (total : nat)
    (resp : response) (st : ProcessingCommon.state) :
  ProcessingCommon.stream guard total resp st <> OutOfFuel.
Proof.
  unfold ProcessingCommon.stream.
  destruct resp as [e|s1 s2 body| |chunks ending]; try discriminate.
  apply BlockLoopFacts.blockLoop_total.
Qed.

Lemma processFiles_total (selectedFiles filesToProcess : list FileData)
    (resp : response) (st : ProcessingCommon.state) :
  exists st', FileProcessing.processFiles selectedFiles filesToProcess resp st
              = Some st'.
Proof.
  unfold FileProcessing.processFiles.
  destruct filesToProcess as [|f0 rest]; [eauto|].
  pose proof (stream_total (fun _ => true) (length selectedFiles) resp
                (ProcessingCommon.setError None
                   (ProcessingCommon.setIsProcessing true st))) as T.
  destruct (ProcessingCommon.stream _ _ resp _) as [st2|e st2|];
    [eauto|eauto|contradiction].
Qed.

Lemma issued_total (total : nat) (resp : response) :
  FileProcessingReset.issued total resp <> OutOfFuel.
Proof.
  unfold FileProcessingReset.issued.
  destruct resp as [e|s1 s2 body| |chunks ending]; try discriminate.
  apply BlockLoopFacts.blockLoop_total.
Qed.

Lemma startProcessing_total (rendered : nat) (resp : response)
    (st : ProcessingCommon.state) :
  exists st', FileProcessingReset.startProcessing rendered resp st = Some st'.
Proof.
  unfold FileProcessingReset.startProcessing.
  match goal with
  | |- context [FileProcessingReset.issued ?n resp] =>
      pose proof (issued_total n resp) as T;
      destruct (FileProcessingReset.issued n resp) as [queue|e queue|]
  end; [eauto|eauto|contradiction].
Qed.

(** C4, as the code has it.  When a read of the ingestion stream rejects,
    [handleIngestion] ends in its [catch] block: one error is kept in
    [apiError], and the file list is the list as it stood at the failure
    with every file whose status is ["pending"] set to ["failed"] with the
    message "Connection error during ingestion." and every other file as
    it was; whether a file was submitted in this pass plays no part.  In
    [processFiles] a rejected read only sets the error: the file list
    stays as it stood at the failure. *)
Theorem transport_error_marks_pending
    (filesToProcess : list FileData) (chunks : list (list Byte.byte))
    (e : message) (st : IngestionProcess.state)
    (selectedFiles toProcess : list FileData) (pst : ProcessingCommon.state) :
  filesToProcess <> [] ->
  toProcess <> [] ->
  (exists e' st2 st',
      IngestionProcess.tryBlock (Body chunks (Some e))
        (IngestionProcess.begin filesToProcess st) = Throw e' st2 /\
      IngestionProcess.handleIngestion filesToProcess
        (Body chunks (Some e)) st = Some st' /\
      IngestionProcess.apiError st' = Some e' /\
      IngestionProcess.isIngesting st' = false /\
      IngestionProcess.files st'
      = map IngestionProcess.markFailed (IngestionProcess.files st2) /\
      Forall (fun f => strict_eq_str (js "pending") (ingestionStatus f)
                       = false)
        (IngestionProcess.files st') /\
      forall f,
        if strict_eq_str (js "pending") (ingestionStatus f)
        then ingestionStatus (IngestionProcess.markFailed f)
             = Str (js "failed") /\
             error (IngestionProcess.markFailed f)
             = Str (js "Connection error during ingestion.") /\
             id (IngestionProcess.markFailed f) = id f
        else IngestionProcess.markFailed f = f) /\
  (exists pst2 pst',
      ProcessingCommon.stream (fun _ => true) (length selectedFiles)
        (Body chunks (Some e))
        (ProcessingCommon.setError None
           (ProcessingCommon.setIsProcessing true pst)) = Throw e pst2 /\
      FileProcessing.processFiles selectedFiles toProcess
        (Body chunks (Some e)) pst = Some pst' /\
      ProcessingCommon.error pst'
      = Some (ProcessingCommon.messageOrDefault e) /\
      ProcessingCommon.files pst' = ProcessingCommon.files pst2).
Proof.
  intros Hne Hne'. split.
  - destruct (IngestionLoopFacts.readLoop_rejected _ IngestionProcess.onMessage
                chunks e TextDecoder.fresh []
                (IngestionProcess.begin filesToProcess st)) as [e' [st2 H]].
    exists e', st2. eexists.
    split; [exact H|]. split.
    + unfold IngestionProcess.handleIngestion.
      destruct filesToProcess as [|f0 rest]; [contradiction|].
      change (IngestionProcess.tryBlock (Body chunks (Some e))
                (IngestionProcess.begin (f0 :: rest) st))
        with (IngestionProcess.readLoop IngestionProcess.onMessage chunks
                (Some e) TextDecoder.fresh []
                (IngestionProcess.begin (f0 :: rest) st)).
      rewrite H. reflexivity.
    + split; [reflexivity|]. split; [reflexivity|].
      split; [reflexivity|]. split; [|apply markFailed_spec].
      simpl. apply Forall_forall. intros x Hx.
      apply in_map_iff in Hx. destruct Hx as [f [<- _]].
      apply markFailed_not_pending.
  - destruct (BlockLoopFacts.blockLoop_rejected _
                (ProcessingCommon.onBlock (fun _ => true)
                   (length selectedFiles))
                chunks e TextDecoder.fresh []
                (ProcessingCommon.setError None
                   (ProcessingCommon.setIsProcessing true pst)))
      as [pst2 H].
    exists pst2. eexists. split; [exact H|]. split.
    + unfold FileProcessing.processFiles.
      destruct toProcess as [|f0 rest]; [contradiction|].
      change (ProcessingCommon.stream (fun _ : FileData => true)
                (length selectedFiles) (Body chunks (Some e))
                (ProcessingCommon.setError None
                   (ProcessingCommon.setIsProcessing true pst)))
        with (BlockReader.readLoop
                (ProcessingCommon.onBlock (fun _ => true)
                   (length selectedFiles))
                chunks (Some e) TextDecoder.fresh []
                (ProcessingCommon.setError None
                   (ProcessingCommon.setIsProcessing true pst))).
      rewrite H. reflexivity.
    + split; reflexivity.
Qed.

Lemma transport_error_marks_pending_witness :
  let fs := [Scenario.fileA; Scenario.fileB] in
  let chunks := [Scenario.frame "{'fileId':'A','status':'success'}"] in
  let e := Text (js "network error") in
  let st := Scenario.ingestion0 fs in
  let pst := Scenario.processing0 fs in
  fs <> [] /\ fs <> [] /\
  ((exists e' st2 st',
       IngestionProcess.tryBlock (Body chunks (Some e))
         (IngestionProcess.begin fs st) = Throw e' st2 /\
       IngestionProcess.handleIngestion fs (Body chunks (Some e)) st
       = Some st' /\
       IngestionProcess.apiError st' = Some e' /\
       IngestionProcess.isIngesting st' = false /\
       IngestionProcess.files st'
       = map IngestionProcess.markFailed (IngestionProcess.files st2) /\
       Forall (fun f => strict_eq_str (js "pending") (ingestionStatus f)
                        = false)
         (IngestionProcess.files st') /\
       forall f,
         if strict_eq_str (js "pending") (ingestionStatus f)
         then ingestionStatus (IngestionProcess.markFailed f)
              = Str (js "failed") /\
              error (IngestionProcess.markFailed f)
              = Str (js "Connection error during ingestion.") /\
              id (IngestionProcess.markFailed f) = id f
         else IngestionProcess.markFailed f = f) /\
   (exists pst2 pst',
       ProcessingCommon.stream (fun _ => true) (length fs)
         (Body chunks (Some e))
         (ProcessingCommon.setError None
            (ProcessingCommon.setIsProcessing true pst)) = Throw e pst2 /\
       FileProcessing.processFiles fs fs (Body chunks (Some e)) pst
       = Some pst' /\
       ProcessingCommon.error pst'
       = Some (ProcessingCommon.messageOrDefault e) /\
       ProcessingCommon.files pst' = ProcessingCommon.files pst2)).
Proof.
  intros fs chunks e st pst.
  assert (H : fs <> []) by discriminate.
  split; [exact H|]. split; [exact H|].
  exact (transport_error_marks_pending fs chunks e st fs fs pst H H).
Defined.

(** C4 as stated fails.  A first pass over A and B ends normally after
    reporting only that A failed, so B stays pending.  The retry pass is
    for A alone; its connection fails at once, and B, which is not part of
    that pass, is set to failed with the connection message. *)
Lemma untracked_pending_file_is_failed :
  exists s1 s2,
    IngestionProcess.startIngestion
      (Body [Scenario.frame "{'fileId':'A','status':'failed','error':'bad'}"]
         None)
      (Scenario.ingestion0 [Scenario.fileA; Scenario.fileB]) = Some s1 /\
    Scenario.statuses (IngestionProcess.files s1)
    = [Str (js "failed"); Str (js "pending")] /\
    map id (filter (fun f => strict_eq_str (js "failed") (ingestionStatus f))
              (IngestionProcess.files s1)) = [js "A"] /\
    IngestionProcess.retryFailedIngestion
      (Body [] (Some (Text (js "network error")))) s1 = Some s2 /\
    Scenario.statuses (IngestionProcess.files s2)
    = [Str (js "failed"); Str (js "failed")] /\
    map error (IngestionProcess.files s2)
    = [Str (js "Connection error during ingestion.");
       Str (js "Connection error during ingestion.")].
Proof.
  eexists. eexists.
  split; [vm_compute; reflexivity|].
  split; [reflexivity|]. split; [reflexivity|].
  split; [vm_compute; reflexivity|].
  split; reflexivity.
Qed.

End FailureFacts.

(* ===================================================================== *)
(** ** Events for a file that is already done *)
(* ===================================================================== *)

Module MergeFacts.
Import JS Model StringFacts.

Lemma applyPayload_idempotent (guard : FileData -> bool)
    (fileId payload analysis : value) (f : FileData) :
  ProcessingCommon.applyPayload guard fileId payload analysis
    (ProcessingCommon.applyPayload guard fileId payload analysis f)
  = ProcessingCommon.applyPayload guard fileId payload analysis f.
Proof.
  unfold ProcessingCommon.applyPayload.
  destruct (strict_eq_str (id f) fileId && guard f) eqn:E.
  - match goal with |- (if ?c then _ else _) = _ => destruct c end;
      reflexivity.
  - rewrite E. reflexivity.
Qed.

Lemma applyEvent_idempotent (fileId status details err : value)
    (f : FileData) :
  IngestionProcess.applyEvent fileId status details err
    (IngestionProcess.applyEvent fileId status details err f)
  = IngestionProcess.applyEvent fileId status details err f.
Proof.
  unfold IngestionProcess.applyEvent.
  destruct (strict_eq_str (id f) fileId) eqn:E.
  - simpl. rewrite E. reflexivity.
  - rewrite E. reflexivity.
Qed.

Lemma map_idempotent {A : Type} (g : A -> A) (l : list A) :
  (forall x, g (g x) = g x) -> map g (map g l) = map g l.
Proof.
  intros H. rewrite map_map. apply map_ext. exact H.
Qed.

Lemma onBlock_idempotent (guard : FileData -> bool) (total : nat)
    (rawData : jsstring) (st : ProcessingCommon.state) :
  ProcessingCommon.onBlock guard total rawData
    (ProcessingCommon.onBlock guard total rawData st)
  = ProcessingCommon.onBlock guard total rawData st.
Proof.
  unfold ProcessingCommon.onBlock.
  destruct (JSON.parse rawData) as [payload|]; [|reflexivity].
  destruct (ProcessingCommon.fileIdOf payload) as [fileId|]; [|reflexivity].
  destruct (truthy fileId); simpl; [|reflexivity].
  unfold ProcessingCommon.setFiles, ProcessingCommon.setProgress,
    ProcessingCommon.setProcessedFileCount. simpl.
  rewrite (map_idempotent _ _
             (applyPayload_idempotent guard fileId payload
                (ProcessingCommon.analysisOf payload))).
  reflexivity.
Qed.

Lemma onMessage_idempotent (message : jsstring)
    (st st1 : IngestionProcess.state) :
  IngestionProcess.onMessage message st = inl st1 ->
  IngestionProcess.onMessage message st1 = inl st1.
Proof.
  unfold IngestionProcess.onMessage.
  destruct (startsWith message (js "data: ")); [|intros H; inversion H;
                                                  reflexivity].
  destruct (JSON.parse _) as [result|]; [|discriminate].
  destruct (getProp result (js "fileId")) as [fileId|]; [|discriminate].
  destruct (getProp result (js "status")) as [status|]; [|discriminate].
  destruct (getProp result (js "ingestionDetails")) as [details|];
    [|discriminate].
  destruct (getProp result (js "error")) as [err|]; [|discriminate].
  destruct (getProp result (js "progress")) as [prog|]; [|discriminate].
  intros H. inversion H. subst st1. clear H.
  unfold IngestionProcess.setProgress, IngestionProcess.setFiles. simpl.
  rewrite (map_idempotent _ _
             (applyEvent_idempotent fileId status details err)).
  reflexivity.
Qed.

(** C3, as the code has it.  In the copy of the processing step that
    guards its merge with [!f.processed], a file already processed is left
    exactly as it is by any further block.  The ingestion merge has no
    such guard and applies every event for a known id; neither merge
    reports a result.  In both components, handling the same event a
    second time gives the state the first handling gave. *)
Theorem processed_file_is_kept
    (total : nat) (rawData : jsstring) (st : ProcessingCommon.state)
    (n : nat) (f : FileData) (guard : FileData -> bool)
    (message : jsstring) (ist ist1 : IngestionProcess.state) :
  nth_error (ProcessingCommon.files st) n = Some f ->
  processed f = true ->
  IngestionProcess.onMessage message ist = inl ist1 ->
  nth_error
    (ProcessingCommon.files
       (ProcessingCommon.onBlock (fun f => negb (processed f)) total
          rawData st)) n = Some f /\
  ProcessingCommon.onBlock guard total rawData
    (ProcessingCommon.onBlock guard total rawData st)
  = ProcessingCommon.onBlock guard total rawData st /\
  IngestionProcess.onMessage message ist1 = inl ist1.
Proof.
  intros Hn Hp Hm. split; [|split].
  - unfold ProcessingCommon.onBlock.
    destruct (JSON.parse rawData) as [payload|]; [|exact Hn].
    destruct (ProcessingCommon.fileIdOf payload) as [fileId|]; [|exact Hn].
    destruct (truthy fileId); simpl; [|exact Hn].
    rewrite nth_error_map, Hn. simpl.
    unfold ProcessingCommon.applyPayload. rewrite Hp.
    rewrite andb_false_r. reflexivity.
  - apply onBlock_idempotent.
  - exact (onMessage_idempotent message ist ist1 Hm).
Qed.

Lemma processed_file_is_kept_witness :
  let done :=
    {| id := js "A"; name := js "A.pdf"; selected := true; processed := true;
       qualityMetrics := Undefined; analysis := Str (js "first");
       error := Undefined; ingestionStatus := Undefined;
       ingestionDetails := Undefined |} in
  let st := Scenario.processing0 [done] in
  let rawData := jsq "{'file_id':'A','error':'late'}" in
  let message := jsq "data: {'fileId':'A','status':'failed'}" in
  let ist := Scenario.ingestion0 [Scenario.fileA] in
  let ist1 :=
    IngestionProcess.setProgress Undefined
      (IngestionProcess.setFiles
         (map (IngestionProcess.applyEvent (Str (js "A")) (Str (js "failed"))
                 Undefined Undefined))
         ist) in
  nth_error (ProcessingCommon.files st) 0 = Some done /\
  processed done = true /\
  IngestionProcess.onMessage message ist = inl ist1 /\
  (nth_error
     (ProcessingCommon.files
        (ProcessingCommon.onBlock (fun f => negb (processed f)) 1
           rawData st)) 0 = Some done /\
   ProcessingCommon.onBlock (fun _ => true) 1 rawData
     (ProcessingCommon.onBlock (fun _ => true) 1 rawData st)
   = ProcessingCommon.onBlock (fun _ => true) 1 rawData st /\
   IngestionProcess.onMessage message ist1 = inl ist1).
Proof.
  intros done st rawData message ist ist1.
  assert (H1 : nth_error (ProcessingCommon.files st) 0 = Some done)
    by reflexivity.
  assert (H2 : processed done = true) by reflexivity.
  assert (H3 : IngestionProcess.onMessage message ist = inl ist1)
    by reflexivity.
  split; [exact H1|]. split; [exact H2|]. split; [exact H3|].
  exact (processed_file_is_kept 1 rawData st 0 done (fun _ => true)
           message ist ist1 H1 H2 H3).
Defined.

(** C3 as stated fails.  In the ingestion stream, a file reported
    successful and then reported failed ends up failed, with the error of
    the second event; in the processing step of
    [frontend/components/file-processing.tsx] a second event for a
    processed file replaces what the first one stored. *)
Lemma later_event_overwrites_terminal_status :
  (exists st,
      IngestionProcess.startIngestion
        (Body [Scenario.frame "{'fileId':'A','status':'success'}";
               Scenario.frame "{'fileId':'A','status':'failed','error':'late'}"]
           None)
        (Scenario.ingestion0 [Scenario.fileA]) = Some st /\
      Scenario.statuses (IngestionProcess.files st) = [Str (js "failed")] /\
      map error (IngestionProcess.files st) = [Str (js "late")]) /\
  (exists pst,
      FileProcessing.startProcessing
        (Body [Scenario.frame "{'file_id':'A'}";
               Scenario.frame "{'file_id':'A','error':'late'}"]
           None)
        (Scenario.processing0 [Scenario.fileA]) = Some pst /\
      map error (ProcessingCommon.files pst) = [Str (js "late")]).
Proof.
  split; eexists; (split; [vm_compute; reflexivity|]);
    repeat split.
Qed.

End MergeFacts.

(* ===================================================================== *)
(** ** Frames split across reads *)
(* ===================================================================== *)

Module ChunkFacts.
Import JS Model StringFacts.

(** The ingestion reader loops over [indexOf("\n\n")] and keeps what
    follows the last blank line: however the bytes of the stream are cut
    into reads, the messages handled, in order, and the final state are
    those of a single read of the whole. *)
Theorem ingestion_chunks_do_not_matter
    (S : Type) (onMessage : jsstring -> S -> S + message * S)
    (chunks : list (list Byte.byte)) (ending : option message)
    (d : TextDecoder.decoder) (st : S) :
  IngestionProcess.readLoop onMessage chunks ending d [] st =
  IngestionProcess.readLoop onMessage [concat chunks] ending d [] st.
Proof.
  destruct chunks as [|c rest].
  - reflexivity.
  - apply IngestionLoopFacts.readLoop_concat_cons.
Qed.

(** The list of messages the ingestion loop hands over, in order. *)
Corollary ingestion_frames_do_not_depend_on_chunks
    (chunks1 chunks2 : list (list Byte.byte)) :
  concat chunks1 = concat chunks2 ->
  IngestionProcess.readLoop (fun m seen => inl (seen ++ [m]))
    chunks1 None TextDecoder.fresh [] ([] : list jsstring) =
  IngestionProcess.readLoop (fun m seen => inl (seen ++ [m]))
    chunks2 None TextDecoder.fresh [] [].
Proof.
  intros H.
  rewrite (ingestion_chunks_do_not_matter _ _ chunks1).
  rewrite (ingestion_chunks_do_not_matter _ _ chunks2).
  rewrite H. reflexivity.
Qed.

(** C1, where the code departs from it.  The processing step extracts
    frames with a regular expression whose lookahead also accepts the end
    of the buffer.  Read whole, the stream below yields the payloads of A
    and of B.  Cut inside B's payload, the first read already yields the
    opening part of B's payload as a block and drops it from the buffer;
    the second read finds no [data:] and yields nothing.  With
    [processFiles], B is then never marked processed and the progress
    stops at 50. *)
Theorem split_frame_is_emitted_early :
  let part1 :=
    Scenario.frame "{'file_id':'A','status':'success'}"
    ++ bytesq "data: {'file_id':'B','status':'fail" in
  let part2 := bytesq "ed','error':'timeout'}" ++ [Byte.x0a; Byte.x0a] in
  let blocks chunks :=
    BlockReader.readLoop (fun rawData seen => seen ++ [rawData])
      chunks None TextDecoder.fresh [] ([] : list jsstring) in
  let run chunks :=
    FileProcessing.startProcessing (Body chunks None)
      (Scenario.processing0 [Scenario.fileA; Scenario.fileB]) in
  blocks [part1 ++ part2]
  = Normal [jsq "{'file_id':'A','status':'success'}";
            jsq "{'file_id':'B','status':'failed','error':'timeout'}"] /\
  blocks [part1; part2]
  = Normal [jsq "{'file_id':'A','status':'success'}";
            jsq "{'file_id':'B','status':'fail"] /\
  exists whole split,
    run [part1 ++ part2] = Some whole /\
    run [part1; part2] = Some split /\
    map processed (ProcessingCommon.files whole) = [true; true] /\
    ProcessingCommon.progress whole = Num 100 /\
    map processed (ProcessingCommon.files split) = [true; false] /\
    ProcessingCommon.progress split = Num 50.
Proof.
  intros part1 part2 blocks run.
  split; [vm_compute; reflexivity|].
  split; [vm_compute; reflexivity|].
  eexists. eexists.
  split; [vm_compute; reflexivity|].
  split; [vm_compute; reflexivity|].
  repeat split.
Qed.

End ChunkFacts.

(* ===================================================================== *)
(** ** Frames that cannot be decoded *)
(* ===================================================================== *)

Module DecodeFacts.
Import JS Model StringFacts.

(** In the processing step a block that does not parse, or whose payload
    is [null], is skipped: the state stays as it was. *)
Lemma processing_skips_undecodable_block
    (guard : FileData -> bool) (total : nat) (rawData : jsstring)
    (st : ProcessingCommon.state) :
  JSON.parse rawData = None \/ JSON.parse rawData = Some Null ->
  ProcessingCommon.onBlock guard total rawData st = st.
Proof.
  unfold ProcessingCommon.onBlock. intros [H|H]; rewrite H; reflexivity.
Qed.

(** C2, where the code departs from it.  The ingestion loop parses the
    payload with nothing around it to catch a failure: the [SyntaxError]
    of a malformed frame reaches the [catch] block of the whole request.
    The stream is abandoned, the frame after it is never read, the error
    is shown as the request's error and the files still pending are
    marked failed with the connection message.  The processing step, fed
    the same shape of stream, skips the frame and handles the next. *)
Theorem malformed_frame_aborts_ingestion :
  (exists st,
      IngestionProcess.startIngestion
        (Body [Scenario.frame "{oops";
               Scenario.frame "{'fileId':'A','status':'success'}"]
           None)
        (Scenario.ingestion0 [Scenario.fileA]) = Some st /\
      IngestionProcess.apiError st = Some (SyntaxErrorText (js "{oops")) /\
      Scenario.statuses (IngestionProcess.files st) = [Str (js "failed")] /\
      map error (IngestionProcess.files st)
      = [Str (js "Connection error during ingestion.")]) /\
  (exists pst,
      FileProcessing.startProcessing
        (Body [Scenario.frame "{oops"; Scenario.frame "{'file_id':'A'}"] None)
        (Scenario.processing0 [Scenario.fileA]) = Some pst /\
      ProcessingCommon.error pst = None /\
      map processed (ProcessingCommon.files pst) = [true]).
Proof.
  split; eexists; (split; [vm_compute; reflexivity|]); repeat split.
Qed.

End DecodeFacts.

(* ===================================================================== *)
(** ** The percentage *)
(* ===================================================================== *)

Module PercentFacts.
Import JS Model StringFacts.
Import ProcessingCommon.

Lemma percent_zero (n : nat) : percent 0 n = Num 0.
Proof.
  unfold percent. simpl Z.of_nat.
  destruct (Z.of_nat (Nat.max 1 n)) as [|p|p]; reflexivity.
Qed.

(** What [processFiles] publishes is between 0 and 100 as long as no more
    files are counted than were selected, is 100 when all are, and is 0
    when none is selected. *)
Lemma percent_range (k n : nat) :
  k <= n ->
  exists q, percent k n = Num q /\ (0 <= q)%Q /\ (q <= 100)%Q /\
            (k = n -> 0 < n -> (q == 100)%Q) /\ (n = 0 -> (q == 0)%Q).
Proof.
  intros Hk. unfold percent. eexists. split; [reflexivity|].
  set (m := Nat.max 1 n).
  assert (Hm : (0 < Z.of_nat m)%Z) by (unfold m; lia).
  assert (Hkm : (Z.of_nat k <= Z.of_nat m)%Z) by (unfold m; lia).
  assert (Hpos : (0 < inject_Z (Z.of_nat m))%Q).
  { change 0%Q with (inject_Z 0). rewrite <- Zlt_Qlt. exact Hm. }
  assert (Hne : ~ (inject_Z (Z.of_nat m) == 0)%Q).
  { intros E. rewrite E in Hpos. apply (Qlt_irrefl 0). exact Hpos. }
  rewrite Qred_correct.
  assert (H0 : (0 <= inject_Z (Z.of_nat k) / inject_Z (Z.of_nat m))%Q).
  { apply Qle_shift_div_l; [exact Hpos|].
    rewrite Qmult_0_l. change 0%Q with (inject_Z 0). rewrite <- Zle_Qle. lia. }
  assert (H1 : (inject_Z (Z.of_nat k) / inject_Z (Z.of_nat m) <= 1)%Q).
  { apply Qle_shift_div_r; [exact Hpos|].
    rewrite Qmult_1_l. rewrite <- Zle_Qle. exact Hkm. }
  repeat split.
  - apply Qmult_le_0_compat; [exact H0|discriminate].
  - setoid_replace 100%Q with (1 * 100)%Q by reflexivity.
    apply Qmult_le_compat_r; [exact H1|discriminate].
  - intros E Hn. subst k. replace m with n by (unfold m; lia).
    replace m with n in Hne by (unfold m; lia).
    field. exact Hne.
  - intros E. subst n. assert (k = 0) by lia. subst k. reflexivity.
Qed.

(** C8, where the code departs from it.  The copy of the processing step
    with the Reset button computes the progress it sets after the loop
    from a local counter, [processedCount], that is set to 0 and never
    incremented.  So whenever files are selected and the stream ends
    normally, the value set at the end of the stream is 0, never 100,
    whatever was processed; and 0 is the progress the pass ends with
    when React has run every function handed to [setFiles] by then. *)
Theorem final_progress_is_zero
    (rendered : nat) (chunks : list (list Byte.byte)) (st : state) :
  filter selected (files st) <> [] ->
  FileProcessingReset.finalProgress (filter selected (files st)) = Num 0 /\
  exists queue st',
    FileProcessingReset.issued (length (filter selected (files st)))
      (Body chunks None) = Normal queue /\
    FileProcessingReset.startProcessing rendered (Body chunks None) st
    = Some st' /\
    (length queue <= rendered -> progress st' = Num 0).
Proof.
  intros Hsel.
  assert (Hfinal : FileProcessingReset.finalProgress
                     (filter selected (files st)) = Num 0).
  { unfold FileProcessingReset.finalProgress.
    destruct (filter selected (files st)) as [|f fs]; [contradiction|].
    simpl Nat.eqb. cbv iota. apply percent_zero. }
  split; [exact Hfinal|].
  unfold FileProcessingReset.startProcessing.
  set (n := length (filter selected (files st))).
  destruct (BlockLoopFacts.blockLoop_done _ (FileProcessingReset.enqueue n)
              chunks TextDecoder.fresh [] []) as [queue H].
  exists queue. eexists.
  split; [exact H|].
  change (FileProcessingReset.issued n (Body chunks None))
    with (BlockReader.readLoop (FileProcessingReset.enqueue n) chunks None
            TextDecoder.fresh [] []).
  rewrite H. split; [reflexivity|].
  intros Hall. rewrite skipn_all2 by exact Hall.
  unfold FileProcessingReset.run at 1. simpl. exact Hfinal.
Qed.

Lemma final_progress_is_zero_witness :
  let chunks := [Scenario.frame "{'file_id':'A'}";
                 Scenario.frame "{'file_id':'B','error':'timeout'}"] in
  let st := Scenario.processing0 [Scenario.fileA; Scenario.fileB] in
  filter selected (files st) <> [] /\
  (FileProcessingReset.finalProgress (filter selected (files st)) = Num 0 /\
   exists queue st',
     FileProcessingReset.issued (length (filter selected (files st)))
       (Body chunks None) = Normal queue /\
     FileProcessingReset.startProcessing 2 (Body chunks None) st
     = Some st' /\
     (length queue <= 2 -> progress st' = Num 0)).
Proof.
  intros chunks st.
  assert (H : filter selected (files st) <> []) by discriminate.
  split; [exact H|].
  exact (final_progress_is_zero 2 chunks st H).
Defined.

(** In that run both selected files are processed.  When React has run
    the two merges before the stream ends, the pass ends with the
    progress at 0; when it runs them after the handler has returned, the
    0 is set first and the pass ends with the 100 of the last merge. *)
Example final_progress_run :
  let resp :=
    Body [Scenario.frame "{'file_id':'A'}";
          Scenario.frame "{'file_id':'B','error':'timeout'}"] None in
  let st := Scenario.processing0 [Scenario.fileA; Scenario.fileB] in
  exists early late,
    FileProcessingReset.startProcessing 2 resp st = Some early /\
    map processed (files early) = [true; true] /\
    processedFileCount early = 2 /\
    progress early = Num 0 /\
    FileProcessingReset.startProcessing 0 resp st = Some late /\
    map processed (files late) = [true; true] /\
    processedFileCount late = 2 /\
    progress late = Num 100.
Proof.
  intros resp st. eexists. eexists.
  split; [vm_compute; reflexivity|].
  split; [reflexivity|]. split; [reflexivity|]. split; [reflexivity|].
  split; [vm_compute; reflexivity|].
  repeat split.
Qed.

End PercentFacts.

(* ===================================================================== *)
(** ** Whole frames on the wire *)
(* ===================================================================== *)

Module WireFacts.
Import JS Model StringFacts Kept.

Lemma indexOf_from_frame (m rest : jsstring) :
  forall pos,
    noLineFeed m = true ->
    indexOf_from (m ++ LF :: LF :: rest) [LF; LF] pos
    = (pos + Z.of_nat (length m))%Z.
Proof.
  induction m as [|c m IH]; intros pos H.
  - simpl. lia.
  - simpl in H. apply andb_true_iff in H. destruct H as [Hc Hm].
    apply negb_true_iff in Hc.
    change ((c :: m) ++ LF :: LF :: rest) with (c :: (m ++ LF :: LF :: rest)).
    cbn [indexOf_from startsWith]. rewrite Hc. cbn [andb].
    rewrite IH by assumption. simpl length. lia.
Qed.

Lemma indexOf_frame (m rest : jsstring) :
  noLineFeed m = true ->
  indexOf (m ++ LF :: LF :: rest) [LF; LF] = Z.of_nat (length m).
Proof.
  intros H. unfold indexOf. rewrite indexOf_from_frame by assumption. lia.
Qed.

Lemma frames_cons (m : jsstring) (ms : list jsstring) (tail : jsstring) :
  frames (m :: ms) ++ tail = m ++ LF :: LF :: (frames ms ++ tail).
Proof.
  unfold frames. simpl. rewrite <- !app_assoc. reflexivity.
Qed.

(** X1.  Messages without a line feed, each followed by a blank line, and
    then a tail that holds no blank line: the inner loop of the ingestion
    reader hands over exactly these messages, in order, and keeps the
    tail for the next read. *)
Theorem drain_reads_back_frames
    (ms : list jsstring) (tail : jsstring) (seen : list jsstring) :
  Forall (fun m => noLineFeed m = true) ms ->
  indexOf tail [LF; LF] = (-1)%Z ->
  IngestionProcess.drain (fun m seen => inl (seen ++ [m]))
    (length (frames ms ++ tail)) (frames ms ++ tail) seen
  = Normal (tail, seen ++ ms).
Proof.
  intros Hms Htail. revert seen.
  induction Hms as [|m ms Hm _ IH]; intros seen.
  - simpl. rewrite app_nil_r.
    apply IngestionLoopFacts.drain_stop. assumption.
  - rewrite frames_cons.
    pose proof (indexOf_frame m (frames ms ++ tail) Hm) as Hi.
    assert (Hlen : length (m ++ LF :: LF :: (frames ms ++ tail))
                   = S (length m + 1 + length (frames ms ++ tail))).
    { rewrite length_app. simpl. lia. }
    rewrite Hlen.
    rewrite (IngestionLoopFacts.drain_step _ _ _ _ _ _ Hi) by lia.
    rewrite Nat2Z.id.
    rewrite firstn_app, firstn_all, Nat.sub_diag, app_nil_r.
    rewrite skipn_app.
    rewrite (skipn_all2 m) by lia.
    replace (length m + 2 - length m) with 2 by lia.
    simpl.
    rewrite (IngestionLoopFacts.drain_fuel _ _
               (length (frames ms ++ tail)) _
               (length (frames ms ++ tail)))
      by lia.
    rewrite IH. rewrite <- app_assoc. reflexivity.
Qed.

Lemma drain_reads_back_frames_witness :
  let ms := [jsq "data: {'fileId':'A'}"; js ": ping"] in
  let tail := js "data: {" in
  Forall (fun m => noLineFeed m = true) ms /\
  indexOf tail [LF; LF] = (-1)%Z /\
  IngestionProcess.drain (fun m seen => inl (seen ++ [m]))
    (length (frames ms ++ tail)) (frames ms ++ tail) []
  = Normal (tail, [] ++ ms).
Proof.
  intros ms tail.
  assert (H1 : Forall (fun m => noLineFeed m = true) ms)
    by (repeat constructor).
  assert (H2 : indexOf tail [LF; LF] = (-1)%Z) by reflexivity.
  split; [exact H1|]. split; [exact H2|].
  exact (drain_reads_back_frames ms tail [] H1 H2).
Defined.

Lemma startsWith_refl (p : jsstring) : startsWith p p = true.
Proof.
  induction p as [|x p IH]; simpl; [reflexivity|].
  rewrite N.eqb_refl. exact IH.
Qed.

Lemma startsWith_split (s p : jsstring) :
  startsWith s p = true -> s = p ++ skipn (length p) s.
Proof.
  revert s. induction p as [|x p IH]; intros s H; simpl in *; [reflexivity|].
  destruct s as [|d s]; [discriminate|].
  apply andb_true_iff in H. destruct H as [Hd Hs].
  apply N.eqb_eq in Hd. subst d. simpl. f_equal. apply IH. exact Hs.
Qed.

(** Where [indexOf] finds the needle, the needle is, and it is found
    there in what comes before it followed by the needle alone. *)
Lemma indexOf_from_split (s p : jsstring) :
  forall pos r,
    indexOf_from s p pos = r -> r <> (-1)%Z -> (0 <= pos)%Z ->
    exists k,
      r = (pos + Z.of_nat k)%Z /\
      s = firstn k s ++ p ++ skipn (k + length p) s /\
      indexOf_from (firstn k s ++ p) p pos = r.
Proof.
  induction s as [|x s IH]; intros pos r H Hr Hpos.
  - simpl in H. destruct (startsWith [] p) eqn:E; [|congruence].
    exists 0. subst r. split; [lia|]. split.
    + simpl. apply startsWith_split. exact E.
    + simpl. destruct p; [reflexivity|discriminate].
  - cbn [indexOf_from] in H. destruct (startsWith (x :: s) p) eqn:E.
    + exists 0. subst r. split; [lia|]. split.
      * simpl firstn. simpl app at 1. apply startsWith_split. exact E.
      * simpl firstn. simpl app.
        destruct p as [|y p]; [reflexivity|].
        cbn [indexOf_from]. rewrite startsWith_refl. reflexivity.
    + destruct (IH (pos + 1)%Z r H Hr) as [k [Hk [Hs Hi]]]; [lia|].
      exists (S k). split; [lia|]. split.
      * simpl. f_equal. exact Hs.
      * simpl firstn.
        change ((x :: firstn k s) ++ p) with (x :: (firstn k s ++ p)).
        cbn [indexOf_from].
        destruct (startsWith (x :: (firstn k s ++ p)) p) eqn:E2;
          [|exact Hi].
        exfalso.
        apply (startsWith_app _ _ (skipn (k + length p) s)) in E2.
        change ((x :: (firstn k s ++ p)) ++ skipn (k + length p) s)
          with (x :: ((firstn k s ++ p) ++ skipn (k + length p) s)) in E2.
        rewrite <- app_assoc, <- Hs in E2. congruence.
Qed.

Lemma indexOf_split (b : jsstring) (i : Z) :
  indexOf b [LF; LF] = i -> i <> (-1)%Z ->
  b = firstn (Z.to_nat i) b ++ [LF; LF] ++ skipn (Z.to_nat i + 2) b /\
  closedByBlankLine (firstn (Z.to_nat i) b).
Proof.
  intros H Hi. pose proof (indexOf_range b [LF; LF] i H Hi) as R.
  simpl length in R.
  destruct (indexOf_from_split b [LF; LF] 0 i H Hi) as [k [Hk [Hs Hc]]];
    [lia|].
  assert (Ek : Z.to_nat i = k) by lia. rewrite Ek.
  split; [exact Hs|].
  unfold closedByBlankLine, indexOf. rewrite Hc.
  rewrite length_firstn. lia.
Qed.

Lemma closed_frame (m rest : jsstring) :
  closedByBlankLine m ->
  indexOf (m ++ LF :: LF :: rest) [LF; LF] = Z.of_nat (length m).
Proof.
  intros H.
  change (m ++ LF :: LF :: rest) with (m ++ [LF; LF] ++ rest).
  rewrite app_assoc. apply indexOf_app; [exact H|lia].
Qed.

(** A buffer is cut into messages and a rest in one way only. *)
Lemma frames_unique (ms1 : list jsstring) :
  forall ms2 b1 b2,
    frames ms1 ++ b1 = frames ms2 ++ b2 ->
    Forall closedByBlankLine ms1 -> Forall closedByBlankLine ms2 ->
    indexOf b1 [LF; LF] = (-1)%Z -> indexOf b2 [LF; LF] = (-1)%Z ->
    ms1 = ms2 /\ b1 = b2.
Proof.
  induction ms1 as [|m1 ms1 IH]; intros ms2 b1 b2 E H1 H2 N1 N2.
  - destruct ms2 as [|m2 ms2]; [split; [reflexivity|exact E]|].
    exfalso. simpl in E. rewrite frames_cons in E.
    inversion H2 as [|x l Hm2 _]. subst.
    rewrite (closed_frame m2 _ Hm2) in N1. lia.
  - inversion H1 as [|x l Hm1 Hms1]. subst.
    destruct ms2 as [|m2 ms2].
    + exfalso. simpl in E. rewrite frames_cons in E.
      rewrite <- E, (closed_frame m1 _ Hm1) in N2. lia.
    + inversion H2 as [|x l Hm2 Hms2]. subst.
      rewrite !frames_cons in E.
      pose proof (closed_frame m1 (frames ms1 ++ b1) Hm1) as I1.
      pose proof (closed_frame m2 (frames ms2 ++ b2) Hm2) as I2.
      rewrite E in I1. rewrite I1 in I2.
      assert (Hlen : length m1 = length m2) by lia.
      assert (Em : m1 = m2).
      { assert (L : forall (m X : jsstring), firstn (length m) (m ++ X) = m).
        { intros m X. rewrite firstn_app, firstn_all, Nat.sub_diag.
          simpl. apply app_nil_r. }
        pose proof (f_equal (firstn (length m1)) E) as E1.
        rewrite L in E1. rewrite Hlen, L in E1. exact E1. }
      subst m2. apply app_inv_head in E.
      inversion E as [E'].
      destruct (IH ms2 b1 b2 E' Hms1 Hms2 N1 N2) as [-> ->].
      split; reflexivity.
Qed.

Lemma drain_frames (S : Type) (onMessage : jsstring -> S -> S + message * S)
    (n : nat) :
  forall fuel b st b' st',
    length b <= n ->
    IngestionProcess.drain onMessage fuel b st = Normal (b', st') ->
    exists ms,
      b = frames ms ++ b' /\
      Forall closedByBlankLine ms /\
      handOver onMessage ms st = Some st'.
Proof.
  induction n as [|n IH]; intros fuel b st b' st' Hn H.
  - destruct b; [|simpl in Hn; lia].
    rewrite IngestionLoopFacts.drain_stop in H by reflexivity.
    inversion H. exists []. repeat split. constructor.
  - destruct (Z.eq_dec (indexOf b [LF; LF]) (-1)) as [E|E].
    + rewrite IngestionLoopFacts.drain_stop in H by assumption.
      inversion H; subst. exists []. repeat split. constructor.
    + pose proof (indexOf_range b [LF; LF] _ eq_refl E) as R.
      simpl length in R.
      destruct (indexOf_split b _ eq_refl E) as [Hb Hclosed].
      destruct fuel as [|fuel].
      * simpl in H. destruct (Z.eqb_spec (indexOf b [LF; LF]) (-1));
          [contradiction|discriminate].
      * rewrite (IngestionLoopFacts.drain_step _ _ _ _ _ _ eq_refl E) in H.
        destruct (onMessage _ st) as [st1|[e ste]] eqn:Em; [|discriminate].
        apply IH in H; [|rewrite length_skipn; lia].
        destruct H as [ms [Hs [Hms Hrun]]].
        exists (firstn (Z.to_nat (indexOf b [LF; LF])) b :: ms).
        split; [|split].
        -- rewrite frames_cons, <- Hs. exact Hb.
        -- constructor; assumption.
        -- simpl. rewrite Em. exact Hrun.
Qed.

(** X2.  Whatever the buffer and the action on a message, when the inner
    loop of the ingestion reader ends without a throw, the buffer was, in
    one way only, a row of messages, each closed by the first blank line
    after its start, and then a rest with no blank line: the loop has
    handed exactly these messages to the action, in order, and keeps
    exactly that rest. *)
Theorem drain_hands_over_every_frame
    (S : Type) (onMessage : jsstring -> S -> S + message * S)
    (b b' : jsstring) (st st' : S) :
  IngestionProcess.drain onMessage (length b) b st = Normal (b', st') ->
  indexOf b' [LF; LF] = (-1)%Z /\
  exists ms,
    b = frames ms ++ b' /\
    Forall closedByBlankLine ms /\
    handOver onMessage ms st = Some st' /\
    forall ms2 b2,
      b = frames ms2 ++ b2 -> Forall closedByBlankLine ms2 ->
      indexOf b2 [LF; LF] = (-1)%Z ->
      ms2 = ms /\ b2 = b'.
Proof.
  intros H.
  pose proof (IngestionLoopFacts.drain_leftover S onMessage (length b)
                _ _ _ _ _ (le_n _) H) as Hrest.
  split; [exact Hrest|].
  destruct (drain_frames S onMessage (length b) _ _ _ _ _ (le_n _) H)
    as [ms [Hb [Hms Hrun]]].
  exists ms. split; [exact Hb|]. split; [exact Hms|]. split; [exact Hrun|].
  intros ms2 b2 Hb2 Hms2 Hrest2.
  rewrite Hb in Hb2.
  destruct (frames_unique ms ms2 b' b2 Hb2 Hms Hms2 Hrest Hrest2)
    as [-> ->].
  split; reflexivity.
Qed.

Lemma drain_hands_over_every_frame_witness :
  let b := js "first" ++ [LF; LF] ++ [LF] ++ js "second" ++ [LF; LF]
           ++ js "sec" in
  let onMessage :=
    fun (m : jsstring) (seen : list jsstring) =>
      @inl (list jsstring) (message * list jsstring) (seen ++ [m]) in
  let seen := [js "first"; [LF] ++ js "second"] in
  IngestionProcess.drain onMessage (length b) b [] = Normal (js "sec", seen) /\
  (indexOf (js "sec") [LF; LF] = (-1)%Z /\
   exists ms,
     b = frames ms ++ js "sec" /\
     Forall closedByBlankLine ms /\
     handOver onMessage ms [] = Some seen /\
     forall ms2 b2,
       b = frames ms2 ++ b2 -> Forall closedByBlankLine ms2 ->
       indexOf b2 [LF; LF] = (-1)%Z ->
       ms2 = ms /\ b2 = js "sec").
Proof.
  intros b onMessage seen.
  assert (H : IngestionProcess.drain onMessage (length b) b []
              = Normal (js "sec", seen)) by reflexivity.
  split; [exact H|].
  exact (drain_hands_over_every_frame (list jsstring) onMessage b (js "sec")
           [] seen H).
Defined.

End WireFacts.

(* ===================================================================== *)
(** ** Whole blocks through the regular expression *)
(* ===================================================================== *)

Module BlockWireFacts.
Import JS Model StringFacts Kept DataBlockRegex.

Ltac list_length :=
  repeat first [rewrite length_app | progress simpl]; lia.

Lemma not_terminator_not_LF (c : codeunit) :
  isLineTerminator c = false -> (c =? LF)%N = false.
Proof.
  unfold isLineTerminator, LF. intros H.
  destruct (c =? 10)%N; [discriminate|reflexivity].
Qed.

Lemma lazyBody_block (p rest : jsstring) :
  forallb (fun c => negb (isLineTerminator c)) p = true ->
  lazyBody (p ++ LF :: LF :: rest) = Some (length p).
Proof.
  induction p as [|c p IH]; intros H.
  - reflexivity.
  - simpl in H. apply andb_true_iff in H. destruct H as [Hc Hp].
    apply negb_true_iff in Hc.
    pose proof (not_terminator_not_LF c Hc) as Hlf.
    change ((c :: p) ++ LF :: LF :: rest) with (c :: (p ++ LF :: LF :: rest)).
    cbn [lazyBody]. unfold lookahead. cbn [startsWith].
    rewrite Hlf. cbn [andb orb].
    unfold anyChar. rewrite Hc. cbn [negb orb].
    rewrite IH by assumption. reflexivity.
Qed.

Lemma singleLine_parts (p : jsstring) :
  singleLine p = true ->
  forallb (fun c => negb (isLineTerminator c)) p = true /\
  (exists c p', p = c :: p' /\ isWhiteSpace c = false) /\
  trim p = p.
Proof.
  unfold singleLine. intros H.
  apply andb_true_iff in H. destruct H as [H Hlast].
  apply andb_true_iff in H. destruct H as [Hall Hfirst].
  split; [exact Hall|].
  destruct p as [|c p']; [discriminate|].
  apply negb_true_iff in Hfirst.
  split; [exists c, p'; split; [reflexivity|exact Hfirst]|].
  unfold trim. cbn [trimStart]. rewrite Hfirst.
  unfold trimEnd.
  destruct (rev (c :: p')) as [|d q] eqn:E; [discriminate|].
  apply negb_true_iff in Hlast.
  cbn [trimStart]. rewrite Hlast. rewrite <- E. apply rev_involutive.
Qed.

Lemma dataBlock_block (p rest : jsstring) :
  singleLine p = true ->
  dataBlock (js "data: " ++ p ++ LF :: LF :: rest)
  = Some (p, 6 + length p).
Proof.
  intros H. destruct (singleLine_parts p H) as [Hall [[c [p' [-> Hc]]] _]].
  unfold dataBlock.
  change (js "data: " ++ (c :: p') ++ LF :: LF :: rest)
    with (100 :: 97 :: 116 :: 97 :: 58 :: 32
            :: ((c :: p') ++ LF :: LF :: rest))%N.
  change (startsWith
            (100 :: 97 :: 116 :: 97 :: 58 :: 32
               :: ((c :: p') ++ LF :: LF :: rest))%N (js "data:"))
    with true.
  cbn [skipn].
  assert (A : afterData (32%N :: (c :: p') ++ LF :: LF :: rest)
              = Some (1, length (c :: p'))).
  { cbn [afterData]. change (isWhiteSpace 32%N) with true. cbv iota.
    change ((c :: p') ++ LF :: LF :: rest)
      with (c :: (p' ++ LF :: LF :: rest)).
    cbn [afterData]. rewrite Hc.
    change (c :: (p' ++ LF :: LF :: rest))
      with ((c :: p') ++ LF :: LF :: rest).
    rewrite lazyBody_block by assumption. reflexivity. }
  rewrite A. cbn [Nat.add skipn].
  rewrite firstn_app, firstn_all, Nat.sub_diag, app_nil_r. reflexivity.
Qed.

Lemma execFrom_here (s : jsstring) (r : nat) (cap : jsstring) (len : nat) :
  matchHere (r =? 0) s = Some (cap, len) ->
  execFrom s r = Some (cap, r + len).
Proof.
  intros H. destruct s; cbn [execFrom]; rewrite H; reflexivity.
Qed.

Lemma execFrom_blank (r : nat) : execFrom [LF; LF] r = None.
Proof.
  cbn [execFrom]. destruct (r =? 0); reflexivity.
Qed.

(** After a block, the next one is found behind the blank line. *)
Lemma execFrom_next (p rest : jsstring) (r : nat) :
  singleLine p = true ->
  execFrom (LF :: LF :: js "data: " ++ p ++ LF :: LF :: rest) r
  = Some (p, r + 8 + length p).
Proof.
  intros H. pose proof (dataBlock_block p rest H) as D.
  cbn [execFrom].
  assert (M0 : matchHere (r =? 0)
                 (LF :: LF :: js "data: " ++ p ++ LF :: LF :: rest) = None).
  { unfold matchHere. destruct (r =? 0); reflexivity. }
  rewrite M0.
  assert (M1 : matchHere (S r =? 0)
                 (LF :: js "data: " ++ p ++ LF :: LF :: rest)
               = Some (p, S (6 + length p))).
  { unfold matchHere. cbn [Nat.eqb]. change (LF =? LF)%N with true.
    cbv iota. rewrite D. reflexivity. }
  rewrite M1. f_equal. f_equal. lia.
Qed.

Lemma exec_at (done suffix : jsstring) :
  exec (done ++ suffix) (length done) = execFrom suffix (length done).
Proof.
  unfold exec.
  destruct (Nat.ltb_spec (length (done ++ suffix)) (length done)) as [L|L].
  - rewrite length_app in L. lia.
  - rewrite skipn_app, skipn_all, Nat.sub_diag. reflexivity.
Qed.

Lemma dataBlocks_cons (p : jsstring) (ps : list jsstring) :
  dataBlocks (p :: ps) = js "data: " ++ p ++ LF :: LF :: dataBlocks ps.
Proof.
  unfold dataBlocks. cbn [map concat].
  rewrite <- !app_assoc. reflexivity.
Qed.

Lemma dataBlocks_length (ps : list jsstring) :
  length ps <= length (dataBlocks ps).
Proof.
  induction ps as [|p ps IH]; [simpl; lia|].
  rewrite dataBlocks_cons. rewrite !length_app. simpl. lia.
Qed.

(** The inner loop from just after a block on. *)
Lemma matchLoop_rest (ps : list jsstring) :
  forall done fuel l seen,
    Forall (fun p => singleLine p = true) ps ->
    length ps <= fuel ->
    BlockReader.matchLoop (fun rawData seen => seen ++ [rawData]) fuel
      (done ++ LF :: LF :: dataBlocks ps) (length done) l seen
    = Some (match ps with
            | [] => l
            | _ :: _ => length done + length (dataBlocks ps)
            end,
            seen ++ ps).
Proof.
  induction ps as [|p ps IH]; intros done fuel l seen Hps Hfuel.
  - assert (E : exec (done ++ [LF; LF]) (length done) = None)
      by (rewrite exec_at; apply execFrom_blank).
    change (dataBlocks []) with (@nil codeunit).
    destruct fuel; cbn [BlockReader.matchLoop]; rewrite E, app_nil_r;
      reflexivity.
  - inversion Hps as [|p0 ps0 Hp Hrest]; subst.
    destruct (singleLine_parts p Hp) as [_ [_ Htrim]].
    destruct fuel as [|fuel]; [simpl in Hfuel; lia|].
    cbn [BlockReader.matchLoop].
    rewrite exec_at, dataBlocks_cons, execFrom_next by assumption.
    rewrite Htrim.
    replace (done ++ LF :: LF :: js "data: " ++ p ++ LF :: LF :: dataBlocks ps)
      with ((done ++ LF :: LF :: js "data: " ++ p)
              ++ LF :: LF :: dataBlocks ps)
      by (rewrite <- !app_assoc; reflexivity).
    replace (length done + 8 + length p)
      with (length (done ++ LF :: LF :: js "data: " ++ p))
      by list_length.
    rewrite IH by (try assumption; simpl in Hfuel; lia).
    rewrite <- app_assoc. f_equal. f_equal.
    destruct ps as [|q qs].
    + list_length.
    + list_length.
Qed.

(** X3.  Payloads that are each one line of text, not empty and with no
    white space at either end, sent as [data: payload] and a blank line:
    the inner loop of the processing reader hands over exactly these
    payloads, in order, and what [buffer.slice(lastIndex)] keeps is the
    last blank line. *)
Theorem matchLoop_reads_back_blocks (ps : list jsstring) :
  Forall (fun p => singleLine p = true) ps ->
  ps <> [] ->
  BlockReader.matchLoop (fun rawData seen => seen ++ [rawData])
    (length (dataBlocks ps)) (dataBlocks ps) 0 0 []
  = Some (length (dataBlocks ps) - 2, ps) /\
  slice_from (dataBlocks ps) (Z.of_nat (length (dataBlocks ps) - 2))
  = [LF; LF].
Proof.
  intros Hps Hne.
  destruct ps as [|p ps]; [contradiction|].
  inversion Hps as [|p0 ps0 Hp Hrest]; subst.
  destruct (singleLine_parts p Hp) as [_ [_ Htrim]].
  pose proof (dataBlocks_length (p :: ps)) as Hlen.
  assert (Hfirst : exec (dataBlocks (p :: ps)) 0 = Some (p, 6 + length p)).
  { rewrite dataBlocks_cons. unfold exec.
    change (length (js "data: " ++ p ++ LF :: LF :: dataBlocks ps) <? 0)
      with false.
    cbv iota. cbn [skipn].
    apply (execFrom_here _ 0). unfold matchHere. cbn [Nat.eqb].
    rewrite dataBlock_block by assumption. reflexivity. }
  assert (Hloop : BlockReader.matchLoop
                    (fun rawData seen => seen ++ [rawData])
                    (length (dataBlocks (p :: ps))) (dataBlocks (p :: ps))
                    0 0 []
                  = Some (length (dataBlocks (p :: ps)) - 2, p :: ps)).
  { pose proof (dataBlocks_length ps) as Hlen'.
    assert (HL : length (dataBlocks (p :: ps))
                 = S (7 + length p + length (dataBlocks ps)))
      by (rewrite dataBlocks_cons; list_length).
    rewrite HL. cbn [BlockReader.matchLoop]. rewrite Hfirst, Htrim.
    rewrite dataBlocks_cons.
    replace (js "data: " ++ p ++ LF :: LF :: dataBlocks ps)
      with ((js "data: " ++ p) ++ LF :: LF :: dataBlocks ps)
      by (rewrite <- app_assoc; reflexivity).
    replace (6 + length p) with (length (js "data: " ++ p))
      by list_length.
    rewrite matchLoop_rest by (try assumption; lia).
    cbn [app]. f_equal. f_equal.
    destruct ps as [|q qs].
    - change (dataBlocks []) with (@nil codeunit). list_length.
    - list_length. }
  split; [exact Hloop|].
  clear Hloop Hfirst.
  unfold slice_from.
  assert (Hshape : exists body, dataBlocks (p :: ps) = body ++ [LF; LF]).
  { clear. revert p. induction ps as [|q qs IH]; intros p.
    - exists (js "data: " ++ p). rewrite dataBlocks_cons.
      change (dataBlocks []) with (@nil codeunit).
      rewrite <- app_assoc. reflexivity.
    - destruct (IH q) as [body Hb].
      exists (js "data: " ++ p ++ LF :: LF :: body).
      rewrite dataBlocks_cons, Hb. rewrite <- !app_assoc. reflexivity. }
  destruct Hshape as [body Hb]. rewrite Hb. rewrite length_app. simpl.
  destruct (Z.ltb_spec (Z.of_nat (length body + 2 - 2)) 0) as [L|L]; [lia|].
  rewrite Z.min_l by lia. rewrite Nat2Z.id.
  replace (length body + 2 - 2) with (length body) by lia.
  rewrite skipn_app, skipn_all, Nat.sub_diag. reflexivity.
Qed.

Lemma matchLoop_reads_back_blocks_witness :
  let ps := [jsq "{'file_id':'A'}"; jsq "{'file_id':'B', 'error':'x'}"] in
  Forall (fun p => singleLine p = true) ps /\
  ps <> [] /\
  (BlockReader.matchLoop (fun rawData seen => seen ++ [rawData])
     (length (dataBlocks ps)) (dataBlocks ps) 0 0 []
   = Some (length (dataBlocks ps) - 2, ps) /\
   slice_from (dataBlocks ps) (Z.of_nat (length (dataBlocks ps) - 2))
   = [LF; LF]).
Proof.
  intros ps.
  assert (H1 : Forall (fun p => singleLine p = true) ps)
    by (repeat constructor).
  assert (H2 : ps <> []) by discriminate.
  split; [exact H1|]. split; [exact H2|].
  exact (matchLoop_reads_back_blocks ps H1 H2).
Defined.

End BlockWireFacts.

(* ===================================================================== *)
(** ** What holds all along a pass *)
(* ===================================================================== *)

Module PassFacts.
Import JS Model StringFacts Kept.

(** A property of the state that every message keeps, whether it is
    handled to the end or throws, is kept by the ingestion reader,
    however it ends. *)
Section IngestionInvariant.
Variable S : Type.
Variable onMessage : jsstring -> S -> S + message * S.
Variable P : S -> Prop.
Hypothesis step : forall m st st', P st -> onMessage m st = inl st' -> P st'.
Hypothesis step_throw :
  forall m st e st', P st -> onMessage m st = inr (e, st') -> P st'.

Lemma drain_invariant (fuel : nat) :
  forall b st,
    P st ->
    match IngestionProcess.drain onMessage fuel b st with
    | Normal (_, st') => P st'
    | Throw _ st' => P st'
    | OutOfFuel => True
    end.
Proof.
  induction fuel as [|fuel IH]; intros b st H; cbn [IngestionProcess.drain];
    destruct (indexOf b [LF; LF] =? -1)%Z; try exact H; [exact I|].
  destruct (onMessage _ st) as [st'|[e ste]] eqn:E;
    [|exact (step_throw _ _ _ _ H E)].
  apply IH. exact (step _ _ _ H E).
Qed.

Lemma ingestion_readLoop_invariant (chunks : list (list Byte.byte)) :
  forall ending d buffer st,
    P st ->
    match IngestionProcess.readLoop onMessage chunks ending d buffer st with
    | Normal st' => P st'
    | Throw _ st' => P st'
    | OutOfFuel => True
    end.
Proof.
  induction chunks as [|c chunks IH]; intros ending d buffer st H.
  - simpl. destruct ending; exact H.
  - cbn [IngestionProcess.readLoop].
    destruct (TextDecoder.decode d c) as [d1 t1].
    pose proof (drain_invariant (length (buffer ++ t1)) (buffer ++ t1) st H)
      as D.
    destruct (IngestionProcess.drain onMessage _ _ st)
      as [[b' st']|e st'|]; [apply IH; exact D|exact D|exact I].
Qed.
End IngestionInvariant.

(** The same for the processing reader. *)
Section ProcessingInvariant.
Variable S : Type.
Variable onBlock : jsstring -> S -> S.
Variable P : S -> Prop.
Hypothesis step : forall rawData st, P st -> P (onBlock rawData st).

Lemma matchLoop_invariant (fuel : nat) :
  forall buffer r l st,
    P st ->
    match BlockReader.matchLoop onBlock fuel buffer r l st with
    | Some (_, st') => P st'
    | None => True
    end.
Proof.
  induction fuel as [|fuel IH]; intros buffer r l st H;
    cbn [BlockReader.matchLoop];
    destruct (DataBlockRegex.exec buffer r) as [[g r']|]; try exact H;
    [exact I|].
  apply IH. apply step. exact H.
Qed.

Lemma processing_readLoop_invariant (chunks : list (list Byte.byte)) :
  forall ending d buffer st,
    P st ->
    match BlockReader.readLoop onBlock chunks ending d buffer st with
    | Normal st' => P st'
    | Throw _ st' => P st'
    | OutOfFuel => True
    end.
Proof.
  induction chunks as [|c chunks IH]; intros ending d buffer st H.
  - simpl. destruct ending; exact H.
  - cbn [BlockReader.readLoop].
    destruct (TextDecoder.decode d c) as [d1 t1].
    pose proof (matchLoop_invariant (length (buffer ++ t1)) (buffer ++ t1)
                  0 0 st H) as D.
    destruct (BlockReader.matchLoop onBlock _ _ 0 0 st) as [[l st']|];
      [apply IH; exact D|exact I].
Qed.
End ProcessingInvariant.

Lemma Forall2_map_right {A : Type} (R : A -> A -> Prop) (g : A -> A)
    (l0 l : list A) :
  (forall a b, R a b -> R a (g b)) ->
  Forall2 R l0 l -> Forall2 R l0 (map g l).
Proof.
  intros Hg H. induction H as [|a b l0 l Hab _ IH]; simpl; constructor; auto.
Qed.

Lemma Forall2_same {A : Type} (R : A -> A -> Prop) (l : list A) :
  (forall a, R a a) -> Forall2 R l l.
Proof. intros H. induction l; constructor; auto. Qed.

(* --- ingestion --- *)

Lemma sameButIngestion_with (f g : FileData) (status details err : value) :
  sameButIngestion f g ->
  sameButIngestion f (IngestionProcess.withIngestion g status details err).
Proof. intros H. exact H. Qed.

Lemma sameButIngestion_refl (f : FileData) : sameButIngestion f f.
Proof. repeat split. Qed.

Lemma markPending_keeps (ftp : list FileData) (f g : FileData) :
  sameButIngestion f g ->
  sameButIngestion f (IngestionProcess.markPending ftp g).
Proof.
  intros H. unfold IngestionProcess.markPending.
  destruct (existsb _ ftp); [apply sameButIngestion_with|]; exact H.
Qed.

Lemma applyEvent_keeps (fileId status details err : value) (f g : FileData) :
  sameButIngestion f g ->
  sameButIngestion f (IngestionProcess.applyEvent fileId status details err g).
Proof.
  intros H. unfold IngestionProcess.applyEvent.
  destruct (strict_eq_str (id g) fileId);
    [apply sameButIngestion_with|]; exact H.
Qed.

Lemma markFailed_keeps (f g : FileData) :
  sameButIngestion f g ->
  sameButIngestion f (IngestionProcess.markFailed g).
Proof.
  intros H. unfold IngestionProcess.markFailed.
  destruct (strict_eq_str _ (ingestionStatus g));
    [apply sameButIngestion_with|]; exact H.
Qed.

Lemma onMessage_keeps (fs0 : list FileData) (m : jsstring)
    (st st' : IngestionProcess.state) :
  Forall2 sameButIngestion fs0 (IngestionProcess.files st) ->
  IngestionProcess.onMessage m st = inl st' ->
  Forall2 sameButIngestion fs0 (IngestionProcess.files st').
Proof.
  intros H. unfold IngestionProcess.onMessage.
  destruct (startsWith m (js "data: "));
    [|intros E; inversion E; subst; exact H].
  destruct (JSON.parse _) as [result|]; [|discriminate].
  destruct (getProp result (js "fileId")) as [fileId|]; [|discriminate].
  destruct (getProp result (js "status")) as [status|]; [|discriminate].
  destruct (getProp result (js "ingestionDetails")) as [details|];
    [|discriminate].
  destruct (getProp result (js "error")) as [err|]; [|discriminate].
  destruct (getProp result (js "progress")) as [prog|]; [|discriminate].
  intros E. inversion E. subst st'. simpl.
  apply Forall2_map_right; [|exact H].
  intros a b. apply applyEvent_keeps.
Qed.

(** What a message that throws leaves behind: the state as it was, but
    for the function it may have handed to [setFiles]. *)
Lemma onMessage_throw (m : jsstring) (e : message)
    (st st' : IngestionProcess.state) :
  IngestionProcess.onMessage m st = inr (e, st') ->
  st' = st \/ st' = IngestionProcess.setFilesOfNull st.
Proof.
  unfold IngestionProcess.onMessage.
  destruct (startsWith m (js "data: ")); [|discriminate].
  destruct (JSON.parse _) as [result|];
    [|intros E; inversion E; left; reflexivity].
  destruct (getProp result (js "fileId")), (getProp result (js "status")),
    (getProp result (js "ingestionDetails")),
    (getProp result (js "error")), (getProp result (js "progress"));
    intros E; inversion E; right; reflexivity.
Qed.

Lemma setFilesOfNull_fields (st : IngestionProcess.state) :
  IngestionProcess.files (IngestionProcess.setFilesOfNull st)
  = IngestionProcess.files st /\
  IngestionProcess.apiError (IngestionProcess.setFilesOfNull st)
  = IngestionProcess.apiError st.
Proof.
  unfold IngestionProcess.setFilesOfNull.
  destruct st as [fs p i a r]. simpl. destruct fs; split; reflexivity.
Qed.

Lemma onMessage_throw_keeps (fs0 : list FileData) (m : jsstring) (e : message)
    (st st' : IngestionProcess.state) :
  Forall2 sameButIngestion fs0 (IngestionProcess.files st) ->
  IngestionProcess.onMessage m st = inr (e, st') ->
  Forall2 sameButIngestion fs0 (IngestionProcess.files st').
Proof.
  intros H E. destruct (onMessage_throw m e st st' E) as [->| ->];
    [exact H|].
  rewrite (proj1 (setFilesOfNull_fields st)). exact H.
Qed.

(** A message handled to its end hands no throwing function to
    [setFiles] and sets no error. *)
Lemma onMessage_keeps_flags (m : jsstring) (st st' : IngestionProcess.state) :
  IngestionProcess.onMessage m st = inl st' ->
  IngestionProcess.renderThrows st' = IngestionProcess.renderThrows st /\
  IngestionProcess.apiError st' = IngestionProcess.apiError st.
Proof.
  unfold IngestionProcess.onMessage.
  destruct (startsWith m (js "data: "));
    [|intros E; inversion E; subst; split; reflexivity].
  destruct (JSON.parse _) as [result|]; [|discriminate].
  destruct (getProp result (js "fileId")); [|discriminate].
  destruct (getProp result (js "status")); [|discriminate].
  destruct (getProp result (js "ingestionDetails")); [|discriminate].
  destruct (getProp result (js "error")); [|discriminate].
  destruct (getProp result (js "progress")); [|discriminate].
  intros E. inversion E. subst st'. split; reflexivity.
Qed.

(** A [try] block that runs to its end has set no error and handed no
    throwing function to [setFiles]. *)
Lemma tryBlock_normal_flags (resp : response)
    (st st2 : IngestionProcess.state) :
  IngestionProcess.tryBlock resp st = Normal st2 ->
  IngestionProcess.renderThrows st2 = IngestionProcess.renderThrows st /\
  IngestionProcess.apiError st2 = IngestionProcess.apiError st.
Proof.
  unfold IngestionProcess.tryBlock.
  destruct resp as [e|s1 s2 body| |chunks ending]; try discriminate.
  - destruct (JSON.parse body) as [errorData|]; [|discriminate].
    destruct (getProp errorData (js "detail")); discriminate.
  - set (P := fun s : IngestionProcess.state =>
                IngestionProcess.renderThrows s
                = IngestionProcess.renderThrows st /\
                IngestionProcess.apiError s = IngestionProcess.apiError st).
    intros E.
    assert (G : forall chunks ending d buffer s,
               P s ->
               IngestionProcess.readLoop IngestionProcess.onMessage chunks
                 ending d buffer s = Normal st2 -> P st2).
    { clear. intros chunks.
      induction chunks as [|c chunks IH]; intros ending d buffer s Hs.
      - simpl. destruct ending; [discriminate|].
        intros E. inversion E. subst. exact Hs.
      - cbn [IngestionProcess.readLoop].
        destruct (TextDecoder.decode d c) as [d1 t1].
        destruct (IngestionProcess.drain IngestionProcess.onMessage _ _ s)
          as [[b' s']|e s'|] eqn:D; [|discriminate|discriminate].
        apply IH.
        assert (Dn : forall fuel b s0 b1 s1,
                   P s0 ->
                   IngestionProcess.drain IngestionProcess.onMessage fuel b s0
                   = Normal (b1, s1) -> P s1).
        { clear. induction fuel as [|fuel IHf]; intros b s0 b1 s1 H0;
            cbn [IngestionProcess.drain];
            destruct (indexOf b [LF; LF] =? -1)%Z;
            try (intros E; inversion E; subst; exact H0);
            try discriminate.
          destruct (IngestionProcess.onMessage _ s0) as [s2|[e s2]] eqn:Em;
            [|discriminate].
          apply IHf. destruct (onMessage_keeps_flags _ _ _ Em) as [A B].
          destruct H0 as [A0 B0]. split; congruence. }
        exact (Dn _ _ _ _ _ Hs D). }
    exact (G chunks ending TextDecoder.fresh [] st (conj eq_refl eq_refl) E).
Qed.

(** X4.  The handler of an ingestion pass always comes to its end,
    whatever the server answers.  Unless a function it handed to
    [setFiles] throws when React runs it, which tears the page down, the
    pass neither adds, removes nor reorders files: each file keeps its
    id, name, selection, processed flag, quality metrics and analysis,
    and only the ingestion status, details and error can change.  A pass
    that ends with no error has handed no throwing function over. *)
Theorem ingestion_pass_keeps_files
    (filesToProcess : list FileData) (resp : response)
    (st : IngestionProcess.state) :
  exists st',
    IngestionProcess.handleIngestion filesToProcess resp st = Some st' /\
    (IngestionProcess.renderThrows st' = false ->
     Forall2 sameButIngestion
       (IngestionProcess.files st) (IngestionProcess.files st')) /\
    (IngestionProcess.renderThrows st = false ->
     IngestionProcess.apiError st' = None ->
     IngestionProcess.renderThrows st' = false).
Proof.
  unfold IngestionProcess.handleIngestion.
  destruct filesToProcess as [|f0 rest].
  { eexists. split; [reflexivity|]. split.
    - intros _. apply Forall2_same. apply sameButIngestion_refl.
    - intros H _. exact H. }
  set (ftp := f0 :: rest).
  set (P := fun s : IngestionProcess.state =>
              Forall2 sameButIngestion (IngestionProcess.files st)
                (IngestionProcess.files s)).
  assert (H1 : P (IngestionProcess.begin ftp st)).
  { unfold P. simpl. apply Forall2_map_right.
    - intros a b. apply markPending_keeps.
    - apply Forall2_same. apply sameButIngestion_refl. }
  assert (H2 : match IngestionProcess.tryBlock resp
                       (IngestionProcess.begin ftp st) with
               | Normal st' => P st'
               | Throw _ st' => P st'
               | OutOfFuel => False
               end).
  { unfold IngestionProcess.tryBlock.
    destruct resp as [e|s1 s2 body| |chunks ending]; try exact H1.
    - destruct (JSON.parse body) as [errorData|]; [|exact H1].
      destruct (getProp errorData (js "detail")); exact H1.
    - pose proof (ingestion_readLoop_invariant _ IngestionProcess.onMessage P
                    (onMessage_keeps (IngestionProcess.files st))
                    (fun m s e s' =>
                       onMessage_throw_keeps (IngestionProcess.files st)
                         m e s s')
                    chunks ending TextDecoder.fresh []
                    (IngestionProcess.begin ftp st) H1) as R.
      pose proof (IngestionLoopFacts.readLoop_total _
                    IngestionProcess.onMessage chunks ending
                    TextDecoder.fresh [] (IngestionProcess.begin ftp st))
        as T.
      destruct (IngestionProcess.readLoop _ chunks ending _ _ _);
        [exact R|exact R|contradiction]. }
  destruct (IngestionProcess.tryBlock resp (IngestionProcess.begin ftp st))
    as [st2|e st2|] eqn:E; [| |contradiction].
  - eexists. split; [reflexivity|]. split; [intros _; exact H2|].
    intros Hst _. simpl.
    rewrite (proj1 (tryBlock_normal_flags _ _ _ E)). exact Hst.
  - eexists. split; [reflexivity|]. split; [|discriminate].
    intros _. simpl.
    apply Forall2_map_right; [|exact H2].
    intros a b. apply markFailed_keeps.
Qed.

(* --- processing --- *)

Lemma sameButProcessing_refl (f : FileData) : sameButProcessing f f.
Proof. repeat split. auto. Qed.

Lemma applyPayload_keeps (guard : FileData -> bool)
    (fileId payload analysis : value) (f g : FileData) :
  sameButProcessing f g ->
  sameButProcessing f
    (ProcessingCommon.applyPayload guard fileId payload analysis g).
Proof.
  intros H. unfold ProcessingCommon.applyPayload.
  destruct (strict_eq_str (id g) fileId && guard g); [|exact H].
  destruct H as [H1 [H2 [H3 [H4 [H5 H6]]]]].
  repeat split; assumption.
Qed.

Lemma onBlock_keeps (guard : FileData -> bool) (total : nat)
    (fs0 : list FileData) (rawData : jsstring) (st : ProcessingCommon.state) :
  Forall2 sameButProcessing fs0 (ProcessingCommon.files st) ->
  Forall2 sameButProcessing fs0
    (ProcessingCommon.files (ProcessingCommon.onBlock guard total rawData st)).
Proof.
  intros H. unfold ProcessingCommon.onBlock.
  destruct (JSON.parse rawData) as [payload|]; [|exact H].
  destruct (ProcessingCommon.fileIdOf payload) as [fileId|]; [|exact H].
  destruct (truthy fileId); simpl; [|exact H].
  apply Forall2_map_right; [|exact H].
  intros a b. apply applyPayload_keeps.
Qed.

Lemma stream_invariant (P : ProcessingCommon.state -> Prop)
    (guard : FileData -> bool) (total : nat) (resp : response)
    (st : ProcessingCommon.state) :
  (forall rawData s, P s -> P (ProcessingCommon.onBlock guard total rawData s)) ->
  P st ->
  match ProcessingCommon.stream guard total resp st with
  | Normal st' => P st'
  | Throw _ st' => P st'
  | OutOfFuel => False
  end.
Proof.
  intros Hstep H. unfold ProcessingCommon.stream.
  destruct resp as [e|s1 s2 body| |chunks ending]; try exact H.
  pose proof (processing_readLoop_invariant _
                (ProcessingCommon.onBlock guard total) P Hstep
                chunks ending TextDecoder.fresh [] st H) as R.
  pose proof (BlockLoopFacts.blockLoop_total _
                (ProcessingCommon.onBlock guard total) chunks ending
                TextDecoder.fresh [] st) as T.
  destruct (BlockReader.readLoop _ chunks ending _ _ _);
    [exact R|exact R|contradiction].
Qed.

(** X5.  Whatever the server answers, [processFiles] ends, and it neither
    adds, removes nor reorders files: each file keeps its id, name,
    selection and ingestion fields, and a file that was processed before
    the call is still processed after it. *)
Theorem processFiles_keeps_files
    (selectedFiles filesToProcess : list FileData) (resp : response)
    (st : ProcessingCommon.state) :
  exists st',
    FileProcessing.processFiles selectedFiles filesToProcess resp st
    = Some st' /\
    Forall2 sameButProcessing
      (ProcessingCommon.files st) (ProcessingCommon.files st').
Proof.
  unfold FileProcessing.processFiles.
  destruct filesToProcess as [|f0 rest].
  { eexists. split; [reflexivity|].
    apply Forall2_same. apply sameButProcessing_refl. }
  pose proof (stream_invariant
                (fun s => Forall2 sameButProcessing (ProcessingCommon.files st)
                            (ProcessingCommon.files s))
                (fun _ => true) (length selectedFiles) resp
                (ProcessingCommon.setError None
                   (ProcessingCommon.setIsProcessing true st))
                (onBlock_keeps _ _ _)
                (Forall2_same _ _ sameButProcessing_refl)) as H.
  destruct (ProcessingCommon.stream _ _ resp _) as [st2|e st2|];
    [| |contradiction]; eexists; (split; [reflexivity|exact H]).
Qed.

End PassFacts.

(* ===================================================================== *)
(** ** The progress bar of the processing step *)
(* ===================================================================== *)

Module ProgressBarFacts.
Import JS Model StringFacts Kept.
Import ProcessingCommon.

Lemma filter_selected_length (l1 l2 : list FileData) :
  map selected l1 = map selected l2 ->
  length (filter selected l1) = length (filter selected l2).
Proof.
  revert l2. induction l1 as [|a l1 IH]; intros [|b l2] H; simpl in *;
    try discriminate; [reflexivity|].
  inversion H as [[Hab Hrest]]. rewrite Hab.
  destruct (selected b); simpl; auto.
Qed.

Lemma processed_among_selected (l : list FileData) :
  length (filter (fun f => selected f && processed f) l)
  <= length (filter selected l) /\
  (length (filter (fun f => selected f && processed f) l)
   = length (filter selected l)
   <-> forallb processed (filter selected l) = true).
Proof.
  induction l as [|f l [IH1 IH2]]; simpl; [split; [lia|tauto]|].
  destruct (selected f), (processed f) eqn:Ep; simpl; rewrite ?Ep; simpl.
  - split; [lia|]. rewrite <- IH2. split; lia.
  - split; [lia|]. split; [lia|discriminate].
  - split; assumption.
  - split; assumption.
Qed.

Lemma percent_full (k n : nat) (q : Q) :
  k <= n -> percent k n = Num q ->
  ((q == 100)%Q <-> (k = n /\ 0 < n)).
Proof.
  intros Hk Hq.
  apply (f_equal (fun v => match v with Num x => x | _ => 0%Q end)) in Hq.
  cbv beta iota delta [percent] in Hq. subst q.
  set (m := Nat.max 1 n).
  assert (Hm : (0 < Z.of_nat m)%Z) by (unfold m; lia).
  assert (Hpos : (0 < inject_Z (Z.of_nat m))%Q).
  { change 0%Q with (inject_Z 0). rewrite <- Zlt_Qlt. exact Hm. }
  assert (Hne : ~ (inject_Z (Z.of_nat m) == 0)%Q).
  { intros E. rewrite E in Hpos. apply (Qlt_irrefl 0). exact Hpos. }
  split.
  - intros H. rewrite Qred_correct in H.
    assert (H1 : (inject_Z (Z.of_nat k) / inject_Z (Z.of_nat m) == 1)%Q).
    { apply (Qmult_inj_r _ _ 100); [discriminate|].
      rewrite H. reflexivity. }
    assert (H2 : (inject_Z (Z.of_nat k) == inject_Z (Z.of_nat m))%Q).
    { rewrite <- (Qmult_div_r (inject_Z (Z.of_nat k))
                    (inject_Z (Z.of_nat m)) Hne).
      rewrite H1. ring. }
    unfold Qeq in H2. simpl in H2. unfold m in H2. lia.
  - intros [E Hn]. subst k. rewrite Qred_correct.
    replace m with n by (unfold m; lia).
    replace m with n in Hne by (unfold m; lia).
    field. exact Hne.
Qed.

Lemma applyPayload_selected (guard : FileData -> bool)
    (fileId payload analysis : value) (l : list FileData) :
  map selected (map (applyPayload guard fileId payload analysis) l)
  = map selected l.
Proof.
  rewrite map_map. apply map_ext. intros f. unfold applyPayload.
  destruct (strict_eq_str (id f) fileId && guard f); reflexivity.
Qed.

Lemma onBlock_consistent (guard : FileData -> bool) (sel0 : list bool)
    (total : nat) (rawData : jsstring) (st : state) :
  consistent sel0 total st ->
  consistent sel0 total (onBlock guard total rawData st).
Proof.
  intros H. unfold onBlock.
  destruct (JSON.parse rawData) as [payload|]; [|exact H].
  destruct (fileIdOf payload) as [fileId|]; [|exact H].
  destruct (truthy fileId); simpl; [|exact H].
  destruct H as [Hs _]. unfold consistent. simpl.
  rewrite applyPayload_selected. auto.
Qed.

Lemma unprocessed_count (l : list FileData) :
  length (filter (fun f => selected f && processed f)
            (map (fun f => if selected f then unprocessed f else f) l)) = 0.
Proof.
  induction l as [|f l IH]; simpl; [reflexivity|].
  destruct (selected f) eqn:E; simpl; rewrite ?E; simpl; exact IH.
Qed.

Lemma unprocessed_selected (l : list FileData) :
  map selected (map (fun f => if selected f then unprocessed f else f) l)
  = map selected l.
Proof.
  rewrite map_map. apply map_ext. intros f.
  destruct (selected f) eqn:E; simpl; rewrite ?E; reflexivity.
Qed.

(** X6.  After [startProcessing] of
    [frontend/components/file-processing.tsx], whatever the server
    answered: the count shown is the number of selected files that are
    processed, the progress is that number over the number of selected
    files, as a percentage between 0 and 100, and it is 100 exactly when
    every selected file is processed and there is one. *)
Theorem progress_bar_is_consistent (resp : response) (st : state) :
  exists st' q,
    FileProcessing.startProcessing resp st = Some st' /\
    processedFileCount st'
    = length (filter (fun f => selected f && processed f) (files st')) /\
    progress st' = Num q /\
    (0 <= q)%Q /\ (q <= 100)%Q /\
    ((q == 100)%Q <-> FileProcessingView.allFilesProcessed (files st') = true).
Proof.
  unfold FileProcessing.startProcessing.
  set (sel0 := map selected (files st)).
  set (total := length (filter selected (files st))).
  set (st0 := setFiles _ _).
  assert (H0 : consistent sel0 total st0).
  { unfold consistent, st0. simpl.
    rewrite unprocessed_selected, unprocessed_count.
    split; [reflexivity|]. split; [reflexivity|].
    symmetry. apply PercentFacts.percent_zero. }
  assert (Hend : exists st',
             FileProcessing.processFiles (filter selected (files st))
               (filter selected (files st)) resp st0 = Some st' /\
             consistent sel0 total st').
  { unfold FileProcessing.processFiles.
    destruct (filter selected (files st)) as [|f0 rest] eqn:Ef.
    - exists st0. split; [reflexivity|exact H0].
    - assert (H1 : consistent sel0 total
                     (setError None (setIsProcessing true st0)))
        by exact H0.
      pose proof (PassFacts.stream_invariant (consistent sel0 total)
                    (fun _ => true) total resp _
                    (fun rawData s => onBlock_consistent _ sel0 total
                                        rawData s) H1) as H.
      fold total.
      replace (length (f0 :: rest)) with total
        by (unfold total; rewrite ?Ef; reflexivity).
      destruct (stream _ total resp _) as [st2|e st2|];
        [| |contradiction]; eexists; (split; [reflexivity|exact H]). }
  destruct Hend as [st' [Hrun [Hsel [Hcount Hprog]]]].
  set (k := length (filter (fun f => selected f && processed f) (files st')))
    in *.
  assert (Htotal : total = length (filter selected (files st'))).
  { unfold total. apply filter_selected_length. rewrite Hsel. reflexivity. }
  destruct (processed_among_selected (files st')) as [Hle Hiff].
  fold k in Hle, Hiff. rewrite <- Htotal in Hle, Hiff.
  destruct (PercentFacts.percent_range k total Hle)
    as [q [Hq [Hq0 [Hq100 _]]]].
  exists st', q.
  split; [exact Hrun|]. split; [exact Hcount|].
  split; [rewrite Hprog; exact Hq|].
  split; [exact Hq0|]. split; [exact Hq100|].
  rewrite (percent_full k total q Hle Hq).
  unfold FileProcessingView.allFilesProcessed,
    FileProcessingView.selectedFiles.
  rewrite <- Htotal. rewrite andb_true_iff, Nat.ltb_lt, <- Hiff. tauto.
Qed.

End ProgressBarFacts.

(* ===================================================================== *)
(** ** How an ingestion pass ends *)
(* ===================================================================== *)

Module IngestionPassFacts.
Import JS Model StringFacts Kept.
Import IngestionProcess.

Lemma tryBlock_keeps_apiError (resp : response) (st st2 : state) :
  apiError st = None -> tryBlock resp st = Normal st2 -> apiError st2 = None.
Proof.
  intros H E. rewrite (proj2 (PassFacts.tryBlock_normal_flags _ _ _ E)).
  exact H.
Qed.

Lemma no_pending_after_markFailed (fs : list FileData) :
  Wizard.canProceed 5 (map markFailed fs) = true /\
  pendingCount (map markFailed fs) = 0.
Proof.
  split.
  - unfold Wizard.canProceed. apply forallb_forall. intros x Hx.
    apply filter_In in Hx. destruct Hx as [Hx _].
    apply in_map_iff in Hx. destruct Hx as [f [<- _]].
    rewrite FailureFacts.markFailed_not_pending. reflexivity.
  - unfold pendingCount. rewrite CountFacts.filter_none; [reflexivity|].
    apply Forall_forall. intros x Hx. unfold selectedFiles in Hx.
    apply filter_In in Hx. destruct Hx as [Hx _].
    apply in_map_iff in Hx. destruct Hx as [f [<- _]].
    apply FailureFacts.markFailed_not_pending.
Qed.

(** X7.  After an ingestion pass for at least one file that does not
    tear the page down, [apiError] is [null] exactly when the [try] block
    ran to its end.  When [apiError] holds an error, no file is pending
    any more: the counter of pending files is 0 and [canProceed] of step
    5 of the page of six steps is true. *)
Theorem failed_pass_leaves_nothing_pending
    (filesToProcess : list FileData) (resp : response) (st st' : state) :
  filesToProcess <> [] ->
  handleIngestion filesToProcess resp st = Some st' ->
  renderThrows st' = false ->
  (apiError st' = None <->
   exists st2, tryBlock resp (begin filesToProcess st) = Normal st2) /\
  (apiError st' <> None ->
   Wizard.canProceed 5 (files st') = true /\ pendingCount (files st') = 0).
Proof.
  intros Hne Hrun _. unfold handleIngestion in Hrun.
  destruct filesToProcess as [|f0 rest]; [contradiction|].
  destruct (tryBlock resp (begin (f0 :: rest) st)) as [st2|e st2|] eqn:E;
    [| |discriminate]; inversion Hrun; subst st'; clear Hrun.
  - assert (A : apiError st2 = None)
      by (apply (tryBlock_keeps_apiError resp (begin (f0 :: rest) st));
          [reflexivity|exact E]).
    split.
    + split; [intros _; eauto|intros _; exact A].
    + intros C. simpl in C. contradiction.
  - split.
    + split; [discriminate|intros [s C]; discriminate].
    + intros _. simpl. apply no_pending_after_markFailed.
Qed.

Lemma failed_pass_leaves_nothing_pending_witness :
  let fs := [Scenario.fileA; Scenario.fileB] in
  let resp := Body [Scenario.frame "{'fileId':'A','status':'success'}"]
                (Some (Text (js "network error"))) in
  let st := Scenario.ingestion0 fs in
  let st' :=
    setIsIngesting false
      (onCatch (Text (js "network error"))
         (setProgress Undefined
            (setFiles
               (map (applyEvent (Str (js "A")) (Str (js "success"))
                       Undefined Undefined))
               (begin fs st)))) in
  fs <> [] /\
  handleIngestion fs resp st = Some st' /\
  renderThrows st' = false /\
  ((apiError st' = None <->
    exists st2, tryBlock resp (begin fs st) = Normal st2) /\
   (apiError st' <> None ->
    Wizard.canProceed 5 (files st') = true /\ pendingCount (files st') = 0)).
Proof.
  intros fs resp st st'.
  assert (H1 : fs <> []) by discriminate.
  assert (H2 : handleIngestion fs resp st = Some st') by reflexivity.
  assert (H3 : renderThrows st' = false) by reflexivity.
  split; [exact H1|]. split; [exact H2|]. split; [exact H3|].
  exact (failed_pass_leaves_nothing_pending fs resp st st' H1 H2 H3).
Defined.

(** X8.  When the request is turned down before any chunk is read (the
    fetch rejects, the answer is not OK, or it has no body), the pass
    still ends; one error is kept, the progress stays at the 0 set when
    the pass began, and every file whose id is the id of a submitted file
    ends failed, with the connection message and no details. *)
Theorem refused_request_fails_submitted_files
    (filesToProcess : list FileData) (resp : response) (st : state) :
  filesToProcess <> [] ->
  refused resp = true ->
  exists e st',
    handleIngestion filesToProcess resp st = Some st' /\
    apiError st' = Some e /\
    progress st' = Num 0 /\
    files st'
    = map (fun f => markFailed (markPending filesToProcess f)) (files st) /\
    forall f,
      existsb (fun p => str_eqb (id p) (id f)) filesToProcess = true ->
      ingestionStatus (markFailed (markPending filesToProcess f))
      = Str (js "failed") /\
      error (markFailed (markPending filesToProcess f))
      = Str (js "Connection error during ingestion.") /\
      ingestionDetails (markFailed (markPending filesToProcess f)) = Null.
Proof.
  intros Hne Href.
  assert (Hsub : forall f,
             existsb (fun p => str_eqb (id p) (id f)) filesToProcess = true ->
             ingestionStatus (markFailed (markPending filesToProcess f))
             = Str (js "failed") /\
             error (markFailed (markPending filesToProcess f))
             = Str (js "Connection error during ingestion.") /\
             ingestionDetails (markFailed (markPending filesToProcess f))
             = Null).
  { intros f Hf. unfold markPending. rewrite Hf. repeat split. }
  assert (Hthrow : exists e,
             tryBlock resp (begin filesToProcess st)
             = Throw e (begin filesToProcess st)).
  { unfold tryBlock. destruct resp as [e|s1 s2 body| |chunks ending];
      [eauto| |eauto|discriminate].
    destruct (JSON.parse body) as [errorData|]; [|eauto].
    destruct (getProp errorData (js "detail")); eauto. }
  destruct Hthrow as [e He].
  exists e. eexists. unfold handleIngestion.
  destruct filesToProcess as [|f0 rest]; [contradiction|].
  rewrite He.
  split; [reflexivity|]. split; [reflexivity|]. split; [reflexivity|].
  split; [|exact Hsub].
  simpl. rewrite map_map. reflexivity.
Qed.

Lemma refused_request_fails_submitted_files_witness :
  let fs := [Scenario.fileA; Scenario.fileB] in
  let resp := NotOk (js "500") (js "Internal Server Error")
                (jsq "{'detail':'database is down'}") in
  let st := Scenario.ingestion0 fs in
  [Scenario.fileA] <> [] /\
  refused resp = true /\
  exists e st',
    handleIngestion [Scenario.fileA] resp st = Some st' /\
    apiError st' = Some e /\
    progress st' = Num 0 /\
    files st'
    = map (fun f => markFailed (markPending [Scenario.fileA] f)) (files st) /\
    forall f,
      existsb (fun p => str_eqb (id p) (id f)) [Scenario.fileA] = true ->
      ingestionStatus (markFailed (markPending [Scenario.fileA] f))
      = Str (js "failed") /\
      error (markFailed (markPending [Scenario.fileA] f))
      = Str (js "Connection error during ingestion.") /\
      ingestionDetails (markFailed (markPending [Scenario.fileA] f)) = Null.
Proof.
  intros fs resp st.
  assert (H1 : [Scenario.fileA] <> []) by discriminate.
  assert (H2 : refused resp = true) by reflexivity.
  split; [exact H1|]. split; [exact H2|].
  exact (refused_request_fails_submitted_files [Scenario.fileA] resp st H1 H2).
Defined.

Lemma markPending_failed_member (failed : list FileData) (f : FileData) :
  In f failed ->
  markPending failed f = withIngestion f (Str (js "pending")) Null Undefined.
Proof.
  intros Hin. unfold markPending.
  assert (E : existsb (fun p => str_eqb (id p) (id f)) failed = true).
  { apply existsb_exists. exists f. split; [assumption|apply str_eqb_refl]. }
  rewrite E. reflexivity.
Qed.

(** X9.  When a retry pass begins, every file that was failed is set to
    pending with no details and no error, so the counter of failed files
    is 0; a file whose id is the id of no failed file stays as it was. *)
Theorem retry_turns_failed_into_pending (st : state) :
  let failed :=
    filter (fun f => strict_eq_str (js "failed") (ingestionStatus f))
      (files st) in
  let fs' := files (begin failed st) in
  fs' = map (markPending failed) (files st) /\
  failedCount fs' = 0 /\
  (forall f, In f (files st) ->
             strict_eq_str (js "failed") (ingestionStatus f) = true ->
             markPending failed f
             = withIngestion f (Str (js "pending")) Null Undefined) /\
  (forall f, existsb (fun p => str_eqb (id p) (id f)) failed = false ->
             markPending failed f = f).
Proof.
  intros failed fs'.
  assert (Hmem : forall f, In f (files st) ->
                   strict_eq_str (js "failed") (ingestionStatus f) = true ->
                   markPending failed f
                   = withIngestion f (Str (js "pending")) Null Undefined).
  { intros f Hin Hf. apply markPending_failed_member.
    unfold failed. apply filter_In. split; assumption. }
  split; [reflexivity|]. split; [|split; [exact Hmem|]].
  - unfold failedCount. rewrite CountFacts.filter_none; [reflexivity|].
    apply Forall_forall. intros x Hx. unfold selectedFiles in Hx.
    apply filter_In in Hx. destruct Hx as [Hx _].
    unfold fs' in Hx. simpl in Hx.
    apply in_map_iff in Hx. destruct Hx as [f [<- Hf]].
    destruct (strict_eq_str (js "failed") (ingestionStatus f)) eqn:E.
    + rewrite (Hmem f Hf E). reflexivity.
    + unfold markPending. destruct (existsb _ failed); [reflexivity|exact E].
  - intros f Hf. unfold markPending. rewrite Hf. reflexivity.
Qed.

End IngestionPassFacts.

(* ===================================================================== *)
(** ** Expanding rows, stepping through the wizard, choosing files *)
(* ===================================================================== *)

Module ScreenFacts.
Import JS Model StringFacts Kept.

Lemma has_In (s : list jsstring) (x : jsstring) :
  ExpandedFiles.has s x = true <-> In x s.
Proof.
  unfold ExpandedFiles.has. rewrite existsb_exists. split.
  - intros [y [Hy E]]. apply str_eqb_eq in E. subst. exact Hy.
  - intros H. exists x. split; [exact H|apply str_eqb_refl].
Qed.

Lemma has_false_In (s : list jsstring) (x : jsstring) :
  ExpandedFiles.has s x = false <-> ~ In x s.
Proof.
  rewrite <- has_In. destruct (ExpandedFiles.has s x); split;
    congruence.
Qed.

Lemma str_eqb_neq (x y : jsstring) : x <> y -> str_eqb x y = false.
Proof.
  intros H. destruct (str_eqb x y) eqn:E; [|reflexivity].
  apply str_eqb_eq in E. contradiction.
Qed.

Lemma delete_In (s : list jsstring) (x y : jsstring) :
  In y (ExpandedFiles.delete s x) <-> In y s /\ y <> x.
Proof.
  unfold ExpandedFiles.delete. rewrite filter_In. split.
  - intros [H E]. split; [exact H|]. intros ->.
    rewrite str_eqb_refl in E. discriminate.
  - intros [H E]. split; [exact H|].
    rewrite str_eqb_neq; [reflexivity|congruence].
Qed.

Lemma delete_length (s : list jsstring) (x : jsstring) :
  NoDup s -> In x s ->
  S (length (ExpandedFiles.delete s x)) = length s.
Proof.
  intros Hnd. induction Hnd as [|a s Ha Hnd IH]; intros Hin;
    [contradiction|].
  simpl. destruct (str_eqb x a) eqn:E; simpl.
  - apply str_eqb_eq in E. subst a. f_equal.
    unfold ExpandedFiles.delete in *.
    rewrite CountFacts.filter_all; [reflexivity|].
    apply Forall_forall. intros y Hy.
    rewrite str_eqb_neq; [reflexivity|]. intros ->. contradiction.
  - f_equal. apply IH. destruct Hin as [->|Hin]; [|exact Hin].
    rewrite str_eqb_refl in E. discriminate.
Qed.

(** X10.  [toggleFileExpansion] flips whether the row of [fileId] is
    expanded and leaves every other row as it was; the set stays free of
    duplicates and its size changes by exactly one. *)
Theorem toggleFileExpansion_flips_one_row
    (expandedFiles : list jsstring) (fileId : jsstring) :
  NoDup expandedFiles ->
  let s' := ExpandedFiles.toggleFileExpansion expandedFiles fileId in
  NoDup s' /\
  ExpandedFiles.has s' fileId
  = negb (ExpandedFiles.has expandedFiles fileId) /\
  (forall y, y <> fileId ->
             ExpandedFiles.has s' y = ExpandedFiles.has expandedFiles y) /\
  (if ExpandedFiles.has expandedFiles fileId
   then S (length s') = length expandedFiles
   else length s' = S (length expandedFiles)).
Proof.
  intros Hnd s'. unfold s', ExpandedFiles.toggleFileExpansion.
  destruct (ExpandedFiles.has expandedFiles fileId) eqn:E.
  - apply has_In in E. repeat split.
    + unfold ExpandedFiles.delete. apply NoDup_filter. exact Hnd.
    + apply has_false_In. rewrite delete_In. tauto.
    + intros y Hy.
      destruct (ExpandedFiles.has expandedFiles y) eqn:Ey.
      * apply has_In. apply has_In in Ey. rewrite delete_In. tauto.
      * apply has_false_In. apply has_false_In in Ey.
        rewrite delete_In. tauto.
    + apply delete_length; assumption.
  - unfold ExpandedFiles.add. rewrite E.
    apply has_false_In in E. repeat split.
    + apply NoDup_app; [exact Hnd|repeat constructor; intros []|].
      intros a Ha [<-|[]]. contradiction.
    + apply has_In. apply in_or_app. right. left. reflexivity.
    + intros y Hy.
      destruct (ExpandedFiles.has expandedFiles y) eqn:Ey.
      * apply has_In. apply has_In in Ey. apply in_or_app. tauto.
      * apply has_false_In. apply has_false_In in Ey.
        intros H. apply in_app_or in H. destruct H as [H|[H|[]]];
          [contradiction|congruence].
    + rewrite length_app. simpl. lia.
Qed.

Lemma toggleFileExpansion_flips_one_row_witness :
  let s := [js "A"; js "B"] in
  NoDup s /\
  (let s' := ExpandedFiles.toggleFileExpansion s (js "A") in
   NoDup s' /\
   ExpandedFiles.has s' (js "A") = negb (ExpandedFiles.has s (js "A")) /\
   (forall y, y <> js "A" ->
              ExpandedFiles.has s' y = ExpandedFiles.has s y) /\
   (if ExpandedFiles.has s (js "A")
    then S (length s') = length s
    else length s' = S (length s))).
Proof.
  intros s.
  assert (H : NoDup s).
  { repeat constructor; simpl; intros C;
      repeat (destruct C as [C|C]; [discriminate|]); exact C. }
  split; [exact H|].
  exact (toggleFileExpansion_flips_one_row s (js "A") H).
Defined.

Lemma clicks_range (next prev : nat -> nat) (lo hi : nat) :
  (forall s, lo <= s <= hi -> lo <= next s <= hi) ->
  (forall s, lo <= s <= hi -> lo <= prev s <= hi) ->
  forall cs s, lo <= s <= hi -> lo <= clicks next prev cs s <= hi.
Proof.
  intros Hn Hp cs. unfold clicks.
  induction cs as [|c cs IH]; intros s Hs; simpl; [exact Hs|].
  apply IH. destruct c; auto.
Qed.

(** X11.  The wizard starts at step 1 and only moves by its Next and
    Previous buttons: whatever is clicked, the page of six steps stays
    within steps 1 to 6 and the page of five within 1 to 5; Previous
    undoes Next below the last step, and Next undoes Previous above the
    first. *)
Theorem wizard_step_stays_in_range (cs : list click) (step : nat) :
  1 <= step <= 5 ->
  1 <= clicks Wizard.nextStep Wizard.prevStep cs step <= 6 /\
  1 <= clicks WizardFive.nextStep WizardFive.prevStep cs step <= 5 /\
  Wizard.prevStep (Wizard.nextStep step) = step /\
  (1 < step -> Wizard.nextStep (Wizard.prevStep step) = step).
Proof.
  intros Hs. split; [|split; [|split]].
  - apply (clicks_range _ _ 1 6); [| |lia].
    + intros s H. unfold Wizard.nextStep.
      destruct (Nat.ltb_spec s 6); lia.
    + intros s H. unfold Wizard.prevStep.
      destruct (Nat.ltb_spec 1 s); lia.
  - apply (clicks_range _ _ 1 5); [| |lia].
    + intros s H. unfold WizardFive.nextStep, WizardFive.steps_length.
      destruct (Nat.ltb_spec s 5); lia.
    + intros s H. unfold WizardFive.prevStep.
      destruct (Nat.ltb_spec 1 s); lia.
  - unfold Wizard.nextStep.
    destruct (Nat.ltb_spec step 6); [|lia].
    unfold Wizard.prevStep. destruct (Nat.ltb_spec 1 (step + 1)); lia.
  - intros H1. unfold Wizard.prevStep.
    destruct (Nat.ltb_spec 1 step); [|lia].
    unfold Wizard.nextStep. destruct (Nat.ltb_spec (step - 1) 6); lia.
Qed.

Lemma wizard_step_stays_in_range_witness :
  let cs := [Next; Next; Previous; Next; Next; Next; Next; Next; Next] in
  1 <= 1 <= 5 /\
  (1 <= clicks Wizard.nextStep Wizard.prevStep cs 1 <= 6 /\
   1 <= clicks WizardFive.nextStep WizardFive.prevStep cs 1 <= 5 /\
   Wizard.prevStep (Wizard.nextStep 1) = 1 /\
   (1 < 1 -> Wizard.nextStep (Wizard.prevStep 1) = 1)).
Proof.
  intros cs.
  assert (H : 1 <= 1 <= 5) by lia.
  split; [exact H|].
  exact (wizard_step_stays_in_range cs 1 H).
Defined.

Lemma withSelected_twice (f : FileData) :
  FileSelectionForIngestion.withSelected
    (FileSelectionForIngestion.withSelected f (negb (selected f)))
    (negb (negb (selected f))) = f.
Proof. destruct f as [i n s p q a e st d]. simpl. destruct s; reflexivity. Qed.

(** X12.  Ticking the box of a file twice gives back the very file list;
    one tick keeps the number of processed files shown. *)
Theorem toggleFileSelection_twice (fileId : jsstring) (files : list FileData) :
  FileSelectionForIngestion.toggleFileSelection fileId
    (FileSelectionForIngestion.toggleFileSelection fileId files) = files /\
  FileSelectionForIngestion.totalCount
    (FileSelectionForIngestion.toggleFileSelection fileId files)
  = FileSelectionForIngestion.totalCount files.
Proof.
  split.
  - unfold FileSelectionForIngestion.toggleFileSelection.
    rewrite map_map. rewrite <- (map_id files) at 2.
    apply map_ext. intros f.
    destruct (str_eqb (id f) fileId) eqn:E; simpl; rewrite E;
      [apply withSelected_twice|reflexivity].
  - unfold FileSelectionForIngestion.totalCount,
      FileSelectionForIngestion.processedFiles,
      FileSelectionForIngestion.toggleFileSelection.
    induction files as [|f fs IH]; simpl; [reflexivity|].
    destruct (str_eqb (id f) fileId); simpl;
      destruct (processed f); simpl; rewrite IH; reflexivity.
Qed.

(** X13.  The box in the table header acts on processed files only:
    checked, every processed file is selected and the count of selected
    files is the count of processed files; unchecked, the count is 0.  A
    file that is not processed stays as it was, and so does the number of
    processed files. *)
Theorem toggleAllFiles_counts (checked : bool) (files : list FileData) :
  FileSelectionForIngestion.totalCount
    (FileSelectionForIngestion.toggleAllFiles checked files)
  = FileSelectionForIngestion.totalCount files /\
  FileSelectionForIngestion.selectedCount
    (FileSelectionForIngestion.toggleAllFiles checked files)
  = (if checked then FileSelectionForIngestion.totalCount files else 0) /\
  Forall2 (fun f g => processed f = false -> g = f) files
    (FileSelectionForIngestion.toggleAllFiles checked files).
Proof.
  unfold FileSelectionForIngestion.totalCount,
    FileSelectionForIngestion.selectedCount,
    FileSelectionForIngestion.processedFiles,
    FileSelectionForIngestion.toggleAllFiles.
  induction files as [|f fs [IH1 [IH2 IH3]]]; simpl.
  - destruct checked; repeat split; constructor.
  - destruct (processed f) eqn:E; simpl; rewrite ?E; simpl.
    + split; [rewrite IH1; reflexivity|]. split.
      * destruct checked; simpl; rewrite IH2; reflexivity.
      * constructor; [congruence|exact IH3].
    + split; [exact IH1|]. split; [exact IH2|].
      constructor; [reflexivity|exact IH3].
Qed.

(** X14.  When [autoAdvanceToSummary] finds the ingestion complete, it
    schedules step 6 from step 5; the Next button of step 5 is then
    enabled and the ingestion screen counts no pending file. *)
Theorem auto_advance_implies_can_proceed (files : list FileData) :
  Wizard.allIngestionComplete files = true ->
  Wizard.autoAdvanceToSummary 5 files = Some 6 /\
  Wizard.canProceed 5 files = true /\
  IngestionProcess.pendingCount files = 0.
Proof.
  intros H. unfold Wizard.autoAdvanceToSummary. rewrite H.
  split; [reflexivity|].
  unfold Wizard.allIngestionComplete in H.
  apply andb_true_iff in H. destruct H as [_ H].
  rewrite forallb_forall in H.
  assert (Hnp : forall f, In f files -> selected f = true ->
                  strict_eq_str (js "pending") (ingestionStatus f) = false).
  { intros f Hin Hsel.
    assert (Hf : In f (filter selected files))
      by (apply filter_In; split; assumption).
    specialize (H f Hf).
    destruct (CountFacts.status_exclusive (ingestionStatus f))
      as [H1 [H2 _]].
    destruct (strict_eq_str (js "pending") (ingestionStatus f));
      [|reflexivity].
    simpl in H1, H2. rewrite H1, H2 in H. discriminate. }
  split.
  - unfold Wizard.canProceed. apply forallb_forall. intros f Hf.
    apply filter_In in Hf. destruct Hf as [Hin Hsel].
    rewrite (Hnp f Hin Hsel). reflexivity.
  - unfold IngestionProcess.pendingCount.
    rewrite CountFacts.filter_none; [reflexivity|].
    apply Forall_forall. intros f Hf.
    unfold IngestionProcess.selectedFiles in Hf.
    apply filter_In in Hf. destruct Hf as [Hin Hsel].
    apply andb_true_iff in Hsel. destruct Hsel as [Hsel _].
    exact (Hnp f Hin Hsel).
Qed.

Lemma auto_advance_implies_can_proceed_witness :
  let done :=
    IngestionProcess.withIngestion Scenario.fileA (Str (js "success"))
      Undefined Undefined in
  Wizard.allIngestionComplete [done] = true /\
  (Wizard.autoAdvanceToSummary 5 [done] = Some 6 /\
   Wizard.canProceed 5 [done] = true /\
   IngestionProcess.pendingCount [done] = 0).
Proof.
  intros done.
  assert (H : Wizard.allIngestionComplete [done] = true) by reflexivity.
  split; [exact H|].
  exact (auto_advance_implies_can_proceed [done] H).
Defined.

End ScreenFacts.

(* ===================================================================== *)
(** ** The ingestion request answered in one piece *)
(* ===================================================================== *)

Module BatchFacts.
Import JS Model StringFacts Kept.
Import IngestionProcess.

Lemma batch_markFailed_not_pending (f : FileData) :
  strict_eq_str (js "pending")
    (ingestionStatus (IngestionProcessBatch.markFailed f)) = false.
Proof.
  unfold IngestionProcessBatch.markFailed.
  destruct (strict_eq_str (js "pending") (ingestionStatus f)) eqn:E;
    [reflexivity|exact E].
Qed.

Lemma tryBlock_unreadable (clock : nat -> jsstring) (resp : response)
    (st : state) :
  unreadable resp = true ->
  exists e, IngestionProcessBatchRequest.tryBlock clock resp st = inr (e, st).
Proof.
  unfold unreadable, IngestionProcessBatchRequest.tryBlock.
  destruct resp as [e|s1 s2 body| |chunks [e|]]; intros H; eauto.
  - destruct (JSON.parse body) as [errorData|]; [|eauto].
    destruct (getProp errorData (js "detail")); eauto.
  - destruct (JSON.parse _) as [resultData|]; [|eauto].
    destruct resultData; try discriminate; simpl; eauto.
Qed.

(** X15.  When the request of the batch ingestion gets no answer that
    can be read, the pass for at least one file ends in its [catch] block
    and hands no throwing function to [setFiles]: the progress is 100 and
    the busy flag off, an error is kept, no file of the list is left
    pending, and every file whose id is the id of a submitted file ends
    failed with the message API connection failed and no details. *)
Theorem unanswered_batch_fails_submitted_files
    (clock : nat -> jsstring) (filesToProcess : list FileData)
    (resp : response) (st : state) :
  filesToProcess <> [] ->
  unreadable resp = true ->
  let st' :=
    IngestionProcessBatchRequest.handleIngestion clock filesToProcess resp st in
  progress st' = Num 100 /\ isIngesting st' = false /\
  renderThrows st' = renderThrows st /\
  apiError st' <> None /\
  files st'
  = map (fun f => IngestionProcessBatch.markFailed
                    (markPending filesToProcess f)) (files st) /\
  Forall (fun f => strict_eq_str (js "pending") (ingestionStatus f) = false)
    (files st') /\
  IngestionProcessBatch.pendingCount (files st') = 0 /\
  forall f,
    existsb (fun p => str_eqb (id p) (id f)) filesToProcess = true ->
    let g := IngestionProcessBatch.markFailed (markPending filesToProcess f) in
    ingestionStatus g = Str (js "failed") /\
    error g = Str (js "API connection failed") /\
    ingestionDetails g = Null.
Proof.
  intros Hne Hun st'.
  assert (Hsub : forall f,
     existsb (fun p => str_eqb (id p) (id f)) filesToProcess = true ->
     let g := IngestionProcessBatch.markFailed (markPending filesToProcess f) in
     ingestionStatus g = Str (js "failed") /\
     error g = Str (js "API connection failed") /\
     ingestionDetails g = Null).
  { intros f Hf g. unfold g, markPending. rewrite Hf. repeat split. }
  revert Hsub.
  unfold st', IngestionProcessBatchRequest.handleIngestion.
  destruct filesToProcess as [|f0 rest]; [contradiction|].
  intros Hsub.
  destruct (tryBlock_unreadable clock resp
              (IngestionProcessBatchRequest.begin (f0 :: rest) st) Hun)
    as [e He].
  rewrite He.
  split; [reflexivity|]. split; [reflexivity|]. split; [reflexivity|].
  simpl.
  split; [discriminate|].
  split; [rewrite map_map; reflexivity|].
  assert (Hnp : Forall
            (fun f => strict_eq_str (js "pending") (ingestionStatus f) = false)
            (map IngestionProcessBatch.markFailed
               (map (IngestionProcessBatchRequest.markPending (f0 :: rest))
                  (files st)))).
  { apply Forall_forall. intros x Hx. apply in_map_iff in Hx.
    destruct Hx as [f [<- _]]. apply batch_markFailed_not_pending. }
  split; [exact Hnp|]. split.
  - unfold IngestionProcessBatch.pendingCount.
    rewrite CountFacts.filter_none; [reflexivity|].
    apply Forall_forall. intros x Hx.
    unfold IngestionProcessBatch.selectedFiles in Hx.
    apply filter_In in Hx. destruct Hx as [Hx _].
    rewrite Forall_forall in Hnp. apply Hnp. exact Hx.
  - exact Hsub.
Qed.

Lemma unanswered_batch_fails_submitted_files_witness :
  let fs := [Scenario.fileA; Scenario.fileB] in
  let resp := Body [bytesq "<html>Bad Gateway</html>"] None in
  let st := Scenario.ingestion0 fs in
  let st' :=
    IngestionProcessBatchRequest.handleIngestion (fun _ => js "t")
      [Scenario.fileA] resp st in
  [Scenario.fileA] <> [] /\
  unreadable resp = true /\
  (progress st' = Num 100 /\ isIngesting st' = false /\
   renderThrows st' = renderThrows st /\
   apiError st' <> None /\
   files st'
   = map (fun f => IngestionProcessBatch.markFailed
                     (markPending [Scenario.fileA] f)) (files st) /\
   Forall (fun f => strict_eq_str (js "pending") (ingestionStatus f) = false)
     (files st') /\
   IngestionProcessBatch.pendingCount (files st') = 0 /\
   forall f,
     existsb (fun p => str_eqb (id p) (id f)) [Scenario.fileA] = true ->
     let g := IngestionProcessBatch.markFailed
                (markPending [Scenario.fileA] f) in
     ingestionStatus g = Str (js "failed") /\
     error g = Str (js "API connection failed") /\
     ingestionDetails g = Null).
Proof.
  intros fs resp st st'.
  assert (H1 : [Scenario.fileA] <> []) by discriminate.
  assert (H2 : unreadable resp = true) by reflexivity.
  split; [exact H1|]. split; [exact H2|].
  exact (unanswered_batch_fails_submitted_files (fun _ => js "t")
           [Scenario.fileA] resp st H1 H2).
Defined.

Lemma findIndex_first (p : FileData -> bool) (l : list FileData) (i : nat) :
  IngestionProcessBatchRequest.findIndex p l = Some i ->
  (exists g, nth_error l i = Some g /\ p g = true) /\
  forall j h, j < i -> nth_error l j = Some h -> p h = false.
Proof.
  revert i. induction l as [|f l IH]; intros i H; simpl in H;
    [discriminate|].
  destruct (p f) eqn:E.
  - inversion H. subst i. split; [exists f; split; [reflexivity|exact E]|].
    intros j h Hj. lia.
  - destruct (IngestionProcessBatchRequest.findIndex p l) as [k|];
      [|discriminate].
    inversion H. subst i. destruct (IH k eq_refl) as [[g [Hg Hp]] Hlt].
    split; [exists g; split; assumption|].
    intros [|j] h Hj Hh; simpl in Hh.
    + inversion Hh. subst h. exact E.
    + apply (Hlt j h); [lia|exact Hh].
Qed.

Lemma nth_error_updateAt_other (g : FileData -> FileData)
    (l : list FileData) (i n : nat) :
  n <> i ->
  nth_error (IngestionProcessBatchRequest.updateAt i g l) n = nth_error l n.
Proof.
  revert i n. induction l as [|f l IH]; intros i n H;
    [destruct i; reflexivity|].
  destruct i as [|i], n as [|n]; simpl; try reflexivity;
    [contradiction|].
  apply IH. congruence.
Qed.

Lemma updateAt_keeps (g : FileData -> FileData) (l : list FileData) (i : nat) :
  (forall f, sameButIngestion f (g f)) ->
  Forall2 sameButIngestion l (IngestionProcessBatchRequest.updateAt i g l).
Proof.
  intros Hg. revert i. induction l as [|f l IH]; intros i;
    [destruct i; constructor|].
  destruct i as [|i]; simpl; constructor; auto.
  - apply PassFacts.Forall2_same. apply PassFacts.sameButIngestion_refl.
  - apply PassFacts.sameButIngestion_refl.
Qed.

Lemma Forall2_nth_error (R : FileData -> FileData -> Prop)
    (l l' : list FileData) (n : nat) (f : FileData) :
  Forall2 R l l' -> nth_error l n = Some f ->
  exists f', nth_error l' n = Some f' /\ R f f'.
Proof.
  intros H. revert n. induction H as [|x y l l' Hxy _ IH]; intros n Hn.
  - destruct n; discriminate.
  - destruct n as [|n]; simpl in *.
    + inversion Hn. subst. eauto.
    + apply IH. exact Hn.
Qed.

Lemma Forall2_sameButIngestion_trans (l1 l2 l3 : list FileData) :
  Forall2 sameButIngestion l1 l2 -> Forall2 sameButIngestion l2 l3 ->
  Forall2 sameButIngestion l1 l3.
Proof.
  intros H. revert l3. induction H as [|x y l l' Hxy _ IH]; intros l3 H23;
    inversion H23; subst; constructor; [|auto].
  unfold sameButIngestion in *.
  repeat match goal with H : _ /\ _ |- _ => destruct H end.
  repeat split; congruence.
Qed.

(** The files one result leaves alone. *)
Lemma applyResult_first_of_name (now : jsstring) (result : value)
    (fs fs1 : list FileData) :
  IngestionProcessBatchRequest.applyResult now result fs = inl fs1 ->
  Forall2 sameButIngestion fs fs1 /\
  forall n f, nth_error fs n = Some f ->
    strict_eq_str (name f) (ProcessingCommon.prop result (js "fileName"))
    = false \/
    (exists m g, m < n /\ nth_error fs m = Some g /\ name g = name f) ->
    nth_error fs1 n = Some f.
Proof.
  unfold IngestionProcessBatchRequest.applyResult, ProcessingCommon.prop.
  destruct fs as [|f0 rest] eqn:Efs.
  - intros H. inversion H. split; [constructor|]. intros n f Hn.
    destruct n; discriminate.
  - rewrite <- Efs. clear Efs.
    destruct (getProp result (js "fileName")) as [fileName|]; [|discriminate].
    destruct (IngestionProcessBatchRequest.findIndex _ fs) as [k|] eqn:Ek.
    + intros H. inversion H. subst fs1. clear H. split.
      * apply updateAt_keeps. intros f.
        apply PassFacts.sameButIngestion_with.
        apply PassFacts.sameButIngestion_refl.
      * intros n f Hn Hc.
        rewrite nth_error_updateAt_other; [exact Hn|].
        intros ->. apply findIndex_first in Ek.
        destruct Ek as [[g [Hg Hp]] Hlt].
        rewrite Hn in Hg. inversion Hg. subst g.
        destruct Hc as [Hc|[m [h [Hm [Hh Hname]]]]]; [congruence|].
        specialize (Hlt m h Hm Hh). simpl in Hlt.
        rewrite Hname in Hlt. congruence.
    + intros H. inversion H. subst fs1. split.
      * apply PassFacts.Forall2_same. apply PassFacts.sameButIngestion_refl.
      * intros n f Hn _. exact Hn.
Qed.

(** X16.  The answer of the batch ingestion is merged by file name: the
    list keeps its length and each file its id, name, selection and
    processing results; a file named by no result stays as it was, and
    so does every file that shares its name with an earlier file of the
    list, which is never updated. *)
Theorem results_update_first_file_of_name
    (clock : nat -> jsstring) (i : nat) (results : list value)
    (fs fs' : list FileData) :
  IngestionProcessBatchRequest.applyResults clock i results fs = inl fs' ->
  Forall2 sameButIngestion fs fs' /\
  forall n f, nth_error fs n = Some f ->
    Forall (fun result =>
              strict_eq_str (name f)
                (ProcessingCommon.prop result (js "fileName")) = false)
      results \/
    (exists m g, m < n /\ nth_error fs m = Some g /\ name g = name f) ->
    nth_error fs' n = Some f.
Proof.
  revert i fs. induction results as [|result rest IH]; intros i fs H;
    simpl in H.
  - inversion H. subst fs'. split.
    + apply PassFacts.Forall2_same. apply PassFacts.sameButIngestion_refl.
    + intros n f Hn _. exact Hn.
  - destruct (IngestionProcessBatchRequest.applyResult (clock i) result fs)
      as [fs1|e] eqn:E1; [|discriminate].
    apply applyResult_first_of_name in E1. destruct E1 as [K1 U1].
    apply IH in H. destruct H as [K2 U2].
    split; [exact (Forall2_sameButIngestion_trans _ _ _ K1 K2)|].
    intros n f Hn Hc. apply U2.
    + apply (U1 n f Hn). destruct Hc as [Hc|Hc]; [|right; exact Hc].
      left. inversion Hc. assumption.
    + destruct Hc as [Hc|[m [g [Hm [Hg Hname]]]]].
      * left. inversion Hc. assumption.
      * right. destruct (Forall2_nth_error _ _ _ m g K1 Hg)
          as [g' [Hg' Hs]].
        exists m, g'. split; [exact Hm|]. split; [exact Hg'|].
        unfold sameButIngestion in Hs. destruct Hs as [_ [Hs _]]. congruence.
Qed.

Lemma results_update_first_file_of_name_witness :
  let twin :=
    {| id := js "C"; name := js "a.pdf"; selected := true; processed := true;
       qualityMetrics := Undefined; analysis := Undefined;
       error := Undefined; ingestionStatus := Str (js "pending");
       ingestionDetails := Null |} in
  let first :=
    {| id := js "A"; name := js "a.pdf"; selected := true; processed := true;
       qualityMetrics := Undefined; analysis := Undefined;
       error := Undefined; ingestionStatus := Str (js "pending");
       ingestionDetails := Null |} in
  let results :=
    [Obj [(js "fileName", Str (js "a.pdf")); (js "status", Str (js "success"))];
     Obj [(js "fileName", Str (js "a.pdf")); (js "status", Str (js "success"))]]
  in
  let fs' :=
    [withIngestion first (Str (js "success")) Null Undefined; twin] in
  IngestionProcessBatchRequest.applyResults (fun _ => js "t") 0 results
    [first; twin] = inl fs' /\
  (Forall2 sameButIngestion [first; twin] fs' /\
   forall n f, nth_error [first; twin] n = Some f ->
     Forall (fun result =>
               strict_eq_str (name f)
                 (ProcessingCommon.prop result (js "fileName")) = false)
       results \/
     (exists m g, m < n /\ nth_error [first; twin] m = Some g /\
                  name g = name f) ->
     nth_error fs' n = Some f).
Proof.
  intros twin first results fs'.
  assert (H : IngestionProcessBatchRequest.applyResults (fun _ => js "t") 0
                results [first; twin] = inl fs') by reflexivity.
  split; [exact H|].
  exact (results_update_first_file_of_name (fun _ => js "t") 0 results
           [first; twin] fs' H).
Defined.

Lemma lookup_app_last (k : jsstring) (fields : list (jsstring * value))
    (v : value) :
  lookup k (fields ++ [(k, v)]) = Some v.
Proof.
  induction fields as [|[k' w] fields IH]; simpl.
  - rewrite str_eqb_refl. reflexivity.
  - rewrite IH. reflexivity.
Qed.

Lemma lookup_app_other (k k' : jsstring) (fields : list (jsstring * value))
    (v : value) :
  str_eqb k' k = false ->
  lookup k (fields ++ [(k', v)]) = lookup k fields.
Proof.
  intros H. induction fields as [|[k2 w] fields IH]; simpl.
  - rewrite H. reflexivity.
  - rewrite IH. reflexivity.
Qed.

Lemma stamped_times (now : jsstring) (d : value) :
  getProp (IngestionProcessBatchRequest.stamped now d) (js "startTime")
  = Some (Str now) /\
  getProp (IngestionProcessBatchRequest.stamped now d) (js "endTime")
  = Some (Str now).
Proof.
  unfold IngestionProcessBatchRequest.stamped, getProp. split.
  -
    replace (IngestionProcessBatchRequest.ownProps d
             ++ [(js "startTime", Str now); (js "endTime", Str now)])
      with ((IngestionProcessBatchRequest.ownProps d
             ++ [(js "startTime", Str now)]) ++ [(js "endTime", Str now)])
      by (rewrite <- app_assoc; reflexivity).
    rewrite lookup_app_other by reflexivity.
    rewrite lookup_app_last. reflexivity.
  - replace (IngestionProcessBatchRequest.ownProps d
             ++ [(js "startTime", Str now); (js "endTime", Str now)])
      with ((IngestionProcessBatchRequest.ownProps d
             ++ [(js "startTime", Str now)]) ++ [(js "endTime", Str now)])
      by (rewrite <- app_assoc; reflexivity).
    rewrite lookup_app_last. reflexivity.
Qed.

(** X17.  What the batch ingestion stores as details is what the summary
    lists: nothing for details that are missing, one entry per element
    for an array, one entry otherwise; and every entry listed carries the
    time of the merge as both its start and its end time, whatever the
    answer said. *)
Theorem stored_details_are_stamped (now : jsstring) (details : value) :
  let shown :=
    SummaryView.getIngestionDetailsAsArray
      (IngestionProcessBatchRequest.processIngestionDetails now details) in
  length shown
  = (if negb (truthy details) then 0
     else match details with Arr elems => length elems | _ => 1 end) /\
  Forall (fun entry =>
            getProp entry (js "startTime") = Some (Str now) /\
            getProp entry (js "endTime") = Some (Str now))
    shown.
Proof.
  intros shown. unfold shown, SummaryView.getIngestionDetailsAsArray,
    IngestionProcessBatchRequest.processIngestionDetails.
  destruct (truthy details) eqn:T; simpl; [|split; constructor].
  destruct details as [| |b|q|s|elems|fields]; simpl;
    try (split; [reflexivity|]; constructor;
         [apply stamped_times|constructor]).
  rewrite length_map. split; [reflexivity|].
  apply Forall_forall. intros x Hx. apply in_map_iff in Hx.
  destruct Hx as [d [<- _]]. apply stamped_times.
Qed.

End BatchFacts.

(* ===================================================================== *)
(** ** Numbers of the summary, reset and retry of the processing step *)
(* ===================================================================== *)

Module SummaryFacts.
Import JS Model StringFacts Kept.

Lemma filter_two_rest {A : Type} (p q : A -> bool) (l : list A) :
  (forall x, p x && q x = false) ->
  length (filter p l) + length (filter q l)
  + length (filter (fun x => negb (p x || q x)) l) = length l.
Proof.
  intros H. induction l as [|x l IH]; simpl; [reflexivity|].
  specialize (H x). destruct (p x), (q x); simpl in *; try discriminate; lia.
Qed.

Lemma filter_empty_length {A : Type} (p : A -> bool) (l : list A) :
  length (filter p l) = 0 <-> Forall (fun x => p x = false) l.
Proof.
  induction l as [|x l IH]; simpl.
  - split; [constructor|reflexivity].
  - destruct (p x) eqn:E; simpl.
    + split; [discriminate|]. intros H. inversion H. congruence.
    + rewrite IH. split; [intros H; constructor; assumption|].
      intros H. inversion H. assumption.
Qed.

Lemma filter_and_length {A : Type} (a b : A -> bool) (l : list A) :
  length (filter (fun x => a x && b x) l) <= length (filter b l) /\
  length (filter b l) <= length l.
Proof.
  induction l as [|x l [IH1 IH2]]; simpl; [lia|].
  destruct (a x), (b x); simpl; lia.
Qed.

(** X18.  On the summary screen the successful and the failed ingestions
    never add up to more than the files selected, which are never more
    than the files processed; the two add up to the selection exactly
    when every selected and processed file has ended as success or
    failed.  The two numbers are those the ingestion screen counted. *)
Theorem summary_numbers_add_up (files : list FileData) :
  length (SummaryView.successfulIngestions files)
  + length (SummaryView.failedIngestions files)
  <= length (SummaryView.selectedFiles files) /\
  length (SummaryView.selectedFiles files)
  <= length (SummaryView.processedFiles files) /\
  length (SummaryView.processedFiles files) <= length files /\
  (length (SummaryView.successfulIngestions files)
   + length (SummaryView.failedIngestions files)
   = length (SummaryView.selectedFiles files) <->
   Forall (fun f => strict_eq_str (js "success") (ingestionStatus f)
                    || strict_eq_str (js "failed") (ingestionStatus f) = true)
     (SummaryView.selectedFiles files)) /\
  length (SummaryView.successfulIngestions files)
  = IngestionProcess.successCount files /\
  length (SummaryView.failedIngestions files)
  = IngestionProcess.failedCount files.
Proof.
  unfold SummaryView.successfulIngestions, SummaryView.failedIngestions.
  pose proof (filter_two_rest
                (fun f => strict_eq_str (js "success") (ingestionStatus f))
                (fun f => strict_eq_str (js "failed") (ingestionStatus f))
                (SummaryView.selectedFiles files)
                (fun f => proj2 (proj2
                   (CountFacts.status_exclusive (ingestionStatus f)))))
    as Hsum.
  pose proof (filter_and_length selected processed files) as [H1 H2].
  split; [rewrite <- Hsum; apply Nat.le_add_r|].
  split; [exact H1|]. split; [exact H2|].
  split; [|split; reflexivity].
  split.
  - intros E.
    assert (Z : length (filter
                  (fun f => negb (strict_eq_str (js "success")
                                    (ingestionStatus f)
                                  || strict_eq_str (js "failed")
                                       (ingestionStatus f)))
                  (SummaryView.selectedFiles files)) = 0) by lia.
    apply filter_empty_length in Z.
    eapply Forall_impl; [|exact Z]. simpl. intros f Hf.
    apply negb_false_iff in Hf. exact Hf.
  - intros HF.
    assert (Z : length (filter
                  (fun f => negb (strict_eq_str (js "success")
                                    (ingestionStatus f)
                                  || strict_eq_str (js "failed")
                                       (ingestionStatus f)))
                  (SummaryView.selectedFiles files)) = 0).
    { apply filter_empty_length. eapply Forall_impl; [|exact HF].
      simpl. intros f Hf. rewrite Hf. reflexivity. }
    lia.
Qed.

Lemma resetFile_unprocessed (fs : list FileData) :
  Forall (fun f => processed f = false)
    (map FileProcessingView.resetFile fs).
Proof.
  apply Forall_forall. intros x Hx. apply in_map_iff in Hx.
  destruct Hx as [f [<- _]]. reflexivity.
Qed.

Lemma resetFile_selected (fs : list FileData) :
  filter selected (map FileProcessingView.resetFile fs)
  = map FileProcessingView.resetFile (filter selected fs).
Proof.
  induction fs as [|f fs IH]; simpl; [reflexivity|].
  destruct (selected f); simpl; rewrite IH; reflexivity.
Qed.

(** X19.  After Reset no file counts as processed: the count and the
    progress are 0 as the file list says, nothing is listed as failed or
    offered for ingestion, and the Next button of the processing step is
    enabled only if no file is selected.  Each file keeps its id, name,
    selection, ingestion fields and also its error text. *)
Theorem reset_clears_processing (st : ProcessingCommon.state) :
  let st' := FileProcessingView.resetProcessing st in
  let fs' := ProcessingCommon.files st' in
  consistent (map selected (ProcessingCommon.files st))
    (length (filter selected (ProcessingCommon.files st))) st' /\
  ProcessingCommon.processedFileCount st' = 0 /\
  ProcessingCommon.error st' = None /\
  FileProcessingView.allFilesProcessed fs' = false /\
  FileProcessingView.failedFiles fs' = [] /\
  FileSelectionForIngestion.totalCount fs' = 0 /\
  Wizard.canProceed 2 fs'
  = negb (existsb selected (ProcessingCommon.files st)) /\
  map Model.error fs' = map Model.error (ProcessingCommon.files st) /\
  Forall2 (fun f g => id g = id f /\ name g = name f /\
                      selected g = selected f /\
                      ingestionStatus g = ingestionStatus f /\
                      ingestionDetails g = ingestionDetails f)
    (ProcessingCommon.files st) fs'.
Proof.
  intros st' fs'.
  assert (Efs : fs' = map FileProcessingView.resetFile
                        (ProcessingCommon.files st)) by reflexivity.
  assert (Hnone : filter (fun f => selected f && processed f) fs' = []).
  { apply CountFacts.filter_none. rewrite Efs. apply Forall_forall.
    intros x Hx. apply in_map_iff in Hx. destruct Hx as [f [<- _]].
    simpl. apply andb_false_r. }
  split.
  { unfold consistent. fold fs'. rewrite Hnone. simpl.
    split; [|split; [reflexivity|]].
    - rewrite Efs, map_map. reflexivity.
    - unfold ProcessingCommon.percent. simpl.
      destruct (length (filter selected (ProcessingCommon.files st)));
        reflexivity. }
  split; [reflexivity|]. split; [reflexivity|].
  split.
  { unfold FileProcessingView.allFilesProcessed,
      FileProcessingView.selectedFiles.
    rewrite Efs, resetFile_selected.
    destruct (filter selected (ProcessingCommon.files st)); reflexivity. }
  split.
  { unfold FileProcessingView.failedFiles, FileProcessingView.selectedFiles.
    apply CountFacts.filter_none. apply Forall_forall. intros x Hx.
    apply filter_In in Hx. destruct Hx as [Hx _]. rewrite Efs in Hx.
    apply in_map_iff in Hx. destruct Hx as [f [<- _]]. reflexivity. }
  split.
  { unfold FileSelectionForIngestion.totalCount,
      FileSelectionForIngestion.processedFiles.
    rewrite CountFacts.filter_none; [reflexivity|].
    rewrite Efs. apply resetFile_unprocessed. }
  split.
  { unfold Wizard.canProceed. rewrite Efs, resetFile_selected.
    clear Efs Hnone.
    induction (ProcessingCommon.files st) as [|f fs IH]; simpl;
      [reflexivity|].
    destruct (selected f); simpl; [reflexivity|exact IH]. }
  split.
  { rewrite Efs, map_map. reflexivity. }
  rewrite Efs. clear Efs Hnone.
  induction (ProcessingCommon.files st) as [|f fs IH]; simpl;
    constructor; [repeat split|exact IH].
Qed.

(** X20.  With no selected file that is processed and has an error,
    Retry Failed sends no request: the state stays exactly as it is,
    whatever the server would answer. *)
Theorem retry_without_failures_is_noop
    (resp : response) (st : ProcessingCommon.state) :
  FileProcessingView.failedFiles (ProcessingCommon.files st) = [] ->
  FileProcessing.retryFailedProcessing resp st = Some st.
Proof.
  unfold FileProcessingView.failedFiles, FileProcessingView.selectedFiles,
    FileProcessing.retryFailedProcessing.
  intros H. rewrite H. simpl.
  f_equal. destruct st. unfold ProcessingCommon.setFiles. simpl.
  f_equal. rewrite <- (map_id files) at 2. reflexivity.
Qed.

Lemma retry_without_failures_is_noop_witness :
  let st := Scenario.processing0 [Scenario.fileA; Scenario.fileB] in
  let resp := Body [bytesq "data: {'file_id':'A'}"] None in
  FileProcessingView.failedFiles (ProcessingCommon.files st) = [] /\
  FileProcessing.retryFailedProcessing resp st = Some st.
Proof.
  intros st resp.
  assert (H : FileProcessingView.failedFiles (ProcessingCommon.files st) = [])
    by reflexivity.
  split; [exact H|].
  exact (retry_without_failures_is_noop resp st H).
Defined.

End SummaryFacts.
